(* ===== verification/_CoqProject ===== *)
-Q . S2P
Prelude.v
JsLib.v
Note.v
NotesList.v
Remote.v
Backend.v
NotesHook.v
NoteEditor.v
Dashboard.v
System.v
Fixtures.v
Invariants.v
Scenarios.v
SummaryMachine.v
Writes.v
Settle.v
Consistency.v
Races.v
PublicPage.v
ProfilePage.v
Header.v
Landing.v
ProfileFlow.v
DashboardView.v
