(* ===== verification/Prelude.v ===== *)
(** * A verification development of sync-smart-notes

    sync-smart-notes is a React/TypeScript note-taking client over a hosted
    backend: a relational table [notes], a table [profiles], an auth
    service, a change-notification channel and a remote summarisation
    function.  The client keeps no authoritative state.  The notes hook
    (src/src/hooks/useNotes.ts) fetches the user's notes on mount and again
    on every change notification; the dashboard page
    (src/src/pages/Dashboard.tsx) owns the hook and the selection and passes
    notes and callbacks to the list (NotesList.tsx) and the editor
    (NoteEditor.tsx); the editor keeps a draft seeded from the selected note
    object and writes through the hook's [updateNote]; the public notes and
    profile pages talk to the backend directly.

    ** Files (in dependency order)

    - [Prelude] (this file): the scope [notes_scope], the [result] of remote
      calls, JavaScript truthiness, the tactics [bool_to_prop] and
      [bool_cases], the hint databases [notes] and [notes_rw], list lemmas.
    - [JsLib], Module [Js]: the built-ins the code calls: [toLowerCase],
      [toUpperCase], [includes], [trim], [split(" ")], [s[0]], [join("")],
      [new Set], [Array.prototype.includes], [sort] and [find].  A string is
      a Stdlib [string]; its characters stand for UTF-16 code units
      U+0000..U+00FF, on which case mapping, white space and code-unit
      order are ECMAScript's (the two units whose upper case leaves the
      range are documented there).  [includes] is proved equal to substring
      containment; [sort], a stable insertion sort, is proved to be the only
      sorted arrangement, so the engine's algorithm does not matter.
    - [Note], Module [Note]: the [Note] interface and [Partial<Note>].
    - [NotesList], Module [NotesList]: NotesList.tsx: search and tag state,
      [allTags], [filteredNotes], the tag bar, cards, the body and the
      whole render [list_view].
    - [Remote], Module [Remote]: requests and their typed replies, outputs
      (toasts, navigations), handler programs [Prog] (state updates,
      outputs, [Await] on a request with a typed continuation, [Fork] for an
      async call that is not awaited), lenses placing a component's state in
      the page's, and [run], which executes a program up to its awaits as
      JavaScript does; [Confined], the programs that leave a measure of
      the state unchanged, on which both pages' invariants rest, and
      [Bounded], the programs with at most [n] awaits, the measure of
      termination.
    - [Backend], Module [Backend]: the backend's tables, row policy,
      ordering, ids, timestamps and failure replies, modelled from the spec
      (the backend and the supabase client are not code of this
      repository).  The row-level policy is a parameter.
    - [NotesHook], Module [NotesHook]: useNotes.ts: fetchNotes (with its
      continuation [fetched]), mount, createNote, updateNote, deleteNote,
      and the record [NotesApi] the hook returns ([useNotes]).
    - [NoteEditor], Module [NoteEditor]: NoteEditor.tsx: the draft, the
      seeding effect [sync] keyed on the note object (reply number and id),
      the handlers in a Section over the page state and the [onUpdateNote]
      callback, and the render.
    - [Dashboard], Module [Dashboard]: Dashboard.tsx: page state, the whole
      page state [App] with a lens per component, the session check and
      handlers, [commit] (React's effects after a render) and [handler],
      which gives the program a user action starts when the element it acts
      on is rendered and enabled.
    - [System], Module [System]: the running tab as a step relation: user
      actions, auth events, the backend serving a request, a call failing,
      the summarisation function answering anything, replies handled in any
      order, change notifications starting [fetchNotes], writes by another
      device; [reachable] from the boot, and [exec_action], an executable
      step proved sound, so that traces are checked by computation;
      [exec_confined], running a [Confined] program on the tab.
    - [Fixtures]: a backend whose policy lets a user read and write the rows
      they own, with one signed-in user and two notes.
    - [Invariants], Module [Invariants]: by induction on [step], every
      waiting continuation is the rest of [fetchNotes], the rest of
      [handleSummarize] or a program that touches neither; hence the
      summarisation requests in flight are counted by [isSummarizing], and
      a fetch served and handled back to back leaves the list equal to the
      backend's ([list_in_sync]).  Its tactic [solve_page] proves
      [Confined] for the page's programs, for every measure used here.
    - [Scenarios], Module [Scenarios]: concrete runs, the evidence of the
      findings of PROJECT.json: the stale-reply race of the list, the stale
      closure of [handleDeleteNote], the selection cleared by a failed
      delete, a summary shown on another note, the summary and the unsaved
      draft lost on any re-fetch, the first note's creation, a failed first
      fetch, two saves of one note applied in reverse order.  The general
      statements they are instances of are in [Races] and [Dashboard].
    - [Races], Module [Races]: what a handler does whatever happened while
      it waited, for every reachable state and every reply: the delete's
      closure deselects, the fetch reply handled last replaces the list, a
      failed fetch keeps it, a summary lands on whatever note is open (by
      the invariant [Seen]: the seeding effect has run on every reachable
      state), and a delete the policy ignores is reported as done.
    - [SummaryMachine], Module [SummaryMachine]: the spec's summarisation
      machine [Idle -> Summarizing -> Idle] and the abstraction [phase] of a
      state of [System] to it, read off [isSummarizing]; every step keeps
      the phase or is a transition of the machine with the cause the spec
      names (a refinement by an abstraction function with stuttering
      steps).
    - [Writes], Module [Writes]: by induction on [step], every update in
      flight carries only the fields the editor edits (an instance of
      [Confined] with the trivial measure and the request test
      [write_ok]).
    - [Settle], Module [Settle]: the steps that need no new input
      ([settle_step]: serving, failing, the function answering, handling a
      reply, handling a notification) and a measure of the state that each
      of them decreases, by an invariant [Good] on the waiting
      continuations: only the rest of [createNote] after [getUser] sends
      again.
    - [Consistency], Module [Consistency]: runs in which every reply is
      handled as soon as it is served ([astep], and the executable test
      [atomic_trace]), and the invariant that the list is in sync, or a
      notification is pending, or a fetch is in flight.
    - [PublicPage], Module [PublicNotes]: PublicNotes.tsx: state, the
      mount fetch and its continuation, the filter, the cards and body,
      the page's render [public_view], the Home and search events.
    - [ProfilePage], Module [ProfilePage]: Profile.tsx: state,
      [fetchProfile] split at its awaits ([user_fetched],
      [profile_loaded]), [handleSaveProfile] and [saved], the initials,
      the render [profile_view].
    - [Header], Module [Header]: DashboardHeader.tsx: the buttons' effects
      and the rendered header.
    - [Landing], Module [Landing]: Landing.tsx: its render and buttons.
    - [ProfileFlow], Module [ProfileFlow]: the profile page as a step
      relation: its form events, its requests answered by the backend or
      failing in any order, other writers; the save button's flag counts
      the saves in flight, a save always completes, a saved name is shown
      when the page is loaded again, a loaded page has a user, without
      new input the page settles.
    - [DashboardView], Modules [FloatingActionButton] and [DashboardView]:
      FloatingActionButton.tsx, and the dashboard's render (the spinner,
      or the header, the list's body, the editor's view and the floating
      action button).

    ** What the theorems show

    Functional behaviour: the list filter against a substring
    specification, the tag universe as the sorted set of tags, the editor's
    tag handlers, the blank-summary guard, the seeding effect, the public
    page's filter, the avatar initials, the header's theme icon.
    Invariants and refinement: the summarisation count in every reachable
    state and the profile saves in flight, a user set on every loaded
    profile page, the list agreeing with the backend at synchronisation
    points, a note deleted from the list absent from the next fetched
    list, the
    summarisation phase refining the spec's machine, and every update the
    client sends leaving ids, owners, timestamps and publication fields
    alone; and, where the spec's eventual consistency holds (replies
    handled as soon as served, no failure, no sign-out), a quiescent list
    equal to the backend's.
    Liveness and round trips: a pending profile save can always complete,
    and the name it stores is the one the page loads next; adding a tag
    and removing it leaves the draft and the saved tags as they were.
    Error paths: note creation on every reply of its two requests, a
    failed delete, a delete the row policy ignores yet reported as done, a
    failed fetch on either page, a blank summary request, the avatar's
    initials throwing.  Interleavings, for every state and reply: the
    closure of [handleDeleteNote], the fetch reply handled last winning,
    a summary shown on the note open when it arrives.  Behaviours the spec
    does not describe: see the findings of PROJECT.json.

    ** Bounds and termination

    Every recursion is structural (on strings, lists and handler programs);
    there is no fuel.  Handler programs are finite trees, so [run]
    terminates; reachability is an inductive closure and every trace used
    is a finite list of actions evaluated by [vm_compute].  What does need
    proof is that the running pages settle: on the profile page every
    continuation awaits at most one more request, so with no new input
    any run of answers has at most twice as many steps as requests in
    flight ([ProfileFlow.profile_settles]).  On the dashboard a change
    notification starts a fetch and a served write publishes one, so the
    bound is a measure: per request in flight its answer, its handling,
    the three steps of the notification a write may publish, and 5 for the
    only continuation that sends again (the insert of [createNote]), plus
    3 per pending notification ([Settle.dashboard_settles]).  Settling is
    not consistency: [Scenarios.stale_fetch_wins] ends settled with a stale
    list.  The initials of a [k]-word
    name have between [k] and [2k] code units.

    ** Not modelled

    The auth page and the route table (App.tsx is not in the repository),
    console logging, date formatting, class names, icons and the layout of
    the JSX (the renders keep the texts, values, flags and handlers), the
    editor's unused [onRefetch] prop, the realtime channel's removal on
    unmount and page navigation (a [Navigate] output is recorded, the page
    stays mounted), strings beyond U+00FF, the summarisation function's
    text (any reply is allowed), and writes that commit on the backend but
    report a failure to the client. *)

From stdpp Require Export base list strings sets sorting.
From Stdlib Require Export String Ascii.

Declare Scope notes_scope.
Delimit Scope notes_scope with notes.
Open Scope string_scope.
Open Scope list_scope.

(** ** Results of remote calls

    Every backend call of the source returns [{ data, error }] and the code
    branches on [error] first; [Ok]/[Err] is that branch, [E] carries the
    error's [message]. *)
Inductive result (A E : Type) : Type :=
| Ok (a : A)
| Err (e : E).
Arguments Ok {A E} a.
Arguments Err {A E} e.

Definition is_ok {A E} (r : result A E) : bool :=
  match r with Ok _ => true | Err _ => false end.

(** JavaScript truthiness of a string: [""] is falsy, every other string is
    truthy. *)
Definition truthy (s : string) : bool :=
  match s with EmptyString => false | _ => true end.

Notation "s '?:' d" := (if truthy s then s else d)
  (at level 60, right associativity) : notes_scope.

(** ** Automation *)
Create HintDb notes.
Create Rewrite HintDb notes_rw.

(** [s || ""] is [s] for a string. *)
Lemma truthy_or_empty (s : string) : (if truthy s then s else EmptyString) = s.
Proof. by destruct s. Qed.
#[export] Hint Rewrite truthy_or_empty : notes_rw.

(** [bool_to_prop] turns the boolean tests of the code in the hypotheses
    into the propositions they decide. *)
Ltac bool_to_prop :=
  repeat match goal with
  | H : (_ && _)%bool = true |- _ => apply andb_true_iff in H as [? ?]
  | H : (_ || _)%bool = true |- _ => apply orb_true_iff in H
  | H : negb _ = true |- _ => apply negb_true_iff in H
  | H : String.eqb _ _ = true |- _ => apply String.eqb_eq in H; subst
  | H : String.eqb _ _ = false |- _ => apply String.eqb_neq in H
  | H : (_ <=? _)%N = true |- _ => apply N.leb_le in H
  | H : (_ <=? _)%N = false |- _ => apply N.leb_gt in H
  | H : (_ =? _)%N = true |- _ => apply N.eqb_eq in H
  | H : (_ =? _)%N = false |- _ => apply N.eqb_neq in H
  | H : (_ <=? _)%nat = true |- _ => apply Nat.leb_le in H
  | H : (_ <=? _)%nat = false |- _ => apply Nat.leb_gt in H
  | H : (_ =? _)%nat = true |- _ => apply Nat.eqb_eq in H
  | H : (_ =? _)%nat = false |- _ => apply Nat.eqb_neq in H
  end.

(** [bool_cases] also splits the disjunctions that [bool_to_prop] leaves,
    producing one goal per branch of a boolean test. *)
Ltac bool_cases :=
  repeat first
    [ progress bool_to_prop
    | match goal with H : _ \/ _ |- _ => destruct H end ].

(** ** Generic list lemmas *)
Section ListFacts.
Context {A : Type}.

Lemma In_filter_bool (p : A -> bool) (l : list A) (x : A) :
  In x (List.filter p l) <-> In x l /\ p x = true.
Proof. apply filter_In. Qed.

Lemma filter_bool_ext' (p q : A -> bool) (l : list A) :
  (forall x, p x = q x) -> List.filter p l = List.filter q l.
Proof. intros H. induction l as [|x l IH]; simpl; [done|]. by rewrite H, IH. Qed.

Lemma filter_bool_true (p : A -> bool) (l : list A) :
  (forall x, In x l -> p x = true) -> List.filter p l = l.
Proof.
  induction l as [|x l IH]; intros Hp; simpl; [done|].
  rewrite (Hp x) by (left; done). f_equal. apply IH. intros y Hy. apply Hp. by right.
Qed.

Lemma filter_bool_incl (p : A -> bool) (l : list A) :
  incl (List.filter p l) l.
Proof. intros x Hx. by apply filter_In in Hx as [? _]. Qed.

Lemma NoDup_filter_bool (p : A -> bool) (l : list A) :
  List.NoDup l -> List.NoDup (List.filter p l).
Proof. apply List.NoDup_filter. Qed.
End ListFacts.

#[export] Hint Resolve filter_bool_incl NoDup_filter_bool : notes.

