(* ===== verification/JsLib.v ===== *)
(** * JavaScript built-ins used by the client

    The source calls [String.prototype.toLowerCase], [includes], [trim],
    [new Set(...)], [Array.prototype.sort] (default comparator) and
    [Array.prototype.find].  This file gives each one an executable
    definition and the lemmas the components use.

    A JavaScript string is a sequence of UTF-16 code units.  It is modelled
    by a Stdlib [string] whose [ascii] characters stand for the code units
    U+0000..U+00FF (the Latin-1 block); on that range the case mapping,
    the white-space set of [trim] and the code-unit order of [sort] below
    are those of ECMAScript. *)
From S2P Require Import Prelude.
From stdpp Require Import sorting.

Module Js.

(** ** Characters as code units *)
Definition code (c : ascii) : N := N_of_ascii c.

(** [toLowerCase] on U+0000..U+00FF: A-Z (0x41-0x5A), U+00C0-U+00D6 and
    U+00D8-U+00DE move down by 0x20; every other unit of the range is its
    own lower case. *)
Definition is_upper_unit (n : N) : bool :=
  (((65 <=? n) && (n <=? 90)) || ((192 <=? n) && (n <=? 214))
   || ((216 <=? n) && (n <=? 222)))%N.

Definition lower_char (c : ascii) : ascii :=
  if is_upper_unit (code c) then ascii_of_N (code c + 32)%N else c.

Fixpoint toLowerCase (s : string) : string :=
  match s with
  | EmptyString => EmptyString
  | String c s' => String (lower_char c) (toLowerCase s')
  end.

(** [includes]: [s.includes(q)] holds when [q] occurs in [s] at some
    position; [startsWith] is the test at position 0. *)
Fixpoint startsWith (s q : string) : bool :=
  match q, s with
  | EmptyString, _ => true
  | String a q', String b s' => Ascii.eqb a b && startsWith s' q'
  | String _ _, EmptyString => false
  end.

Fixpoint includes (s q : string) : bool :=
  startsWith s q ||
  match s with
  | EmptyString => false
  | String _ s' => includes s' q
  end.

(** [trim]: ECMAScript's WhiteSpace and LineTerminator units inside the
    range are TAB, LF, VT, FF, CR, SPACE and NO-BREAK SPACE (U+00A0). *)
Definition is_space (c : ascii) : bool :=
  let n := code c in
  (((9 <=? n) && (n <=? 13)) || (n =? 32) || (n =? 160))%N.

Fixpoint trimStart (s : string) : string :=
  match s with
  | EmptyString => EmptyString
  | String c s' => if is_space c then trimStart s' else s
  end.

Fixpoint trimEnd (s : string) : string :=
  match s with
  | EmptyString => EmptyString
  | String c s' =>
      let r := trimEnd s' in
      if is_space c && String.eqb r EmptyString then EmptyString else String c r
  end.

Definition trim (s : string) : string := trimEnd (trimStart s).

Fixpoint all_space (s : string) : bool :=
  match s with
  | EmptyString => true
  | String c s' => is_space c && all_space s'
  end.

(** [toUpperCase] on U+0000..U+00FF: a-z, U+00E0-U+00F6 and U+00F8-U+00FE
    move up by 0x20 and U+00DF (sharp s) becomes "SS".  The upper cases of
    U+00B5 (micro sign) and U+00FF (y with diaeresis) are U+039C and U+0178,
    outside the modelled range: the model leaves these two units as they
    are. *)
Definition is_lower_unit (n : N) : bool :=
  (((97 <=? n) && (n <=? 122)) || ((224 <=? n) && (n <=? 246))
   || ((248 <=? n) && (n <=? 254)))%N.

Definition upper_unit (c : ascii) : string :=
  if (code c =? 223)%N then "SS"
  else if is_lower_unit (code c) then String (ascii_of_N (code c - 32)%N) EmptyString
  else String c EmptyString.

Fixpoint toUpperCase (s : string) : string :=
  match s with
  | EmptyString => EmptyString
  | String c s' => (upper_unit c ++ toUpperCase s')%string
  end.

(** [s.split(" ")]: the pieces between single spaces, empty pieces
    included; the empty string gives [[""]]. *)
Fixpoint split_space (s : string) : list string :=
  match s with
  | EmptyString => [EmptyString]
  | String c s' =>
      let rest := split_space s' in
      if Ascii.eqb c " " then EmptyString :: rest
      else match rest with
           | r :: rs => String c r :: rs
           | [] => [String c EmptyString]
           end
  end.

(** [s[0]]: the first code unit, [undefined] for the empty string. *)
Definition at0 (s : string) : option ascii :=
  match s with EmptyString => None | String c _ => Some c end.

(** [xs.join("")] on an array of one-unit strings or [undefined]s: an
    [undefined] element is written as the empty string. *)
Fixpoint join_units (xs : list (option ascii)) : string :=
  match xs with
  | [] => EmptyString
  | Some c :: xs' => String c (join_units xs')
  | None :: xs' => join_units xs'
  end.

(** ** Lemmas *)

Lemma startsWith_spec (s q : string) :
  startsWith s q = true <-> exists b, s = (q ++ b)%string.
Proof.
  revert s; induction q as [|a q IH]; intros [|c s]; simpl.
  - split; [by exists EmptyString | done].
  - split; [by exists (String c s) | done].
  - split; [done | by intros [b Hb]].
  - rewrite andb_true_iff, IH. split.
    + intros [Hac [b ->]]. apply Ascii.eqb_eq in Hac as ->. by exists b.
    + intros [b Hb]. injection Hb as -> ->. split; [apply Ascii.eqb_refl | by exists b].
Qed.

Lemma includes_unfold (s q : string) :
  includes s q = startsWith s q ||
    match s with EmptyString => false | String _ s' => includes s' q end.
Proof. by destruct s. Qed.

Lemma includes_spec (s q : string) :
  includes s q = true <-> exists a b, s = (a ++ q ++ b)%string.
Proof.
  induction s as [|c s IH];
    rewrite (includes_unfold _ q), orb_true_iff, startsWith_spec.
  - split.
    + intros [[b Hb] | ?]; [|done]. exists EmptyString, b. exact Hb.
    + intros [[|x a] [b Hb]]; [left; by exists b | done].
  - rewrite IH. split.
    + intros [[b Hb] | [a [b ->]]].
      * exists EmptyString, b. exact Hb.
      * by exists (String c a), b.
    + intros [[|x a] [b Hb]]; [left; by exists b|].
      injection Hb as -> ->. right. by exists a, b.
Qed.

Lemma includes_empty (s : string) : includes s EmptyString = true.
Proof. destruct s; reflexivity. Qed.

Lemma toLowerCase_app (a b : string) :
  toLowerCase (a ++ b) = (toLowerCase a ++ toLowerCase b)%string.
Proof. induction a as [|c a IH]; simpl; [done | by rewrite IH]. Qed.

(** A decomposition of a lower-cased string comes from a decomposition of
    the string itself: [toLowerCase] maps unit by unit. *)
Lemma toLowerCase_split (s x y : string) :
  toLowerCase s = (x ++ y)%string ->
  exists s1 s2, s = (s1 ++ s2)%string /\ toLowerCase s1 = x /\ toLowerCase s2 = y.
Proof.
  revert s; induction x as [|c x IH]; intros s Hs.
  - by exists EmptyString, s.
  - destruct s as [|d s]; [done|]. simpl in Hs. injection Hs as Hc Hs.
    destruct (IH s Hs) as (s1 & s2 & -> & H1 & H2).
    exists (String d s1), s2. simpl. by rewrite Hc, H1.
Qed.

(** Case-insensitive containment, the property the search box promises:
    some piece of [s] has the same lower case as [q]. *)
Definition ci_contains (s q : string) : Prop :=
  exists a m b, s = (a ++ m ++ b)%string /\ toLowerCase m = toLowerCase q.

Lemma includes_lower_spec (s q : string) :
  includes (toLowerCase s) (toLowerCase q) = true <-> ci_contains s q.
Proof.
  rewrite includes_spec. split.
  - intros (a' & b' & Hs).
    destruct (toLowerCase_split _ _ _ Hs) as (a & r & -> & Ha & Hr).
    destruct (toLowerCase_split _ _ _ Hr) as (m & b & -> & Hm & Hb).
    by exists a, m, b.
  - intros (a & m & b & -> & Hm).
    exists (toLowerCase a), (toLowerCase b). by rewrite !toLowerCase_app, Hm.
Qed.

Lemma trimStart_empty (s : string) :
  trimStart s = EmptyString <-> all_space s = true.
Proof.
  induction s as [|c s IH]; simpl; [done|].
  destruct (is_space c); simpl; [done|]. split; done.
Qed.

Lemma trimEnd_empty (s : string) :
  trimEnd s = EmptyString <-> all_space s = true.
Proof.
  induction s as [|c s IH]; simpl; [done|].
  destruct (String.eqb_spec (trimEnd s) EmptyString) as [He|Hne];
  destruct (is_space c); simpl.
  - rewrite <- IH. done.
  - done.
  - rewrite <- IH. done.
  - done.
Qed.

Lemma all_space_trimStart (s : string) :
  all_space (trimStart s) = true -> all_space s = true.
Proof.
  induction s as [|c s IH]; simpl; [done|].
  destruct (is_space c) eqn:Hc; simpl; [done|]. by rewrite Hc.
Qed.

(** [x.trim()] is empty (falsy) exactly when [x] is all white space. *)
Lemma trim_empty (s : string) :
  trim s = EmptyString <-> all_space s = true.
Proof.
  unfold trim. rewrite trimEnd_empty. split; [apply all_space_trimStart|].
  intros H. apply trimStart_empty in H. by rewrite H.
Qed.

Lemma truthy_trim (s : string) :
  truthy (trim s) = negb (all_space s).
Proof.
  destruct (trim s) eqn:E.
  - by rewrite (proj1 (trim_empty s) E).
  - destruct (all_space s) eqn:A; [|done].
    apply trim_empty in A. congruence.
Qed.

(** ** Lengths *)

Lemma string_length_app (a b : string) :
  String.length (a ++ b) = String.length a + String.length b.
Proof. induction a as [|c a IH]; simpl; [done | by rewrite IH]. Qed.

(** Upper-casing a code unit gives one unit, or two for "ß". *)
Lemma toUpperCase_length (s : string) :
  String.length s <= String.length (toUpperCase s) <= 2 * String.length s.
Proof.
  induction s as [|c s IH]; simpl; [lia|]. rewrite string_length_app.
  unfold upper_unit. destruct (code c =? 223)%N; [simpl; lia|].
  destruct (is_lower_unit _); simpl; lia.
Qed.

(** [map(n => n[0]).join("")] has one unit per non-empty piece. *)
Lemma join_at0_length (ps : list string) :
  String.length (join_units (map at0 ps)) = List.length (List.filter truthy ps).
Proof. induction ps as [|[|c p] ps IH]; simpl; [done | done | by rewrite IH]. Qed.

(** ** Arrays *)

(** [new Set(xs)] followed by [Array.from]: the elements of [xs] without
    repetition, each at the place of its first occurrence (a Set iterates
    in insertion order and ignores an element already present). *)
Definition set_add {A} `{EqDecision A} (acc : list A) (x : A) : list A :=
  if decide (x ∈ acc) then acc else acc ++ [x].

Definition set_from {A} `{EqDecision A} (xs : list A) : list A :=
  fold_left set_add xs [].

(** [Array.prototype.includes] on an array of strings (SameValueZero on
    strings is equality). *)
Definition array_includes (xs : list string) (x : string) : bool :=
  existsb (String.eqb x) xs.

(** The default comparator of [Array.prototype.sort]: strings ordered by
    their code units.  On the modelled range this is [String.compare]. *)
Definition str_le (a b : string) : bool :=
  match String.compare a b with Gt => false | _ => true end.

(** [Array.prototype.sort] is stable since ES2019; its algorithm is left to
    the engine.  The model is the stable insertion sort: an element goes
    after every element already placed that is not greater than it. *)
Fixpoint insert_sorted (x : string) (l : list string) : list string :=
  match l with
  | [] => [x]
  | y :: ys => if str_le y x then y :: insert_sorted x ys else x :: y :: ys
  end.

Definition sort (xs : list string) : list string :=
  fold_left (fun acc x => insert_sorted x acc) xs [].

(** [Array.prototype.find]: the first element passing the test. *)
Definition find {A} (p : A -> bool) (xs : list A) : option A := List.find p xs.

(** ** Lemmas on arrays *)

Lemma set_from_acc_spec {A} `{EqDecision A} (xs acc : list A) :
  NoDup acc ->
  NoDup (fold_left set_add xs acc) /\
  (forall x, x ∈ fold_left set_add xs acc <-> x ∈ acc \/ x ∈ xs).
Proof.
  revert acc; induction xs as [|y xs IH]; intros acc Hnd; simpl.
  - split; [done|]. set_solver.
  - assert (NoDup (set_add acc y)) as Hnd'.
    { unfold set_add. case_decide; [done|].
      apply NoDup_app. split; [done|]. split; [set_solver | apply NoDup_singleton]. }
    destruct (IH _ Hnd') as [H1 H2]. split; [done|].
    intros x. rewrite H2. unfold set_add. case_decide; set_solver.
Qed.

Lemma set_from_NoDup {A} `{EqDecision A} (xs : list A) : NoDup (set_from xs).
Proof. apply set_from_acc_spec, NoDup_nil_2. Qed.

Lemma elem_of_set_from {A} `{EqDecision A} (xs : list A) (x : A) :
  x ∈ set_from xs <-> x ∈ xs.
Proof. unfold set_from. rewrite (proj2 (set_from_acc_spec xs [] (NoDup_nil_2)) x). set_solver. Qed.

Lemma array_includes_spec (xs : list string) (x : string) :
  array_includes xs x = true <-> x ∈ xs.
Proof.
  unfold array_includes. rewrite existsb_exists, list_elem_of_In. split.
  - intros [y [Hy Hxy]]. apply String.eqb_eq in Hxy. by subst.
  - intros Hx. exists x. split; [done | apply String.eqb_refl].
Qed.

Lemma str_compare_cons (a b : ascii) (s t : string) :
  String.compare (String a s) (String b t) =
  match N.compare (N_of_ascii a) (N_of_ascii b) with
  | Eq => String.compare s t | c => c end.
Proof. reflexivity. Qed.

Lemma str_le_trans (a b c : string) :
  str_le a b = true -> str_le b c = true -> str_le a c = true.
Proof.
  unfold str_le. revert b c; induction a as [|x a IH]; intros [|y b] [|z c]; try done.
  rewrite !str_compare_cons.
  destruct (N.compare_spec (N_of_ascii x) (N_of_ascii y)),
           (N.compare_spec (N_of_ascii y) (N_of_ascii z)),
           (N.compare_spec (N_of_ascii x) (N_of_ascii z)); try done; try lia.
  apply IH.
Qed.

Lemma str_le_total (a b : string) : str_le a b = true \/ str_le b a = true.
Proof.
  unfold str_le. rewrite (String.compare_antisym b a).
  destruct (String.compare a b); auto.
Qed.

Lemma str_le_antisym (a b : string) :
  str_le a b = true -> str_le b a = true -> a = b.
Proof.
  unfold str_le. rewrite (String.compare_antisym b a).
  destruct (String.compare a b) eqn:E; try done. intros _ _. by apply String.compare_eq_iff.
Qed.

Lemma str_le_refl (a : string) : str_le a a = true.
Proof. destruct (str_le_total a a); done. Qed.

Definition StrLe (a b : string) : Prop := str_le a b = true.

#[export] Instance StrLe_trans : Transitive StrLe.
Proof. intros a b c. apply str_le_trans. Qed.

Lemma insert_sorted_perm (x : string) (l : list string) :
  Permutation (insert_sorted x l) (x :: l).
Proof.
  induction l as [|y l IH]; simpl; [done|].
  destruct (str_le y x); [|done].
  by rewrite IH, perm_swap.
Qed.

Lemma insert_sorted_Sorted (x : string) (l : list string) :
  Sorted StrLe l -> Sorted StrLe (insert_sorted x l).
Proof.
  induction 1 as [|y l Hl IH Hhd]; simpl; [by repeat constructor|].
  destruct (str_le y x) eqn:Hyx.
  - constructor; [done|].
    destruct l as [|z l]; simpl; [by repeat constructor|].
    inversion Hhd; subst. destruct (str_le z x); by constructor.
  - constructor; [by constructor|]. constructor.
    destruct (str_le_total y x) as [H|H]; [congruence | done].
Qed.

Lemma sort_acc_spec (xs acc : list string) :
  Sorted StrLe acc ->
  Sorted StrLe (fold_left (fun acc x => insert_sorted x acc) xs acc) /\
  Permutation (fold_left (fun acc x => insert_sorted x acc) xs acc) (xs ++ acc).
Proof.
  revert acc; induction xs as [|x xs IH]; intros acc Hs; simpl; [done|].
  destruct (IH (insert_sorted x acc)) as [H1 H2]; [by apply insert_sorted_Sorted|].
  split; [done|]. rewrite H2, insert_sorted_perm. symmetry. apply Permutation_middle.
Qed.

Lemma sort_Sorted (xs : list string) : Sorted StrLe (sort xs).
Proof. apply sort_acc_spec. constructor. Qed.

Lemma sort_perm (xs : list string) : Permutation (sort xs) xs.
Proof. unfold sort. rewrite (proj2 (sort_acc_spec xs [] (Sorted_nil _))). by rewrite app_nil_r. Qed.

(** Two sorted arrangements of the same strings are the same list: the
    code-unit order is total and antisymmetric. *)
Lemma sorted_perm_unique (l1 l2 : list string) :
  StronglySorted StrLe l1 -> StronglySorted StrLe l2 -> Permutation l1 l2 -> l1 = l2.
Proof.
  revert l2; induction l1 as [|a l1 IH]; intros l2 H1 H2 Hp.
  - symmetry. by apply Permutation_nil.
  - destruct l2 as [|b l2]; [symmetry in Hp; by apply Permutation_nil_cons in Hp|].
    apply StronglySorted_inv in H1 as [H1 Ha]. apply StronglySorted_inv in H2 as [H2 Hb].
    assert (a = b) as <-.
    { apply str_le_antisym.
      - assert (In b (a :: l1)) as [->|Hin] by (rewrite Hp; left; done);
          [apply str_le_refl | exact (proj1 (List.Forall_forall _ _) Ha b Hin)].
      - assert (In a (b :: l2)) as [->|Hin] by (rewrite <- Hp; left; done);
          [apply str_le_refl | exact (proj1 (List.Forall_forall _ _) Hb a Hin)]. }
    f_equal. apply IH; [done | done | by apply Permutation_cons_inv in Hp].
Qed.

End Js.
