(* ===== verification/Note.v ===== *)
(** * Notes and partial updates

    The [Note] interface of src/src/hooks/useNotes.ts (lines 5-17), the row
    type of the backend table [notes], and [Partial<Note>], the payload of
    [updateNote].  Timestamps ([created_at], [updated_at]) are strings in
    the client; the model keeps the instant they denote, an integer, since
    only their order is used (by the backend's [order(...)]). *)
From S2P Require Import Prelude JsLib.
From Stdlib Require Import ZArith.

Module Note.

Definition Timestamp := Z.

Record Note := mkNote {
  id : string;
  user_id : string;
  title : string;
  content : string;
  tags : list string;
  is_favorite : bool;
  is_public : bool;
  slug : option string;
  view_count : Z;
  created_at : Timestamp;
  updated_at : Timestamp
}.

#[export] Instance Note_eq_dec : EqDecision Note.
Proof. intros [] []. unfold Decision. decide equality; apply decide; apply _. Defined.

(** [Partial<Note>]: every field optional; an absent field is left as it
    is by the backend's [update]. *)
Record NotePatch := mkPatch {
  p_id : option string;
  p_user_id : option string;
  p_title : option string;
  p_content : option string;
  p_tags : option (list string);
  p_is_favorite : option bool;
  p_is_public : option bool;
  p_slug : option (option string);
  p_view_count : option Z;
  p_created_at : option Timestamp;
  p_updated_at : option Timestamp
}.

Definition empty_patch : NotePatch :=
  mkPatch None None None None None None None None None None None.

(** The value a field takes after an update: the patch's value when the
    key is present, the old value otherwise. *)
Definition upd {A} (o : option A) (old : A) : A :=
  match o with Some v => v | None => old end.

End Note.
