(* ===== verification/NotesList.v ===== *)
(** * The notes list view

    src/src/components/dashboard/NotesList.tsx.  The component keeps two
    pieces of state, the search text and the selected tag, and computes on
    every render the tag universe [allTags] (lines 38-40), the filtered
    notes [filteredNotes] (lines 42-48), the tag bar (lines 63-85), and the
    body: a loading line, an empty-state message or one card per note
    (lines 88-157).  The theorems characterise the filter by substrings
    (soundness and completeness), the tag universe as the sorted set of the
    notes' tags, and the empty-state message. *)
From S2P Require Import Prelude JsLib Note.
Import Note.

Module NotesList.

(** The component's state (lines 35-36): [searchQuery] and [selectedTag]
    ([string | null]). *)
Record ListState := mkListState {
  searchQuery : string;
  selectedTag : option string
}.

Definition initial_state : ListState := mkListState EmptyString None.

(** The handlers: the search box's [onChange] (line 58), the "All" badge
    (line 69) and a tag badge (line 78). *)
Definition setSearchQuery (v : string) (s : ListState) : ListState :=
  mkListState v (selectedTag s).

Definition setSelectedTag (t : option string) (s : ListState) : ListState :=
  mkListState (searchQuery s) t.

(** [Array.from(new Set(notes.flatMap((note) => note.tags || []))).sort()];
    [tags] is a [string[]] in the [Note] type, so [|| []] keeps it. *)
Definition allTags (notes : list Note) : list string :=
  Js.sort (Js.set_from (flat_map tags notes)).

(** The test of lines 43-45. *)
Definition matchesSearch (q : string) (n : Note) : bool :=
  Js.includes (Js.toLowerCase (title n)) (Js.toLowerCase q)
  || Js.includes (Js.toLowerCase (content n)) (Js.toLowerCase q).

(** The test of line 46: [!selectedTag || note.tags?.includes(selectedTag)].
    [!selectedTag] holds for [null] and for the empty string. *)
Definition matchesTag (sel : option string) (n : Note) : bool :=
  match sel with
  | None => true
  | Some t => negb (truthy t) || Js.array_includes (tags n) t
  end.

Definition filteredNotes (s : ListState) (notes : list Note) : list Note :=
  List.filter (fun n => matchesSearch (searchQuery s) n && matchesTag (selectedTag s) n)
    notes.

(** The tag bar (lines 63-85): shown when [allTags] is not empty; an "All"
    badge, highlighted when no tag is selected, then one badge per tag,
    highlighted when it is the selected one. *)
Definition tagBar (s : ListState) (notes : list Note) : option (list (string * bool)) :=
  match allTags notes with
  | [] => None
  | ts =>
      Some (("All", bool_decide (selectedTag s = None))
            :: map (fun t => (t, bool_decide (selectedTag s = Some t))) ts)
  end.

(** One card (lines 102-153). *)
Record Card := mkCard {
  card_id : string;
  card_highlighted : bool;
  card_title : string;
  card_star : bool;
  card_excerpt : string;
  card_date : Timestamp;
  card_tags : list string
}.

Definition card (selectedNoteId : option string) (n : Note) : Card :=
  mkCard (id n)
    (bool_decide (selectedNoteId = Some (id n)))
    (if truthy (title n) then title n else "Untitled Note")
    (is_favorite n)
    (if truthy (content n) then content n else "Empty note")
    (updated_at n)
    (firstn 3 (tags n)).

Inductive ListBody :=
| Loading
| EmptyMessage (msg : string)
| Cards (cs : list Card).

(** Lines 78-145. *)
Definition body (s : ListState) (notes : list Note) (selectedNoteId : option string)
    (isLoading : bool) : ListBody :=
  if isLoading then Loading
  else match filteredNotes s notes with
       | [] =>
           if truthy (searchQuery s)
              || (match selectedTag s with Some t => truthy t | None => false end)
           then EmptyMessage "No notes found"
           else EmptyMessage "No notes yet. Create your first note!"
       | fs => Cards (map (card selectedNoteId) fs)
       end.

(** The whole component (lines 48-161): the search box (its placeholder
    and value), the tag bar and the body. *)
Record ListView := mkListView {
  lv_placeholder : string;
  lv_search : string;
  lv_tags : option (list (string * bool));
  lv_body : ListBody
}.

Definition list_view (s : ListState) (notes : list Note) (selectedNoteId : option string)
    (isLoading : bool) : ListView :=
  mkListView "Search notes..." (searchQuery s) (tagBar s notes) (body s notes selectedNoteId isLoading).

(** ** The filter *)

Lemma matchesSearch_spec (q : string) (n : Note) :
  matchesSearch q n = true <-> Js.ci_contains (title n) q \/ Js.ci_contains (content n) q.
Proof. unfold matchesSearch. by rewrite orb_true_iff, !Js.includes_lower_spec. Qed.

Lemma matchesTag_spec (sel : option string) (n : Note) :
  matchesTag sel n = true <-> forall t, sel = Some t -> t = EmptyString \/ t ∈ tags n.
Proof.
  destruct sel as [t|]; simpl; [|split; [done | auto]].
  rewrite orb_true_iff, negb_true_iff, Js.array_includes_spec. split.
  - intros [Ht|Ht] ? [= <-]; [left; by destruct t | by right].
  - intros H. destruct (H t eq_refl) as [->|Ht]; [by left | by right].
Qed.

#[export] Hint Rewrite matchesSearch_spec matchesTag_spec : notes_rw.

(** C1. The filter is sound and complete: a note is listed exactly when it
    is one of the notes, its title or its content contains the search text
    ignoring case, and it carries the selected tag (an empty selected tag,
    like none, selects every note). *)
Theorem filteredNotes_spec (s : ListState) (notes : list Note) (n : Note) :
  In n (filteredNotes s notes) <->
  In n notes
  /\ (Js.ci_contains (title n) (searchQuery s) \/ Js.ci_contains (content n) (searchQuery s))
  /\ (forall t, selectedTag s = Some t -> t = EmptyString \/ t ∈ tags n).
Proof.
  unfold filteredNotes. rewrite In_filter_bool, andb_true_iff.
  by autorewrite with notes_rw.
Qed.

(** The filter keeps the notes' order: the result is a sub-sequence. *)
Lemma filteredNotes_sublist (s : ListState) (notes : list Note) :
  sublist (filteredNotes s notes) notes.
Proof.
  unfold filteredNotes. induction notes as [|n ns IH]; simpl; [done|].
  destruct (_ && _); [by apply sublist_skip | by apply sublist_cons].
Qed.

(** With an empty search text and no selected tag the list shows every
    note, in order. *)
Theorem filteredNotes_unfiltered (notes : list Note) :
  filteredNotes initial_state notes = notes.
Proof.
  apply filter_bool_true. intros n _. unfold matchesSearch. simpl.
  by rewrite Js.includes_empty.
Qed.

(** ** The tag universe *)

Lemma allTags_elem (notes : list Note) (t : string) :
  t ∈ allTags notes <-> exists n, n ∈ notes /\ t ∈ tags n.
Proof.
  unfold allTags. rewrite (Js.sort_perm _), Js.elem_of_set_from, list_elem_of_In, in_flat_map.
  setoid_rewrite list_elem_of_In. done.
Qed.

Lemma allTags_NoDup (notes : list Note) : NoDup (allTags notes).
Proof. unfold allTags. rewrite (Js.sort_perm _). apply Js.set_from_NoDup. Qed.

Lemma allTags_sorted (notes : list Note) : StronglySorted Js.StrLe (allTags notes).
Proof. apply Sorted_StronglySorted; [exact Js.StrLe_trans | apply Js.sort_Sorted]. Qed.

(** C2. [allTags] is the tag set of the notes in code-unit order: any
    sorted list without repetition holding exactly the tags that occur in
    some note is [allTags notes].  The result therefore does not depend on
    the sorting algorithm of the JavaScript engine. *)
Theorem allTags_characterised (notes : list Note) (l : list string) :
  StronglySorted Js.StrLe l -> NoDup l ->
  (forall t, t ∈ l <-> exists n, n ∈ notes /\ t ∈ tags n) ->
  l = allTags notes.
Proof.
  intros Hs Hnd Hl. apply Js.sorted_perm_unique; [done | apply allTags_sorted |].
  apply NoDup_Permutation; [done | apply allTags_NoDup |].
  intros t. rewrite Hl, allTags_elem. done.
Qed.

(** ** Tag badges and the empty-state message *)

Lemma matchesSearch_empty (n : Note) : matchesSearch EmptyString n = true.
Proof. unfold matchesSearch. by rewrite Js.includes_empty. Qed.

(** With no active filter (empty search, no tag or the empty tag) every note
    passes. *)
Lemma filteredNotes_inactive (s : ListState) (notes : list Note) :
  truthy (searchQuery s) = false ->
  match selectedTag s with Some t => truthy t | None => false end = false ->
  filteredNotes s notes = notes.
Proof.
  destruct s as [[|c q] sel]; simpl; [|done]. intros _ Hsel.
  apply filter_bool_true. intros n _. rewrite matchesSearch_empty.
  destruct sel as [[|c t]|]; done.
Qed.

(** C22. Clicking a tag badge of the tag bar, with an empty search box,
    never yields an empty list: each tag of [allTags] comes from a note,
    and that note is listed. *)
Theorem tag_badge_nonempty (notes : list Note) (t : string) :
  t ∈ allTags notes ->
  filteredNotes (mkListState EmptyString (Some t)) notes <> [].
Proof.
  intros Ht Hnil. apply allTags_elem in Ht as (n & Hn & Hnt).
  assert (In n (filteredNotes (mkListState EmptyString (Some t)) notes)) as Hin.
  { unfold filteredNotes. apply In_filter_bool. split; [by apply list_elem_of_In|].
    rewrite matchesSearch_empty. apply (proj2 (matchesTag_spec (Some t) n)).
    intros ? [= <-]. by right. }
  by rewrite Hnil in Hin.
Qed.

(** C23. The placeholder "No notes yet. Create your first note!" is shown
    only when the user has no note at all. *)
Theorem body_no_notes_yet (s : ListState) (notes : list Note) (sel : option string) :
  body s notes sel false = EmptyMessage "No notes yet. Create your first note!" ->
  notes = [].
Proof.
  unfold body. destruct (filteredNotes s notes) eqn:Hf; [|done].
  destruct (truthy (searchQuery s)) eqn:Hq; [done|].
  destruct (match selectedTag s with Some t => truthy t | None => false end) eqn:Ht; [done|].
  intros _. by rewrite filteredNotes_inactive in Hf.
Qed.

End NotesList.

(** ** Witnesses on a concrete list of notes *)
Module NotesListWitness.
Import NotesList.

Definition sample_note (i t c : string) (tg : list string) : Note :=
  mkNote i "user-1" t c tg false false None 0%Z 0%Z 0%Z.

Definition sample : list Note :=
  [sample_note "1" "Groceries" "milk, eggs" ["home"; "todo"];
   sample_note "2" "Lecture" "HELLO world" ["work"; "todo"];
   sample_note "3" "" "" []].

Lemma tag_badge_nonempty_witness :
  "work" ∈ allTags sample /\
  filteredNotes (mkListState EmptyString (Some "work")) sample <> [].
Proof.
  assert ("work" ∈ allTags sample) as H by (vm_compute; set_solver).
  split; [exact H | exact (tag_badge_nonempty sample "work" H)].
Defined.

Lemma body_no_notes_yet_witness :
  body initial_state [] None false = EmptyMessage "No notes yet. Create your first note!" /\
  [] = ([] : list Note).
Proof.
  assert (body initial_state [] None false = EmptyMessage "No notes yet. Create your first note!")
    as H by reflexivity.
  split; [exact H | exact (body_no_notes_yet initial_state [] None H)].
Defined.

Lemma allTags_characterised_witness :
  ["home"; "todo"; "work"] = allTags sample.
Proof.
  apply allTags_characterised.
  - repeat constructor; vm_compute; reflexivity.
  - repeat constructor; set_solver.
  - intros t. split.
    + intros Ht. apply list_elem_of_In in Ht. simpl in Ht.
      destruct Ht as [<-|[<-|[<-|[]]]].
      * exists (sample_note "1" "Groceries" "milk, eggs" ["home"; "todo"]). set_solver.
      * exists (sample_note "1" "Groceries" "milk, eggs" ["home"; "todo"]). set_solver.
      * exists (sample_note "2" "Lecture" "HELLO world" ["work"; "todo"]). set_solver.
    + intros (n & Hn & Ht). unfold sample in Hn.
      repeat (apply elem_of_cons in Hn as [->|Hn]); [set_solver.. | set_solver].
Defined.

End NotesListWitness.
