(* ===== verification/Remote.v ===== *)
(** * The backend as the client sees it, and handler programs

    The client talks to the backend through [supabase] (an import of
    src/integrations/supabase/client, outside src/): table reads and writes,
    the auth service and the summarisation function.  Every call is
    awaited; a handler is therefore a program that runs synchronously up to
    its first [await], is suspended there, and resumes when the reply is
    delivered.  [Prog] is that shape: React state updates ([Set_]), user
    visible outputs ([Emit]: toasts and navigations), awaited requests
    ([Await]) with a continuation typed by the request, and calls of an
    async function that are not awaited ([Fork]: the callee runs up to its
    own first [await], then the caller goes on).

    [Backend] gives the replies the backend computes (its tables, its
    timestamps, fresh ids, the row-level policy) and is modelled from the
    spec: the backend is not code of this repository. *)
From S2P Require Import Prelude JsLib Note.
From Stdlib Require Import ZArith.
From stdpp Require Import pretty.
Import Note.

Module Remote.

(** ** Identities *)
Record User := mkUser { uid : string; email : option string }.

Record Profile := mkProfile { prof_id : string; full_name : option string }.

(** ** Requests and their replies *)
Inductive Req :=
| GetUser                                   (** [supabase.auth.getUser()] *)
| GetSession                                (** [supabase.auth.getSession()] *)
| SignOut                                   (** [supabase.auth.signOut()] *)
| SelectNotes                               (** [from("notes").select("*").order("updated_at", desc)] *)
| SelectPublicNotes                         (** [... .eq("is_public", true).order("created_at", desc)] *)
| InsertNote (user_id title content : string) (tags : list string)
                                            (** [insert({...}).select().single()] *)
| UpdateNote (nid : string) (p : NotePatch) (** [update(updates).eq("id", id)] *)
| DeleteNote (nid : string)                 (** [delete().eq("id", id)] *)
| SelectProfile (pid : string)              (** [from("profiles").select("*").eq("id", id).single()] *)
| UpdateProfile (pid : string) (name : string)
| Summarize (text : string).                (** [functions.invoke("summarize-note", ...)] *)

Definition ErrMsg := string.

(** A batch of rows as parsed by the client: the objects of one reply.  Two
    replies never share objects, so [batch] is the objects' identity. *)
Record Fetched := mkFetched { rows_data : option (list Note); batch : nat }.

(** The part of each reply the code reads: [data.user] for the auth calls,
    [{ data, error }] for table calls (a [null] [data] is [None]),
    [data?.summary] for the function (absent or [null] is [None]). *)
Definition Resp (r : Req) : Type :=
  match r with
  | GetUser | GetSession => option User
  | SignOut => unit
  | SelectNotes | SelectPublicNotes => result Fetched ErrMsg
  | InsertNote _ _ _ _ => result Note ErrMsg
  | UpdateNote _ _ | DeleteNote _ | UpdateProfile _ _ => result unit ErrMsg
  | SelectProfile _ => option Profile
  | Summarize _ => result (option string) ErrMsg
  end.

(** ** Outputs the user sees *)
Inductive Out :=
| Toast (title description : string) (destructive : bool)
| Navigate (path : string).

(** ** Handler programs *)
Inductive Prog (S A : Type) : Type :=
| Ret (a : A)
| Set_ (f : S -> S) (k : Prog S A)
| Emit (o : Out) (k : Prog S A)
| Await (r : Req) (k : Resp r -> Prog S A)
| Fork (p : Prog S unit) (k : Prog S A).
Arguments Ret {S A} a.
Arguments Set_ {S A} f k.
Arguments Emit {S A} o k.
Arguments Await {S A} r k.
Arguments Fork {S A} p k.

Fixpoint bind {S A B} (p : Prog S A) (f : A -> Prog S B) : Prog S B :=
  match p with
  | Ret a => f a
  | Set_ g k => Set_ g (bind k f)
  | Emit o k => Emit o (bind k f)
  | Await r k => Await r (fun x => bind (k x) f)
  | Fork q k => Fork q (bind k f)
  end.

(** stdpp's monad classes, so that handlers read [x ← await r; k]. *)
#[export] Instance Prog_ret {S} : MRet (Prog S) := fun A a => Ret a.
#[export] Instance Prog_bind {S} : MBind (Prog S) := fun A B f p => bind p f.

Definition set {S} (f : S -> S) : Prog S unit := Set_ f (Ret tt).
Definition emit {S} (o : Out) : Prog S unit := Emit o (Ret tt).
Definition await {S} (r : Req) : Prog S (Resp r) := Await r Ret.
Definition fork {S} (p : Prog S unit) : Prog S unit := Fork p (Ret tt).

(** ** Components inside the application state

    A component's program updates its own state; a lens places that state
    inside the application's. *)
Class Lens (S C : Type) := {
  view : S -> C;
  update : C -> S -> S;
  view_update : forall c s, view (update c s) = c;
  update_view : forall s, update (view s) s = s
}.

Fixpoint lift {S C A} `{Lens S C} (p : Prog C A) : Prog S A :=
  match p with
  | Ret a => Ret a
  | Set_ g k => Set_ (fun s => update (g (view s)) s) (lift k)
  | Emit o k => Emit o (lift k)
  | Await r k => Await r (fun x => lift (k x))
  | Fork q k => Fork (lift q) (lift k)
  end.

(** ** Running a handler up to its awaits

    JavaScript runs an async function synchronously up to its first
    [await]; the request is then in flight and the rest of the function
    waits for the reply.  [run] executes a program that way: it applies the
    state updates, records the outputs, and returns the continuations
    suspended on a request (a forked call first runs up to its own
    [await], then the caller continues). *)
Record Pending (S : Type) := mkPending {
  p_req : Req;
  p_k : Resp p_req -> Prog S unit
}.
Arguments mkPending {S} p_req p_k.
Arguments p_req {S} _.
Arguments p_k {S} _.

Record Run (S : Type) := mkRun {
  r_state : S;
  r_outs : list Out;
  r_pending : list (Pending S)
}.
Arguments mkRun {S} r_state r_outs r_pending.
Arguments r_state {S} _.
Arguments r_outs {S} _.
Arguments r_pending {S} _.

Fixpoint run {S} (p : Prog S unit) (st : Run S) : Run S :=
  match p with
  | Ret _ => st
  | Set_ f k => run k (mkRun (f (r_state st)) (r_outs st) (r_pending st))
  | Emit o k => run k (mkRun (r_state st) (r_outs st ++ [o]) (r_pending st))
  | Await r k => mkRun (r_state st) (r_outs st) (r_pending st ++ [mkPending r k])
  | Fork q k => run k (run q st)
  end.

Definition start {S} (p : Prog S unit) (s : S) : Run S := run p (mkRun s [] []).

(** The requests a run leaves in flight. *)
Definition requests {S} (st : Run S) : list Req := map p_req (r_pending st).

(** ** Programs confined to a part of the state

    An invariant about a measure [m] of the state (a flag, a counter) holds
    across a program that never changes [m] and only awaits requests
    accepted by [ok_req]; the requests it leaves in flight are then again
    of that kind.  Both pages' invariants are instances. *)
Section Confined.
Context {S X : Type} (ok_req : Req -> bool) (m : S -> X).

Inductive Confined : Prog S unit -> Prop :=
| c_ret u : Confined (Ret u)
| c_set f k : (forall s, m (f s) = m s) -> Confined k -> Confined (Set_ f k)
| c_emit o k : Confined k -> Confined (Emit o k)
| c_await r k : ok_req r = true -> (forall v, Confined (k v)) -> Confined (Await r k)
| c_fork p k : Confined p -> Confined k -> Confined (Fork p k).

Definition confined_pending (q : Pending S) : Prop :=
  ok_req (p_req q) = true /\ forall v, Confined (p_k q v).

Lemma run_confined (p : Prog S unit) (st : Run S) :
  Confined p ->
  m (r_state (run p st)) = m (r_state st) /\
  exists ps, r_pending (run p st) = r_pending st ++ ps /\ Forall confined_pending ps.
Proof.
  intros Hc. revert st. induction Hc as [u|f k Hf Hk IH|o k Hk IH|r k Hr Hk IH|q k Hq IHq Hk IHk];
    intros st; simpl.
  - split; [done|]. exists []. by rewrite app_nil_r.
  - destruct (IH (mkRun (f (r_state st)) (r_outs st) (r_pending st))) as [H1 [ps [H2 H3]]].
    split; [by rewrite H1; simpl; apply Hf | by exists ps].
  - apply (IH (mkRun (r_state st) (r_outs st ++ [o]) (r_pending st))).
  - split; [done|]. exists [mkPending r k]. split; [done|]. repeat constructor; [done|]. apply Hk.
  - destruct (IHq st) as [H1 [ps1 [H2 H3]]]. destruct (IHk (run q st)) as [H4 [ps2 [H5 H6]]].
    split; [by rewrite H4|]. exists (ps1 ++ ps2). rewrite H5, H2, app_assoc.
    split; [done|]. by apply Forall_app.
Qed.

End Confined.

(** ** Programs with a bounded number of awaits

    [Bounded n p]: along every path of [p], and summed over the calls it
    forks, at most [n] requests are awaited.  Running such a program leaves
    at most [n] continuations waiting, each bounded by [n - 1]; this is the
    measure by which a page with no new input settles. *)
Section Bounded.
Context {St : Type}.

Inductive Bounded : nat -> Prog St unit -> Prop :=
| b_ret n u : Bounded n (Ret u)
| b_set n f k : Bounded n k -> Bounded n (Set_ f k)
| b_emit n o k : Bounded n k -> Bounded n (Emit o k)
| b_await n r k : (forall v, Bounded n (k v)) -> Bounded (S n) (Await r k)
| b_fork n m p k : Bounded n p -> Bounded m k -> Bounded (n + m) (Fork p k).

Definition bounded_pending (n : nat) (q : Pending St) : Prop := forall v, Bounded n (p_k q v).

Lemma Bounded_weaken (n m : nat) (p : Prog St unit) : Bounded n p -> n <= m -> Bounded m p.
Proof.
  intros Hb. revert m. induction Hb as [n u|n f k _ IH|n o k _ IH|n r k _ IH|n1 n2 p k _ IH1 _ IH2];
    intros m Hm.
  - constructor.
  - constructor. by apply IH.
  - constructor. by apply IH.
  - destruct m as [|m]; [lia|]. constructor. intros v. apply IH. lia.
  - replace m with (n1 + (m - n1)) by lia. constructor; [by apply IH1 | apply IH2; lia].
Qed.

Lemma run_bounded (n : nat) (p : Prog St unit) (st : Run St) :
  Bounded n p ->
  exists ps, r_pending (run p st) = r_pending st ++ ps /\ List.length ps <= n /\
    Forall (bounded_pending (Nat.pred n)) ps.
Proof.
  intros Hb. revert st. induction Hb as [n u|n f k _ IH|n o k _ IH|n r k Hk IH|n1 n2 p k _ IH1 _ IH2];
    intros st; simpl.
  - exists []. rewrite app_nil_r. split; [done|]. split; [simpl; lia | constructor].
  - apply (IH (mkRun (f (r_state st)) (r_outs st) (r_pending st))).
  - apply (IH (mkRun (r_state st) (r_outs st ++ [o]) (r_pending st))).
  - exists [mkPending r k]. split; [done|]. split; [simpl; lia|]. by repeat constructor.
  - destruct (IH1 st) as (ps1 & H1 & L1 & F1). destruct (IH2 (run p st)) as (ps2 & H2 & L2 & F2).
    exists (ps1 ++ ps2). rewrite H2, H1, app_assoc. split; [done|].
    rewrite length_app. split; [lia|]. apply Forall_app. split.
    + eapply Forall_impl; [exact F1|]. intros q Hq v. eapply Bounded_weaken; [apply Hq | lia].
    + eapply Forall_impl; [exact F2|]. intros q Hq v. eapply Bounded_weaken; [apply Hq | lia].
Qed.

End Bounded.

(** Proves [Bounded] for a concrete program by following its syntax. *)
Ltac solve_bounded :=
  repeat match goal with
  | |- Bounded _ (Ret _) => apply b_ret
  | |- Bounded _ (mret _) => apply b_ret
  | |- Bounded _ (emit _) => unfold emit
  | |- Bounded _ (set _) => unfold set
  | |- Bounded _ (Set_ _ _) => apply b_set
  | |- Bounded _ (Emit _ _) => apply b_emit
  | |- Bounded _ (Await _ _) => apply b_await; intros ?
  | |- Bounded _ (match ?x with _ => _ end) => destruct x
  | |- context [match ?x with _ => _ end] => is_var x; destruct x
  | |- Bounded _ _ => progress cbn
  end.

(** Proves [Confined] for a concrete program by following its syntax. *)
Ltac solve_confined :=
  repeat match goal with
  | |- Confined _ _ (Ret _) => apply c_ret
  | |- Confined _ _ (mret _) => apply c_ret
  | |- Confined _ _ (fork _) => unfold fork
  | |- Confined _ _ (emit _) => unfold emit
  | |- Confined _ _ (set _) => unfold set
  | |- Confined _ _ (Set_ _ _) => apply c_set; [intros ?; reflexivity|]
  | |- Confined _ _ (Emit _ _) => apply c_emit
  | |- Confined _ _ (Await _ _) => apply c_await; [reflexivity|intros ?]
  | |- Confined _ _ (Fork _ _) => apply c_fork
  | |- Confined _ _ (match ?x with _ => _ end) => destruct x
  | |- Confined _ _ (if ?b then _ else _) => destruct b
  | |- Confined _ _ (lift (match ?x with _ => _ end)) => destruct x
  | |- Confined _ _ (lift (if ?b then _ else _)) => destruct b
  | |- context [match ?x with _ => _ end] => is_var x; destruct x
  | |- Confined _ _ _ => progress cbn
  end.

End Remote.
