(* ===== verification/Backend.v ===== *)
(** * The backend's tables (modelled from the spec)

    The hosted backend is not code of this repository; this file models
    what the spec says of it (section 6): a table [notes] whose rows the
    client reads ordered by a timestamp and writes by id, a table
    [profiles], the signed-in session, and a row-level policy deciding
    which rows a viewer may read and write.  Ties of the ordering are
    broken by insertion order.  A failed call changes nothing. *)
From S2P Require Import Prelude JsLib Note Remote.
From Stdlib Require Import ZArith.
From stdpp Require Import pretty.
Import Note Remote.

Module Backend.

Record DB := mkDB {
  rows : list Note;            (** the [notes] table, in insertion order *)
  profiles : list Profile;     (** the [profiles] table *)
  session : option User;       (** this client's signed-in user *)
  clock : Timestamp;           (** [now()]: strictly increasing *)
  next_id : N                  (** source of fresh row ids *)
}.

(** The row-level policy: who may read and who may write a row. *)
Record Policy := mkPolicy {
  can_read : option User -> Note -> bool;
  can_write : option User -> Note -> bool
}.

(** Ordering by a key, most recent first, ties in insertion order. *)
Fixpoint insert_desc (key : Note -> Z) (x : Note) (l : list Note) : list Note :=
  match l with
  | [] => [x]
  | y :: ys => if (key x <=? key y)%Z then y :: insert_desc key x ys else x :: y :: ys
  end.

Definition order_desc (key : Note -> Z) (l : list Note) : list Note :=
  fold_left (fun acc x => insert_desc key x acc) l [].

Definition select_notes (pol : Policy) (db : DB) : list Note :=
  order_desc updated_at (List.filter (can_read pol (session db)) (rows db)).

Definition select_public (pol : Policy) (db : DB) : list Note :=
  order_desc created_at
    (List.filter (fun n => can_read pol (session db) n && is_public n) (rows db)).

Definition fresh_id (db : DB) : string := "note-" +:+ pretty (next_id db).

(** A row with the table's defaults for the columns the insert omits. *)
Definition new_row (db : DB) (uid title content : string) (tags : list string) : Note :=
  mkNote (fresh_id db) uid title content tags false false None 0%Z (clock db) (clock db).

Definition apply_patch (now : Timestamp) (p : NotePatch) (n : Note) : Note :=
  mkNote (upd (p_id p) (id n)) (upd (p_user_id p) (user_id n)) (upd (p_title p) (title n))
    (upd (p_content p) (content n)) (upd (p_tags p) (tags n))
    (upd (p_is_favorite p) (is_favorite n)) (upd (p_is_public p) (is_public n))
    (upd (p_slug p) (slug n)) (upd (p_view_count p) (view_count n))
    (upd (p_created_at p) (created_at n)) (upd (p_updated_at p) now).

Definition tick (db : DB) (rs : list Note) : DB :=
  mkDB rs (profiles db) (session db) (clock db + 1)%Z (next_id db).

Definition rls_error : ErrMsg := "new row violates row-level security policy".

(** [a] comes no later than [b] in a list ordered most recent first. *)
Definition newest_first (key : Note -> Z) (a b : Note) : Prop := (key b <= key a)%Z.

(** The reply to a request and the new state, when the backend computes it
    ([None] for the summarisation function, whose text the model leaves
    open).  [b] is the batch number given to rows read. *)
Definition serve (pol : Policy) (b : nat) (db : DB) (r : Req) : option (Resp r * DB) :=
  match r as r0 return option (Resp r0 * DB) with
  | GetUser | GetSession => Some (session db, db)
  | SignOut => Some (tt, mkDB (rows db) (profiles db) None (clock db) (next_id db))
  | SelectNotes => Some (Ok (mkFetched (Some (select_notes pol db)) b), db)
  | SelectPublicNotes => Some (Ok (mkFetched (Some (select_public pol db)) b), db)
  | InsertNote u t c tg =>
      let n := new_row db u t c tg in
      if can_write pol (session db) n
      then Some (Ok n, mkDB (rows db ++ [n]) (profiles db) (session db)
                          (clock db + 1)%Z (next_id db + 1)%N)
      else Some (Err rls_error, db)
  | UpdateNote i p =>
      Some (Ok tt, tick db (map (fun n => if String.eqb (id n) i && can_write pol (session db) n
                                          then apply_patch (clock db) p n else n) (rows db)))
  | DeleteNote i =>
      Some (Ok tt, tick db (List.filter (fun n => negb (String.eqb (id n) i
                                          && can_write pol (session db) n)) (rows db)))
  | SelectProfile i =>
      Some (List.find (fun pr => String.eqb (prof_id pr) i) (profiles db), db)
  | UpdateProfile i nm =>
      Some (Ok tt, mkDB (rows db)
                     (map (fun pr => if String.eqb (prof_id pr) i then mkProfile i (Some nm) else pr)
                        (profiles db)) (session db) (clock db) (next_id db))
  | Summarize _ => None
  end.

(** The reply when the call fails (network, HTTP or backend error): the
    error for calls that report one, [null] data for those whose error the
    code does not read. *)
Definition fail_reply (msg : ErrMsg) (r : Req) : Resp r :=
  match r as r0 return Resp r0 with
  | GetUser | GetSession => None
  | SignOut => tt
  | SelectNotes | SelectPublicNotes => Err msg
  | InsertNote _ _ _ _ => Err msg
  | UpdateNote _ _ | DeleteNote _ | UpdateProfile _ _ => Err msg
  | SelectProfile _ => None
  | Summarize _ => Err msg
  end.

(** Whether serving the request changed the [notes] table, which makes the
    backend publish a change notification. *)
Definition notes_changed (before after : DB) : bool :=
  bool_decide (rows before <> rows after).

(** Ordering keeps the rows. *)
Lemma insert_desc_perm (key : Note -> Z) (x : Note) (l : list Note) :
  Permutation (insert_desc key x l) (x :: l).
Proof.
  induction l as [|y l IH]; simpl; [done|].
  destruct (key x <=? key y)%Z; [|done]. by rewrite IH, perm_swap.
Qed.

Lemma order_desc_perm (key : Note -> Z) (l : list Note) :
  Permutation (order_desc key l) l.
Proof.
  unfold order_desc. rewrite <- (app_nil_r l) at 2.
  generalize (@nil Note). induction l as [|x l IH]; intros acc; simpl; [done|].
  rewrite IH, insert_desc_perm. by rewrite Permutation_middle.
Qed.

(** Ordering sorts, most recent first. *)
Lemma insert_desc_sorted (key : Note -> Z) (x : Note) (l : list Note) :
  Sorted (newest_first key) l -> Sorted (newest_first key) (insert_desc key x l).
Proof.
  unfold newest_first. induction 1 as [|y l Hs IH Hhd]; simpl; [by repeat constructor|].
  destruct (key x <=? key y)%Z eqn:E.
  - constructor; [done|]. apply Z.leb_le in E.
    destruct l as [|z l]; simpl; [by constructor|].
    inversion Hhd; subst. destruct (key x <=? key z)%Z eqn:E'; constructor; [done|].
    apply Z.leb_gt in E'. lia.
  - apply Z.leb_gt in E. constructor; [by constructor|]. constructor. lia.
Qed.

Lemma order_desc_sorted (key : Note -> Z) (l : list Note) :
  Sorted (newest_first key) (order_desc key l).
Proof.
  unfold order_desc. cut (forall acc, Sorted (newest_first key) acc ->
    Sorted (newest_first key) (fold_left (fun acc x => insert_desc key x acc) l acc)).
  { intros H. apply H. constructor. }
  induction l as [|x l IH]; intros acc Hacc; simpl; [done|]. by apply IH, insert_desc_sorted.
Qed.

(** A delete removes every row with the id that the session may write. *)
Lemma delete_removes (pol : Policy) (b : nat) (db : DB) (i : string) :
  (forall n, n ∈ rows db -> id n = i -> can_write pol (session db) n = true) ->
  exists db', serve pol b db (DeleteNote i) = Some (Ok tt, db') /\ i ∉ map id (rows db').
Proof.
  intros Hw. eexists. split; [reflexivity|]. simpl.
  intros (n & Hn & Hin)%list_elem_of_fmap.
  apply list_elem_of_In, filter_In in Hin as [Hin Hf]. apply list_elem_of_In in Hin.
  rewrite Hn, String.eqb_refl, (Hw n Hin (eq_sym Hn)) in Hf. discriminate.
Qed.

End Backend.
