(* ===== verification/NotesHook.v ===== *)
(** * The notes synchronisation hook

    src/src/hooks/useNotes.ts.  The hook keeps the list of notes and a
    loading flag (lines 20-21), fetches the list on mount and on every
    change notification of the [notes] table (lines 46-67), and exposes
    [createNote], [updateNote] and [deleteNote] (lines 69-140).  Each
    operation is a handler program of [Remote]; its [try]/[catch]/[finally]
    is the branch on the reply.  The notes held are the objects of one
    reply, whose number [notes_batch] is their identity. *)
From S2P Require Import Prelude JsLib Note Remote.
Import Note Remote.

Module NotesHook.

Record HookState := mkHook {
  notes : list Note;
  notes_batch : nat;
  isLoading : bool
}.

(** [useState<Note[]>([])], [useState(true)]: the initial array is batch 0. *)
Definition initial : HookState := mkHook [] 0 true.

Definition setNotes (ns : list Note) (b : nat) (s : HookState) : HookState :=
  mkHook ns b (isLoading s).

Definition setIsLoading (v : bool) (s : HookState) : HookState :=
  mkHook (notes s) (notes_batch s) v.

(** [fetchNotes] (lines 24-44): [setNotes(data || [])] on success, an error
    toast on failure, [setIsLoading(false)] in both cases.  [fetched] is
    the part after the [await]. *)
Definition fetched (r : result Fetched ErrMsg) : Prog HookState unit :=
  match r with
  | Ok f =>
      set (setNotes (match rows_data f with Some d => d | None => [] end) (batch f));;
      set (setIsLoading false)
  | Err e =>
      emit (Toast "Error loading notes" e true);;
      set (setIsLoading false)
  end.

Definition fetchNotes : Prog HookState unit :=
  r ← await SelectNotes;
  fetched r.

(** The mount effect (lines 46-67): [fetchNotes()] is called without
    [await]; the channel's callback is [fetchNotes] again (started by the
    application model on each notification). *)
Definition mount : Prog HookState unit := fork fetchNotes.

(** [createNote] (lines 69-102). *)
Definition createNote : Prog HookState (option Note) :=
  u ← await GetUser;
  match u with
  | None =>
      emit (Toast "Error creating note" "Not authenticated" true);;
      mret None
  | Some user =>
      r ← await (InsertNote (uid user) "Untitled Note" "" []);
      match r with
      | Ok n => emit (Toast "Note created" "Your new note is ready" false);; mret (Some n)
      | Err e => emit (Toast "Error creating note" e true);; mret None
      end
  end.

(** [updateNote] (lines 104-120): no local change, a toast on failure. *)
Definition updateNote (nid : string) (p : NotePatch) : Prog HookState unit :=
  r ← await (UpdateNote nid p);
  match r with
  | Ok _ => mret tt
  | Err e => emit (Toast "Error updating note" e true)
  end.

(** [deleteNote] (lines 122-140). *)
Definition deleteNote (nid : string) : Prog HookState unit :=
  r ← await (DeleteNote nid);
  match r with
  | Ok _ => emit (Toast "Note deleted" "Your note has been removed" false)
  | Err e => emit (Toast "Error deleting note" e true)
  end.

(** What the hook returns (lines 141-150): its state and its operations,
    [fetchNotes] as [refetch].  The dashboard destructures it (Dashboard.tsx
    line 19) and passes [refetch] to the editor as [onRefetch], which the
    editor never calls. *)
Record NotesApi := mkNotesApi {
  api_notes : list Note;
  api_isLoading : bool;
  api_createNote : Prog HookState (option Note);
  api_updateNote : string -> NotePatch -> Prog HookState unit;
  api_deleteNote : string -> Prog HookState unit;
  api_refetch : Prog HookState unit
}.

Definition useNotes (h : HookState) : NotesApi :=
  mkNotesApi (notes h) (isLoading h) createNote updateNote deleteNote fetchNotes.

End NotesHook.
