(* ===== verification/NoteEditor.v ===== *)
(** * The note editor

    src/src/components/dashboard/NoteEditor.tsx.  The editor keeps a draft
    of the selected note (lines 28-34), re-seeds it from the [note] prop
    whenever that prop changes (the effect of lines 37-45, whose dependency
    is the note object), and has the handlers [handleSave],
    [handleAddTag], [handleRemoveTag], [handleToggleFavorite] and
    [handleSummarize] (lines 47-122).  The handlers are written in a
    Section over the application state [S] that contains the editor's (a
    [Lens]) and over the [onUpdateNote] callback the page passes down; a
    handler reads the state of the render it was created in (its closure),
    given as [s0]. *)
From S2P Require Import Prelude JsLib Note Remote.
Import Note Remote.

Module NoteEditor.

Record EditorState := mkEditor {
  title_d : string;
  content_d : string;
  tags_d : list string;
  newTag : string;
  isFavorite : bool;
  isSummarizing : bool;
  summary : string;
  seen : option (nat * string)   (** the note object the effect last saw *)
}.

Definition initial : EditorState :=
  mkEditor EmptyString EmptyString [] EmptyString false false EmptyString None.

(** The setters of the component's [useState]s. *)
Definition setTitle (v : string) (s : EditorState) : EditorState :=
  mkEditor v (content_d s) (tags_d s) (newTag s) (isFavorite s) (isSummarizing s) (summary s) (seen s).
Definition setContent (v : string) (s : EditorState) : EditorState :=
  mkEditor (title_d s) v (tags_d s) (newTag s) (isFavorite s) (isSummarizing s) (summary s) (seen s).
Definition setTags (v : list string) (s : EditorState) : EditorState :=
  mkEditor (title_d s) (content_d s) v (newTag s) (isFavorite s) (isSummarizing s) (summary s) (seen s).
Definition setNewTag (v : string) (s : EditorState) : EditorState :=
  mkEditor (title_d s) (content_d s) (tags_d s) v (isFavorite s) (isSummarizing s) (summary s) (seen s).
Definition setIsFavorite (v : bool) (s : EditorState) : EditorState :=
  mkEditor (title_d s) (content_d s) (tags_d s) (newTag s) v (isSummarizing s) (summary s) (seen s).
Definition setIsSummarizing (v : bool) (s : EditorState) : EditorState :=
  mkEditor (title_d s) (content_d s) (tags_d s) (newTag s) (isFavorite s) v (summary s) (seen s).
Definition setSummary (v : string) (s : EditorState) : EditorState :=
  mkEditor (title_d s) (content_d s) (tags_d s) (newTag s) (isFavorite s) (isSummarizing s) v (seen s).

(** The seeding effect (lines 37-45).  The prop is the note object of a
    reply: [Some (b, n)] is note [n] of reply [b]; React re-runs the effect
    when the object differs from the one of the previous render.  When it
    runs with a note, the draft is overwritten and the summary cleared. *)
Definition identity (note : option (nat * Note)) : option (nat * string) :=
  match note with Some (b, n) => Some (b, id n) | None => None end.

Definition sync (note : option (nat * Note)) (s : EditorState) : EditorState :=
  if bool_decide (identity note = seen s) then s
  else match note with
       | Some (_, n) =>
           mkEditor (title n) (content n) (tags n) (newTag s) (is_favorite n)
             (isSummarizing s) EmptyString (identity note)
       | None =>
           mkEditor (title_d s) (content_d s) (tags_d s) (newTag s) (isFavorite s)
             (isSummarizing s) (summary s) None
       end.

(** The payloads the editor sends. *)
Definition save_patch (s : EditorState) : NotePatch :=
  mkPatch None None (Some (title_d s)) (Some (content_d s)) (Some (tags_d s))
    (Some (isFavorite s)) None None None None None.

Definition tags_patch (ts : list string) : NotePatch :=
  mkPatch None None None None (Some ts) None None None None None None.

Definition favorite_patch (b : bool) : NotePatch :=
  mkPatch None None None None None (Some b) None None None None None.

Section Handlers.
Context {S : Type} `{Lens S EditorState}.
(** [onUpdateNote], the page's [updateNote]. *)
Variable onUpdateNote : string -> NotePatch -> Prog S unit.

Definition setE (f : EditorState -> EditorState) : Prog S unit := lift (set f).

(** [handleSave] (lines 47-56). *)
Definition handleSave (note : option Note) (s0 : EditorState) : Prog S unit :=
  match note with
  | None => mret tt
  | Some n => onUpdateNote (id n) (save_patch s0)
  end.

(** [handleAddTag] (lines 58-67): the update is started, not awaited. *)
Definition handleAddTag (note : option Note) (s0 : EditorState) : Prog S unit :=
  let t := Js.trim (newTag s0) in
  if truthy t && negb (Js.array_includes (tags_d s0) t) then
    let updated := (tags_d s0 ++ [t])%list in
    setE (setTags updated);;
    setE (setNewTag EmptyString);;
    match note with
    | Some n => fork (onUpdateNote (id n) (tags_patch updated))
    | None => mret tt
    end
  else mret tt.

(** [handleRemoveTag] (lines 69-75). *)
Definition handleRemoveTag (note : option Note) (s0 : EditorState) (t : string) : Prog S unit :=
  let updated := List.filter (fun x => negb (String.eqb x t)) (tags_d s0) in
  setE (setTags updated);;
  match note with
  | Some n => fork (onUpdateNote (id n) (tags_patch updated))
  | None => mret tt
  end.

(** [handleToggleFavorite] (lines 77-83). *)
Definition handleToggleFavorite (note : option Note) (s0 : EditorState) : Prog S unit :=
  let nf := negb (isFavorite s0) in
  setE (setIsFavorite nf);;
  match note with
  | Some n => fork (onUpdateNote (id n) (favorite_patch nf))
  | None => mret tt
  end.

(** [handleSummarize] (lines 85-122); [summarized] is the part after the
    [await]: the [if (data?.summary)], the [catch] and the [finally]. *)
Definition summarized (r : result (option string) ErrMsg) : Prog S unit :=
  (match r with
   | Ok (Some sm) =>
       if truthy sm then
         setE (setSummary sm);;
         emit (Toast "Summary generated!" "Your note has been summarized by AI" false)
       else mret tt
   | Ok None => mret tt
   | Err e =>
       emit (Toast "Summarization failed"
               (if truthy e then e else "Failed to generate summary") true)
   end);;
  setE (setIsSummarizing false).

Definition handleSummarize (s0 : EditorState) : Prog S unit :=
  if negb (truthy (Js.trim (content_d s0))) then
    emit (Toast "No content" "Please add some content to summarize" true)
  else
    setE (setIsSummarizing true);;
    r ← await (Summarize (content_d s0));
    summarized r.
End Handlers.

(** ** The view (lines 124-255) *)
Definition summarize_enabled (s : EditorState) : bool :=
  negb (isSummarizing s || negb (truthy (Js.trim (content_d s)))).

Inductive EditorView :=
| Placeholder
| Editing (title : string) (favorite : bool) (tags : list string) (content : string)
    (button_label : string) (button_enabled : bool) (summary_panel : option string).

Definition render (note : option Note) (s : EditorState) : EditorView :=
  match note with
  | None => Placeholder
  | Some _ =>
      Editing (title_d s) (isFavorite s) (tags_d s) (content_d s)
        (if isSummarizing s then "Summarizing..." else "Summarize")
        (summarize_enabled s)
        (if truthy (summary s) then Some (summary s) else None)
  end.

(** ** Properties of the handlers *)

Section HandlerLemmas.
Context {S : Type} `{Lens S EditorState}.
Variable onUpdateNote : string -> NotePatch -> Prog S unit.
(** The callback's synchronous part leaves the editor's state alone. *)
Hypothesis update_sync :
  forall i p st, view (r_state (run (onUpdateNote i p) st)) = view (r_state st).

Lemma run_view_setE (f : EditorState -> EditorState) (k : Prog S unit) (st : Run S) :
  view (r_state (run (setE f;; k) st)) =
  view (r_state (run k (mkRun (update (f (view (r_state st))) (r_state st))
                              (r_outs st) (r_pending st)))).
Proof. reflexivity. Qed.

Lemma run_view_fork_update (note : option Note) (p : NotePatch) (st : Run S) :
  view (r_state (run (match note with
                      | Some n => fork (onUpdateNote (id n) p)
                      | None => mret tt end) st)) = view (r_state st).
Proof. destruct note; [apply update_sync | reflexivity]. Qed.

(** Adding a tag that is blank after trimming, or already present, does
    nothing at all: no state change, no request. *)
Lemma handleAddTag_noop (note : option Note) (s0 : EditorState) :
  truthy (Js.trim (newTag s0)) = false \/ Js.trim (newTag s0) ∈ tags_d s0 ->
  handleAddTag onUpdateNote note s0 = mret tt.
Proof.
  unfold handleAddTag. intros [Hb|Hin].
  - by rewrite Hb.
  - apply Js.array_includes_spec in Hin. rewrite Hin. by rewrite andb_false_r.
Qed.

(** The tags [handleAddTag] leaves in the editor. *)
Lemma handleAddTag_tags (note : option Note) (st : Run S) :
  let s0 := view (r_state st) in
  let t := Js.trim (newTag s0) in
  tags_d (view (r_state (run (handleAddTag onUpdateNote note s0) st))) =
  if truthy t && negb (Js.array_includes (tags_d s0) t) then (tags_d s0 ++ [t])%list
  else tags_d s0.
Proof.
  cbn zeta. unfold handleAddTag.
  destruct (truthy _ && negb _); [|reflexivity].
  rewrite !run_view_setE, run_view_fork_update. simpl. by rewrite !view_update.
Qed.


End HandlerLemmas.

End NoteEditor.
