(* ===== verification/Dashboard.v ===== *)
(** * The dashboard page and the application state

    src/src/pages/Dashboard.tsx.  The page keeps the signed-in user, the
    selected note id and a loading flag (lines 14-16), owns the notes hook
    (line 19), checks the session on mount (lines 21-41), and wires the
    list and the editor (lines 43-94).  [App] is the state of the whole
    mounted page: the page's own state, the hook's, the list's and the
    editor's, each reached through a [Lens].  A user action is a [UiEvent];
    [handler] gives the program it starts, or [None] when the element it
    acts on is not on screen (the render's guards). *)
From S2P Require Import Prelude JsLib Note Remote NotesList NotesHook NoteEditor.
Import Note Remote NotesList NotesHook NoteEditor.

Module Dashboard.

Record DashState := mkDash {
  user : option User;
  selectedNoteId : option string;
  dLoading : bool
}.

Definition setUser (u : option User) (d : DashState) : DashState :=
  mkDash u (selectedNoteId d) (dLoading d).
Definition setSelectedNoteId (v : option string) (d : DashState) : DashState :=
  mkDash (user d) v (dLoading d).
Definition setDLoading (v : bool) (d : DashState) : DashState :=
  mkDash (user d) (selectedNoteId d) v.

Record App := mkApp {
  dash : DashState;
  hook : HookState;
  lst : ListState;
  editor : EditorState
}.

#[export] Instance dash_lens : Lens App DashState :=
  { view := dash; update := fun c a => mkApp c (hook a) (lst a) (editor a);
     view_update := fun _ _ => eq_refl;
     update_view := fun a => match a with mkApp _ _ _ _ => eq_refl end }.
#[export] Instance hook_lens : Lens App HookState :=
  { view := hook; update := fun c a => mkApp (dash a) c (lst a) (editor a);
     view_update := fun _ _ => eq_refl;
     update_view := fun a => match a with mkApp _ _ _ _ => eq_refl end }.
#[export] Instance list_lens : Lens App ListState :=
  { view := lst; update := fun c a => mkApp (dash a) (hook a) c (editor a);
     view_update := fun _ _ => eq_refl;
     update_view := fun a => match a with mkApp _ _ _ _ => eq_refl end }.
#[export] Instance editor_lens : Lens App EditorState :=
  { view := editor; update := fun c a => mkApp (dash a) (hook a) (lst a) c;
     view_update := fun _ _ => eq_refl;
     update_view := fun a => match a with mkApp _ _ _ _ => eq_refl end }.

Definition initial : App :=
  mkApp (mkDash None None true) NotesHook.initial NotesList.initial_state NoteEditor.initial.

Definition setD (f : DashState -> DashState) : Prog App unit := lift (set f).

(** [notes.find(note => note.id === selectedNoteId)] (line 50), with the
    reply the object comes from. *)
Definition selectedNote (a : App) : option Note :=
  match selectedNoteId (dash a) with
  | Some i => List.find (fun n => String.eqb (id n) i) (notes (hook a))
  | None => None
  end.

Definition selectedObject (a : App) : option (nat * Note) :=
  match selectedNote a with Some n => Some (notes_batch (hook a), n) | None => None end.

(** The effects React runs after a render: the editor's seeding effect. *)
Definition commit (a : App) : App :=
  mkApp (dash a) (hook a) (lst a) (sync (selectedObject a) (editor a)).

(** [updateNote] of the hook, passed as [onUpdateNote] (line 87). *)
Definition onUpdateNote (i : string) (p : NotePatch) : Prog App unit :=
  lift (NotesHook.updateNote i p).

(** The mount effects: the session check (lines 21-41) and the hook's. *)
Definition checkSession : Prog App unit :=
  u ← await GetSession;
  setD (setUser u);;
  match u with
  | None => emit (Navigate "/auth")
  | Some _ => setD (setDLoading false)
  end.

Definition mount : Prog App unit := lift NotesHook.mount;; checkSession.

(** [onAuthStateChange]'s callback (lines 22-29). *)
Definition onAuthStateChange (u : option User) : Prog App unit :=
  setD (setUser u);;
  match u with None => emit (Navigate "/auth") | Some _ => mret tt end.

(** [handleSignOut] (lines 43-46). *)
Definition handleSignOut : Prog App unit :=
  _ ← await SignOut;
  emit (Navigate "/").

(** [handleCreateNote] (lines 48-53). *)
Definition handleCreateNote : Prog App unit :=
  newNote ← lift NotesHook.createNote;
  match newNote with
  | Some n => setD (setSelectedNoteId (Some (id n)))
  | None => mret tt
  end.

(** [handleDeleteNote] (lines 55-60): [selectedNoteId] is the value of the
    render that created the handler ([d0]), read after the [await]. *)
Definition handleDeleteNote (d0 : DashState) (i : string) : Prog App unit :=
  lift (NotesHook.deleteNote i);;
  if bool_decide (selectedNoteId d0 = Some i) then setD (setSelectedNoteId None) else mret tt.

Inductive UiEvent :=
| ClickCreate                      (** the floating action button *)
| ClickNote (i : string)           (** a card of the list *)
| ClickDelete (i : string)         (** the trash button of a card *)
| SearchInput (v : string)
| ClickTag (t : option string)     (** "All" or a tag badge *)
| TitleInput (v : string)
| TitleBlur
| ContentInput (v : string)
| ContentBlur
| ClickSave
| ClickFavorite
| NewTagInput (v : string)
| AddTag                           (** Enter in the tag box, or its + button *)
| RemoveTag (t : string)
| ClickSummarize
| ClickSignOut.

Definition shown_ids (a : App) : list string :=
  map id (filteredNotes (lst a) (notes (hook a))).

(** The program a user action starts on the current render, when the
    element it acts on is rendered and enabled. *)
Definition handler (a : App) (e : UiEvent) : option (Prog App unit) :=
  if dLoading (dash a) then None else
  let note := selectedNote a in
  let s := editor a in
  let listed (i : string) := bool_decide (i ∈ shown_ids a) && negb (isLoading (hook a)) in
  let editing := match note with Some _ => true | None => false end in
  match e with
  | ClickCreate => Some handleCreateNote
  | ClickNote i => if listed i then Some (setD (setSelectedNoteId (Some i))) else None
  | ClickDelete i => if listed i then Some (handleDeleteNote (dash a) i) else None
  | SearchInput v => Some (lift (set (setSearchQuery v)))
  | ClickTag t =>
      match t with
      | None => if bool_decide (allTags (notes (hook a)) = []) then None
                else Some (lift (set (setSelectedTag None)))
      | Some tg => if bool_decide (tg ∈ allTags (notes (hook a)))
                   then Some (lift (set (setSelectedTag (Some tg)))) else None
      end
  | TitleInput v => if editing then Some (setE (setTitle v)) else None
  | ContentInput v => if editing then Some (setE (setContent v)) else None
  | TitleBlur | ContentBlur | ClickSave =>
      if editing then Some (handleSave onUpdateNote note s) else None
  | ClickFavorite => if editing then Some (handleToggleFavorite onUpdateNote note s) else None
  | NewTagInput v => if editing then Some (setE (setNewTag v)) else None
  | AddTag => if editing then Some (handleAddTag onUpdateNote note s) else None
  | RemoveTag t =>
      if editing && bool_decide (t ∈ tags_d s) then Some (handleRemoveTag onUpdateNote note s t)
      else None
  | ClickSummarize =>
      if editing && summarize_enabled s then Some (handleSummarize s) else None
  | ClickSignOut => Some handleSignOut
  end.

(** ** The editor inside the page *)

Lemma onUpdateNote_sync (i : string) (p : NotePatch) (st : Run App) :
  editor (r_state (run (onUpdateNote i p) st)) = editor (r_state st).
Proof. reflexivity. Qed.

(** C5. Adding a tag is idempotent: when the trimmed input is empty or
    already among the draft's tags, [handleAddTag] does nothing at all (no
    state change, no request). *)
Theorem add_tag_idempotent (note : option Note) (s0 : EditorState) :
  truthy (Js.trim (newTag s0)) = false \/ Js.trim (newTag s0) ∈ tags_d s0 ->
  handleAddTag onUpdateNote note s0 = mret tt.
Proof. apply handleAddTag_noop. Qed.

(** C6. Adding a tag never creates a duplicate: if the draft's tags have
    no repetition, they have none after [handleAddTag], and the tag added
    is the trimmed, non-empty input. *)
Theorem add_tag_nodup (note : option Note) (st : Run App) :
  let s0 := editor (r_state st) in
  NoDup (tags_d s0) ->
  NoDup (tags_d (editor (r_state (run (handleAddTag onUpdateNote note s0) st)))) /\
  Forall (fun t => t ∈ tags_d s0 \/ (t = Js.trim (newTag s0) /\ truthy t = true))
    (tags_d (editor (r_state (run (handleAddTag onUpdateNote note s0) st)))).
Proof.
  cbn zeta. intros Hnd.
  pose proof (@handleAddTag_tags App editor_lens onUpdateNote onUpdateNote_sync note st) as Htags.
  cbn [view editor_lens] in Htags. rewrite Htags.
  destruct (truthy _) eqn:Ht; simpl; [|split; [done | apply Forall_forall; by left]].
  destruct (Js.array_includes _ _) eqn:Hi; simpl; [split; [done | apply Forall_forall; by left]|].
  split.
  - apply NoDup_app. split; [done|]. split; [|apply NoDup_singleton].
    intros x Hx ->%list_elem_of_singleton. apply Js.array_includes_spec in Hx. congruence.
  - apply Forall_app. split; [apply Forall_forall; by left | constructor; [by right | done]].
Qed.

(** C20. Asking for a summary of blank content sends nothing: the handler
    only shows the "No content" toast. *)
Theorem summarize_blank_no_request (s0 : EditorState) (st : Run App) :
  Js.all_space (content_d s0) = true ->
  run (handleSummarize s0) st =
  mkRun (r_state st) (r_outs st ++ [Toast "No content" "Please add some content to summarize" true])
    (r_pending st).
Proof.
  intros H. unfold handleSummarize. rewrite Js.truthy_trim, H. reflexivity.
Qed.

(** C21. Whenever the selected note comes as a new object (a new reply),
    the commit re-seeds the draft from it and clears the summary, whether
    or not the selection changed; with the same object it changes nothing
    (the effect is idempotent). *)
Theorem commit_reseeds (a : App) (b : nat) (n : Note) :
  selectedObject a = Some (b, n) ->
  seen (editor a) <> Some (b, id n) ->
  title_d (editor (commit a)) = title n /\ content_d (editor (commit a)) = content n /\
  tags_d (editor (commit a)) = tags n /\ isFavorite (editor (commit a)) = is_favorite n /\
  summary (editor (commit a)) = EmptyString /\ commit (commit a) = commit a.
Proof.
  intros Ho Hs. unfold commit, sync. simpl. rewrite Ho. simpl.
  case_bool_decide as Hd; [congruence|]. simpl.
  repeat split. unfold selectedObject, selectedNote in *. simpl.
  destruct (selectedNoteId (dash a)); [|done].
  destruct (List.find _ _); [|done]. injection Ho as <- <-. simpl.
  by rewrite bool_decide_eq_true_2.
Qed.

(** C10. Adding a tag and then removing it is a round trip: the draft's
    tags are back to what they were, the tag input is cleared, and the two
    updates sent for the open note, in this order, carry the tags with the
    new one and then the original tags, so the backend ends where it
    started. *)
Theorem add_then_remove_tag (note : option Note) (st : Run App) :
  let s0 := editor (r_state st) in
  let t := Js.trim (newTag s0) in
  truthy t = true -> t ∉ tags_d s0 ->
  let st1 := run (handleAddTag onUpdateNote note s0) st in
  let st2 := run (handleRemoveTag onUpdateNote note (editor (r_state st1)) t) st1 in
  tags_d (editor (r_state st2)) = tags_d s0 /\ newTag (editor (r_state st2)) = EmptyString /\
  requests st2 = requests st ++
    match note with
    | Some n => [UpdateNote (id n) (tags_patch (tags_d s0 ++ [t])); UpdateNote (id n) (tags_patch (tags_d s0))]
    | None => []
    end.
Proof.
  cbn zeta. intros Ht Hn.
  assert (Hf : List.filter (fun x => negb (String.eqb x (Js.trim (newTag (editor (r_state st))))))
                 (tags_d (editor (r_state st)) ++ [Js.trim (newTag (editor (r_state st)))]) =
               tags_d (editor (r_state st))).
  { rewrite List.filter_app. simpl. rewrite String.eqb_refl, app_nil_r. apply filter_bool_true.
    intros x Hx. apply negb_true_iff, String.eqb_neq. intros ->. by apply Hn, list_elem_of_In. }
  assert (Hi : Js.array_includes (tags_d (editor (r_state st))) (Js.trim (newTag (editor (r_state st)))) = false).
  { destruct (Js.array_includes _ _) eqn:E; [|done]. by apply Js.array_includes_spec in E. }
  unfold handleAddTag, handleRemoveTag. rewrite Ht, Hi. simpl.
  destruct note as [n|]; simpl; rewrite Hf; unfold requests; simpl.
  - by rewrite !map_app, <- app_assoc.
  - by rewrite app_nil_r.
Qed.

(** C11. Creating a note, on every branch of its two replies: the click
    asks the auth service for the user; without one the page shows
    "Not authenticated" and changes nothing; with one it inserts an
    "Untitled Note" with empty content and no tags for that user; a
    failed insert shows its error and selects nothing, a successful one
    shows "Note created" and selects the new note's id. *)
Theorem create_note_replies (st : Run App) :
  exists k, run handleCreateNote st = mkRun (r_state st) (r_outs st) (r_pending st ++ [mkPending GetUser k]) /\
  (forall st', run (k None) st' =
     mkRun (r_state st') (r_outs st' ++ [Toast "Error creating note" "Not authenticated" true]) (r_pending st')) /\
  forall u st', exists k2,
    run (k (Some u)) st' =
      mkRun (r_state st') (r_outs st') (r_pending st' ++ [mkPending (InsertNote (uid u) "Untitled Note" "" []) k2]) /\
    (forall e st'', run (k2 (Err e)) st'' =
       mkRun (r_state st'') (r_outs st'' ++ [Toast "Error creating note" e true]) (r_pending st'')) /\
    (forall n st'', run (k2 (Ok n)) st'' =
       mkRun (update (setSelectedNoteId (Some (id n)) (dash (r_state st''))) (r_state st''))
         (r_outs st'' ++ [Toast "Note created" "Your new note is ready" false]) (r_pending st'')).
Proof.
  eexists. split; [reflexivity|]. split; [reflexivity|].
  intros u st'. eexists. split; [reflexivity|]. split; intros; reflexivity.
Qed.

(** ** Witnesses *)

Definition draft (tg : list string) (nt content : string) : EditorState :=
  mkEditor "Physics" content tg nt false false EmptyString None.

Lemma add_tag_idempotent_witness :
  (truthy (Js.trim (newTag (draft ["exam"] " exam " "forces"))) = false \/
   Js.trim (newTag (draft ["exam"] " exam " "forces")) ∈ tags_d (draft ["exam"] " exam " "forces")) /\
  handleAddTag onUpdateNote None (draft ["exam"] " exam " "forces") = mret tt.
Proof.
  assert (truthy (Js.trim (newTag (draft ["exam"] " exam " "forces"))) = false \/
          Js.trim (newTag (draft ["exam"] " exam " "forces")) ∈ tags_d (draft ["exam"] " exam " "forces"))
    as H by (right; vm_compute; apply list_elem_of_here).
  split; [exact H | exact (add_tag_idempotent None _ H)].
Defined.

Definition page_with (e : EditorState) : App :=
  mkApp (mkDash None None false) NotesHook.initial NotesList.initial_state e.

Lemma add_tag_nodup_witness :
  NoDup (tags_d (editor (r_state (run (handleAddTag onUpdateNote None (draft ["exam"] "lab" ""))
                                     (mkRun (page_with (draft ["exam"] "lab" "")) [] []))))).
Proof.
  refine (proj1 (add_tag_nodup None (mkRun (page_with (draft ["exam"] "lab" "")) [] []) _)).
  vm_compute. apply NoDup_singleton.
Defined.

Definition sample_note : Note :=
  mkNote "n1" "alice" "Physics" "forces" ["exam"] true false None 0%Z 1%Z 1%Z.

Definition tag_page : Run App := mkRun (page_with (draft ["exam"] " lab " EmptyString)) [] [].

Lemma add_then_remove_tag_witness :
  let st1 := run (handleAddTag onUpdateNote (Some sample_note) (editor (r_state tag_page))) tag_page in
  tags_d (editor (r_state (run (handleRemoveTag onUpdateNote (Some sample_note) (editor (r_state st1)) "lab") st1)))
  = ["exam"].
Proof.
  refine (proj1 (add_then_remove_tag (Some sample_note) tag_page _ _)).
  - vm_compute. reflexivity.
  - intros H%Js.array_includes_spec. vm_compute in H. discriminate.
Defined.

Lemma summarize_blank_no_request_witness :
  run (handleSummarize (draft [] "" " ")) (mkRun (page_with (draft [] "" " ")) [] []) =
  mkRun (page_with (draft [] "" " "))
    [Toast "No content" "Please add some content to summarize" true] [].
Proof. exact (summarize_blank_no_request (draft [] "" " ") _ eq_refl). Defined.

Definition page_selected : App :=
  mkApp (mkDash None (Some "n1") false) (mkHook [sample_note] 1 false) NotesList.initial_state
    NoteEditor.initial.

Lemma commit_reseeds_witness :
  summary (editor (commit page_selected)) = EmptyString /\
  title_d (editor (commit page_selected)) = "Physics".
Proof.
  destruct (commit_reseeds page_selected 1 sample_note eq_refl ltac:(discriminate))
    as (Ht & _ & _ & _ & Hs & _).
  split; [exact Hs | exact Ht].
Defined.

End Dashboard.
