(* ===== verification/System.v ===== *)
(** * The running application: a step relation

    The dashboard page in a browser tab, the backend, and the network
    between them.  A state [Sys] holds the backend's tables, the page's
    state, the handler continuations waiting for a reply ([threads]), the
    change notifications published but not yet delivered, the outputs shown
    so far, and a counter numbering the replies whose rows the client
    parses.  A step is one of: a user action on the current render, an auth
    event, the backend serving a request (or the call failing, or the
    summarisation function answering anything), the delivery of a reply to
    its continuation (in any order: nothing in the code orders replies), the
    delivery of a change notification (which starts [fetchNotes]), and a
    write by another device.  After every step React commits and runs the
    editor's seeding effect ([commit]). *)
From S2P Require Import Prelude JsLib Note Remote Backend NotesList NotesHook NoteEditor Dashboard.
Import Note Remote Backend NotesList NotesHook NoteEditor Dashboard.

Module System.

Record Thread := mkThread {
  t_req : Req;
  t_reply : option (Resp t_req);
  t_k : Resp t_req -> Prog App unit
}.

Record Sys := mkSys {
  db : DB;
  app : App;
  threads : list Thread;
  notifs : nat;
  outs : list Out;
  batches : nat
}.

Definition spawn (ps : list (Pending App)) : list Thread :=
  map (fun p => mkThread (p_req p) None (p_k p)) ps.

(** Run a program on the page, then commit. *)
Definition exec (p : Prog App unit) (s : Sys) : Sys :=
  let r := run p (mkRun (app s) (outs s) []) in
  mkSys (db s) (commit (r_state r)) (threads s ++ spawn (r_pending r)) (notifs s)
    (r_outs r) (batches s).

Definition boot (db0 : DB) : Sys := exec mount (mkSys db0 Dashboard.initial [] 0 [] 1).

Definition with_threads (s : Sys) (ts : list Thread) : Sys :=
  mkSys (db s) (app s) ts (notifs s) (outs s) (batches s).

Definition answer (t : Thread) (v : Resp (t_req t)) : Thread :=
  mkThread (t_req t) (Some v) (t_k t).

Section Step.
Variable pol : Policy.

Inductive step : Sys -> Sys -> Prop :=
| st_ui s e p :
    handler (app s) e = Some p -> step s (exec p s)
| st_auth s :
    step s (exec (onAuthStateChange (session (db s))) s)
| st_serve s i t v db' :
    threads s !! i = Some t -> t_reply t = None ->
    serve pol (batches s) (db s) (t_req t) = Some (v, db') ->
    step s (mkSys db' (app s) (<[i := answer t v]> (threads s))
              (notifs s + if notes_changed (db s) db' then 1 else 0) (outs s) (S (batches s)))
| st_function s i text k v :
    threads s !! i = Some (mkThread (Summarize text) None k) ->
    step s (with_threads s (<[i := mkThread (Summarize text) (Some v) k]> (threads s)))
| st_fail s i t msg :
    threads s !! i = Some t -> t_reply t = None ->
    step s (with_threads s (<[i := answer t (fail_reply msg (t_req t))]> (threads s)))
| st_deliver s i t v :
    threads s !! i = Some t -> t_reply t = Some v ->
    step s (exec (t_k t v) (with_threads s (delete i (threads s))))
| st_notify s :
    0 < notifs s ->
    step s (exec (lift fetchNotes)
              (mkSys (db s) (app s) (threads s) (notifs s - 1) (outs s) (batches s)))
| st_external s rs :
    rs <> rows (db s) ->
    step s (mkSys (mkDB rs (profiles (db s)) (session (db s)) (clock (db s) + 1)%Z
                     (next_id (db s)))
              (app s) (threads s) (S (notifs s)) (outs s) (batches s)).

Inductive reachable (db0 : DB) : Sys -> Prop :=
| reach_boot : reachable db0 (boot db0)
| reach_step s s' : reachable db0 s -> step s s' -> reachable db0 s'.
End Step.

(** ** Executable steps

    One step chosen by an action, computed; [exec_action] is sound for
    [step], so a trace that computes is a run of the application. *)
Inductive Action :=
| AUi (e : UiEvent)
| AAuth
| AServe (i : nat)
| AFunction (i : nat) (v : result (option string) ErrMsg)
| AFail (i : nat) (msg : ErrMsg)
| ADeliver (i : nat)
| ANotify
| AExternal (rs : list Note).

Definition function_reply (t : Thread) (v : result (option string) ErrMsg) : option Thread :=
  match t with
  | mkThread r rep k =>
      match r as r0 return option (Resp r0) -> (Resp r0 -> Prog App unit) -> option Thread with
      | Summarize text => fun rep k =>
          match rep with None => Some (mkThread (Summarize text) (Some v) k) | Some _ => None end
      | _ => fun _ _ => None
      end rep k
  end.

Definition exec_action (pol : Policy) (a : Action) (s : Sys) : option Sys :=
  match a with
  | AUi e => match handler (app s) e with Some p => Some (exec p s) | None => None end
  | AAuth => Some (exec (onAuthStateChange (session (db s))) s)
  | AServe i =>
      match threads s !! i with
      | Some t =>
          match t_reply t with
          | None =>
              match serve pol (batches s) (db s) (t_req t) with
              | Some (v, db') =>
                  Some (mkSys db' (app s) (<[i := answer t v]> (threads s))
                          (notifs s + if notes_changed (db s) db' then 1 else 0) (outs s)
                          (S (batches s)))
              | None => None
              end
          | Some _ => None
          end
      | None => None
      end
  | AFunction i v =>
      match threads s !! i with
      | Some t =>
          match function_reply t v with
          | Some t' => Some (with_threads s (<[i := t']> (threads s)))
          | None => None
          end
      | None => None
      end
  | AFail i msg =>
      match threads s !! i with
      | Some t =>
          match t_reply t with
          | None => Some (with_threads s (<[i := answer t (fail_reply msg (t_req t))]> (threads s)))
          | Some _ => None
          end
      | None => None
      end
  | ADeliver i =>
      match threads s !! i with
      | Some t =>
          match t_reply t with
          | Some v => Some (exec (t_k t v) (with_threads s (delete i (threads s))))
          | None => None
          end
      | None => None
      end
  | ANotify =>
      if bool_decide (0 < notifs s) then
        Some (exec (lift fetchNotes)
                (mkSys (db s) (app s) (threads s) (notifs s - 1) (outs s) (batches s)))
      else None
  | AExternal rs =>
      if bool_decide (rs = rows (db s)) then None
      else Some (mkSys (mkDB rs (profiles (db s)) (session (db s)) (clock (db s) + 1)%Z
                          (next_id (db s)))
                   (app s) (threads s) (S (notifs s)) (outs s) (batches s))
  end.

Fixpoint exec_trace (pol : Policy) (acts : list Action) (s : Sys) : option Sys :=
  match acts with
  | [] => Some s
  | a :: acts' =>
      match exec_action pol a s with
      | Some s' => exec_trace pol acts' s'
      | None => None
      end
  end.

Lemma function_reply_step (pol : Policy) (s : Sys) (i : nat) (t t' : Thread) v :
  threads s !! i = Some t -> function_reply t v = Some t' ->
  step pol s (with_threads s (<[i := t']> (threads s))).
Proof.
  destruct t as [r rep k]. intros Ht Hf.
  destruct r; try discriminate. destruct rep; [discriminate|].
  injection Hf as <-. by eapply st_function.
Qed.

Lemma exec_action_step (pol : Policy) (a : Action) (s s' : Sys) :
  exec_action pol a s = Some s' -> step pol s s'.
Proof.
  destruct a; simpl; intros H.
  - destruct (handler _ _) eqn:E; [|done]. injection H as <-. by eapply st_ui.
  - injection H as <-. apply st_auth.
  - destruct (threads s !! i) as [t|] eqn:Ht; [|done].
    destruct (t_reply t) eqn:Hr; [done|].
    destruct (serve _ _ _ _) as [[v db']|] eqn:Hs; [|done].
    injection H as <-. by eapply st_serve.
  - destruct (threads s !! i) as [t|] eqn:Ht; [|done].
    destruct (function_reply t v) eqn:Hf; [|done].
    injection H as <-. by eapply function_reply_step.
  - destruct (threads s !! i) as [t|] eqn:Ht; [|done].
    destruct (t_reply t) eqn:Hr; [done|]. injection H as <-. by eapply st_fail.
  - destruct (threads s !! i) as [t|] eqn:Ht; [|done].
    destruct (t_reply t) eqn:Hr; [|done]. injection H as <-. by eapply st_deliver.
  - case_bool_decide; [|done]. injection H as <-. by apply st_notify.
  - case_bool_decide; [done|]. injection H as <-. by apply st_external.
Qed.

Lemma exec_trace_reachable (pol : Policy) (db0 : DB) (acts : list Action) (s s' : Sys) :
  reachable pol db0 s -> exec_trace pol acts s = Some s' -> reachable pol db0 s'.
Proof.
  revert s; induction acts as [|a acts IH]; intros s Hs; simpl.
  - by intros [= <-].
  - destruct (exec_action pol a s) as [s1|] eqn:E; [|done].
    intros Ht. apply (IH s1); [|done]. econstructor; [done|]. by eapply exec_action_step.
Qed.

(** ** Running a confined program on the tab

    A program that keeps a measure [m] of the page (and [commit] keeps [m]
    too) leaves [m], the backend and the notifications alone, and only
    appends threads waiting on requests it accepts. *)
Lemma exec_confined {X} (ok : Req -> bool) (m : App -> X) (p : Prog App unit) (s : Sys) :
  Confined ok m p -> (forall a, m (commit a) = m a) ->
  m (app (exec p s)) = m (app s) /\ db (exec p s) = db s /\ notifs (exec p s) = notifs s /\
  exists ps, threads (exec p s) = threads s ++ spawn ps /\ Forall (confined_pending ok m) ps.
Proof.
  intros Hp Hc. destruct (run_confined _ _ p (mkRun (app s) (outs s) []) Hp) as [Hm [ps [Hps Hq]]].
  unfold exec. cbn [app db notifs threads]. rewrite Hc, Hm. simpl in Hps |- *. rewrite Hps.
  split; [done|]. split; [done|]. split; [done|]. by exists ps.
Qed.

End System.
