(* ===== verification/Fixtures.v ===== *)
(** * A concrete backend for witnesses and runs

    One signed-in user, a row-level policy that lets a user read and write
    exactly the rows they own (and one that also lets everyone read public
    rows), and a table with two notes. *)
From S2P Require Import Prelude JsLib Note Remote Backend System.
From Stdlib Require Import ZArith.
Import Note Remote Backend System.

Module Fixtures.

Definition alice : User := mkUser "alice" (Some "alice@example.org").

Definition owns (u : option User) (n : Note) : bool :=
  match u with Some u => String.eqb (uid u) (user_id n) | None => false end.

Definition owner_policy : Policy := mkPolicy owns owns.

Definition row (i t c : string) (ts : Z) : Note :=
  mkNote i "alice" t c [] false false None 0%Z ts ts.

Definition db0 : DB :=
  mkDB [row "n1" "Physics" "forces" 1%Z; row "n2" "Chemistry" "atoms" 2%Z] [] (Some alice) 10%Z 0%N.

(** The first fetch and the session check answered and handled. *)
Definition loaded : list Action := [AServe 0; AServe 1; ADeliver 1; ADeliver 0].

Definition ids (ns : list Note) : list string := map id ns.

(** The state a trace from the boot of a table reaches (the boot itself if
    the trace does not run). *)
Definition after_in (d : DB) (acts : list Action) : Sys :=
  match exec_trace owner_policy acts (boot d) with Some s => s | None => boot d end.

Definition after (acts : list Action) : Sys := after_in db0 acts.

Lemma after_in_reachable (d : DB) (acts : list Action) :
  exec_trace owner_policy acts (boot d) = Some (after_in d acts) ->
  reachable owner_policy d (after_in d acts).
Proof. intros H. eapply exec_trace_reachable; [constructor | exact H]. Qed.

Lemma after_reachable (acts : list Action) :
  exec_trace owner_policy acts (boot db0) = Some (after acts) ->
  reachable owner_policy db0 (after acts).
Proof. apply after_in_reachable. Qed.

(** A policy under which the community's public notes are readable by
    everyone, and a user writes only their own rows. *)
Definition community_policy : Policy := mkPolicy (fun u n => owns u n || is_public n) owns.

(** The state a trace reaches under a given policy. *)
Definition after_pol (pol : Policy) (d : DB) (acts : list Action) : Sys :=
  match exec_trace pol acts (boot d) with Some s => s | None => boot d end.

Lemma after_pol_reachable (pol : Policy) (d : DB) (acts : list Action) :
  exec_trace pol acts (boot d) = Some (after_pol pol d acts) ->
  reachable pol d (after_pol pol d acts).
Proof. intros H. eapply exec_trace_reachable; [constructor | exact H]. Qed.

Ltac reach :=
  first [apply after_reachable | apply after_in_reachable | apply after_pol_reachable];
  vm_compute; reflexivity.

End Fixtures.
