(* ===== verification/Invariants.v ===== *)
(** * Invariants of the running application

    What every reachable state satisfies, proved by induction on the
    step relation.  Every handler continuation waiting for a reply is of
    one of three kinds: the rest of [fetchNotes], the rest of
    [handleSummarize], or a program that neither awaits one of those two
    requests nor touches the editor's [isSummarizing] flag.  With that, the
    flag counts the summarisation requests in flight: the disabled
    "Summarize" button really keeps a second request from being sent. *)
From S2P Require Import Prelude JsLib Note Remote Backend NotesList NotesHook NoteEditor Dashboard System Fixtures.
Import Note Remote Backend NotesList NotesHook NoteEditor Dashboard System Fixtures.

Module Invariants.

Definition quiet_req (r : Req) : bool :=
  match r with Summarize _ | SelectNotes => false | _ => true end.

Definition is_summarize (r : Req) : bool :=
  match r with Summarize _ => true | _ => false end.

Definition summarizing (a : App) : bool := isSummarizing (editor a).

(** A quiet program keeps the flag and awaits neither a summary nor the
    list. *)
Abbreviation Quiet := (Confined quiet_req summarizing).
Abbreviation quiet_pending := (confined_pending quiet_req summarizing).

Definition thread_ok (t : Thread) : Prop :=
  match t with
  | mkThread r _ k =>
      match r as r0 return (Resp r0 -> Prog App unit) -> Prop with
      | SelectNotes => fun k => forall v, k v = lift (fetched v)
      | Summarize c => fun k => forall v, k v = summarized v
      | _ => fun k => forall v, Quiet (k v)
      end k
  end.

Definition n_summarize (ts : list Thread) : nat :=
  List.length (List.filter (fun t => is_summarize (t_req t)) ts).

Record Inv (s : Sys) : Prop := {
  inv_threads : Forall thread_ok (threads s);
  inv_count : n_summarize (threads s) = if isSummarizing (editor (app s)) then 1 else 0
}.

(** ** Running programs *)

(** [solve_page] proves [Confined] for the page's programs: it follows
    their syntax, unfolds the editor's callback and splits on the
    truthiness tests the handlers make. *)
Ltac solve_page :=
  repeat match goal with
  | |- Confined _ _ (onUpdateNote _ _) => unfold onUpdateNote, NotesHook.updateNote
  | |- context [if truthy ?x then _ else _] => destruct (truthy x)
  | |- _ => progress solve_confined
  end.

Ltac solve_quiet := solve_page.

Lemma fetched_quiet (v : result Fetched ErrMsg) : Quiet (lift (fetched v)).
Proof. unfold fetched. solve_quiet. Qed.

Lemma commit_flag (a : App) :
  isSummarizing (editor (commit a)) = isSummarizing (editor a).
Proof.
  unfold commit, sync. simpl. case_bool_decide; [done|].
  by destruct (selectedObject a) as [[b n]|].
Qed.

Lemma n_summarize_app (ts1 ts2 : list Thread) :
  n_summarize (ts1 ++ ts2) = n_summarize ts1 + n_summarize ts2.
Proof. unfold n_summarize. by rewrite List.filter_app, length_app. Qed.

Lemma quiet_not_summarize (r : Req) : quiet_req r = true -> is_summarize r = false.
Proof. by destruct r. Qed.

Lemma spawn_quiet (ps : list (Pending App)) :
  Forall quiet_pending ps -> Forall thread_ok (spawn ps) /\ n_summarize (spawn ps) = 0.
Proof.
  induction 1 as [|[r k] ps [Hr Hk] _ [IH1 IH2]]; [done|]. simpl in *. split.
  - constructor; [|done]. by destruct r.
  - unfold n_summarize in *. simpl. by rewrite quiet_not_summarize.
Qed.

Lemma exec_quiet (p : Prog App unit) (s : Sys) :
  Quiet p -> Inv s -> Inv (exec p s).
Proof.
  intros Hp [Ht Hc]. destruct (run_confined _ _ p (mkRun (app s) (outs s) []) Hp) as [Hf [ps [Hps Hq]]].
  unfold summarizing in Hf. simpl in Hps. destruct (spawn_quiet ps Hq) as [Hsp Hn].
  unfold exec. split; cbn [threads app].
  - rewrite Hps. by apply Forall_app.
  - rewrite Hps, n_summarize_app, Hn, commit_flag, Hf. simpl. lia.
Qed.

(** ** Every user action starts a quiet program, or the summarisation *)

Lemma handler_shape (a : App) (e : UiEvent) (p : Prog App unit) :
  handler a e = Some p ->
  Quiet p \/ (p = handleSummarize (editor a) /\ isSummarizing (editor a) = false).
Proof.
  unfold handler. destruct (dLoading (dash a)); [done|].
  destruct e; repeat (case_match || case_bool_decide); intros Hsome; try discriminate;
    injection Hsome as <-;
    try (right; split; [done|]; unfold summarize_enabled in *; bool_cases; by destruct (isSummarizing _));
    left; unfold handleCreateNote, handleDeleteNote, handleSave, handleToggleFavorite, handleAddTag,
      handleRemoveTag, handleSignOut, setD, setE;
    repeat (case_match || case_bool_decide); solve_quiet.
Qed.

(** ** The rest of [handleSummarize] *)

Lemma run_summarized (v : result (option string) ErrMsg) (st : Run App) :
  isSummarizing (editor (r_state (run (summarized v) st))) = false /\
  r_pending (run (summarized v) st) = r_pending st.
Proof.
  unfold summarized. destruct v as [[sm|]|e]; [destruct (truthy sm)| |]; split; reflexivity.
Qed.

Lemma n_summarize_delete (ts : list Thread) (i : nat) (t : Thread) :
  ts !! i = Some t ->
  n_summarize ts = n_summarize (delete i ts) + (if is_summarize (t_req t) then 1 else 0).
Proof.
  unfold n_summarize. revert i; induction ts as [|t' ts IH]; intros [|i] Hi; try done.
  - injection Hi as ->. simpl. destruct (is_summarize (t_req t)); simpl; lia.
  - simpl in *. specialize (IH i Hi). destruct (is_summarize (t_req t')); simpl; lia.
Qed.

Lemma n_summarize_insert (ts : list Thread) (i : nat) (t t' : Thread) :
  ts !! i = Some t -> t_req t' = t_req t ->
  n_summarize (<[i := t']> ts) = n_summarize ts.
Proof.
  unfold n_summarize. revert i; induction ts as [|t0 ts IH]; intros [|i] Hi Hr; try done.
  - injection Hi as ->. simpl. rewrite Hr. by destruct (is_summarize (t_req t)).
  - simpl in *. specialize (IH i Hi Hr). destruct (is_summarize (t_req t0)); simpl; lia.
Qed.

Lemma thread_ok_reply (r : Req) (rep rep' : option (Resp r)) (k : Resp r -> Prog App unit) :
  thread_ok (mkThread r rep k) -> thread_ok (mkThread r rep' k).
Proof. done. Qed.

(** Answering a thread keeps the invariant. *)
Lemma Inv_answer (s : Sys) (i : nat) (t t' : Thread) :
  Inv s -> threads s !! i = Some t -> t_req t' = t_req t ->
  (thread_ok t -> thread_ok t') ->
  Inv (with_threads s (<[i := t']> (threads s))).
Proof.
  intros [Ht Hc] Hi Hr Hok. split; simpl.
  - apply Forall_insert; [done|]. apply Hok. by eapply Forall_lookup_1.
  - by rewrite (n_summarize_insert _ _ t).
Qed.

Lemma thread_ok_lookup (s : Sys) (i : nat) (t : Thread) :
  Inv s -> threads s !! i = Some t -> thread_ok t.
Proof. intros [Ht _] Hi. by eapply Forall_lookup_1. Qed.

Lemma Inv_same (s s' : Sys) :
  threads s' = threads s -> app s' = app s -> Inv s -> Inv s'.
Proof. intros Ht Ha [H1 H2]. split; by rewrite Ht, ?Ha. Qed.

Lemma Inv_delete (s : Sys) (i : nat) (t : Thread) :
  Inv s -> threads s !! i = Some t -> is_summarize (t_req t) = false ->
  Inv (with_threads s (delete i (threads s))).
Proof.
  intros [Ht Hc] Hi Hs. split; simpl.
  - by apply Forall_delete.
  - rewrite <- Hc, (n_summarize_delete _ _ _ Hi), Hs. lia.
Qed.

Lemma Inv_boot (db0 : DB) : Inv (boot db0).
Proof.
  split; [|reflexivity]. simpl.
  apply List.Forall_cons; [intros v; reflexivity|].
  apply List.Forall_cons; [|apply List.Forall_nil].
  intros v. cbn. unfold setD. solve_quiet.
Qed.

Lemma Inv_summarize (s : Sys) :
  Inv s -> isSummarizing (editor (app s)) = false ->
  Inv (exec (handleSummarize (editor (app s))) s).
Proof.
  intros HI Hf. unfold handleSummarize.
  destruct (negb (truthy (Js.trim (content_d (editor (app s)))))).
  - apply exec_quiet; [solve_quiet | done].
  - destruct HI as [Ht Hc]. rewrite Hf in Hc. split; cbn [exec threads app].
    + apply Forall_app. split; [done|].
      apply List.Forall_cons; [intros v; reflexivity | apply List.Forall_nil].
    + rewrite commit_flag, n_summarize_app, Hc. reflexivity.
Qed.

Lemma Inv_notify (s : Sys) :
  Inv s -> Inv (exec (lift fetchNotes) (mkSys (db s) (app s) (threads s) (notifs s - 1) (outs s) (batches s))).
Proof.
  intros [Ht Hc]. split; cbn [exec threads app].
  - apply Forall_app. split; [done|].
    apply List.Forall_cons; [intros v; reflexivity | apply List.Forall_nil].
  - rewrite commit_flag, n_summarize_app, Hc. simpl. unfold n_summarize. simpl. lia.
Qed.

Lemma Inv_deliver (s : Sys) (i : nat) (t : Thread) (v : Resp (t_req t)) :
  Inv s -> threads s !! i = Some t ->
  Inv (exec (t_k t v) (with_threads s (delete i (threads s)))).
Proof.
  intros HI Hi. pose proof (thread_ok_lookup s i t HI Hi) as Hok.
  destruct t as [r rep k]. simpl in v |- *.
  destruct r; simpl in Hok;
    try (apply exec_quiet; [apply Hok | by eapply Inv_delete]).
  - rewrite Hok. apply exec_quiet; [apply fetched_quiet | by eapply Inv_delete].
  - rewrite Hok. destruct HI as [Ht Hc].
    pose proof (n_summarize_delete _ _ _ Hi) as Hn. simpl in Hn.
    destruct (run_summarized v (mkRun (app s) (outs s) [])) as [Hf Hp].
    split; cbn [exec threads app outs with_threads].
    + rewrite Hp. simpl. rewrite app_nil_r. by apply Forall_delete.
    + rewrite Hp, commit_flag, Hf. simpl. rewrite app_nil_r.
      destruct (isSummarizing (editor (app s))); lia.
Qed.

(** The invariant holds in every reachable state. *)
Theorem step_Inv (pol : Policy) (s s' : Sys) : Inv s -> step pol s s' -> Inv s'.
Proof.
  intros HI Hst. destruct Hst as [s e p Hh|s|s i t v db' Hi Hr Hs|s i text k v Hi|s i t msg Hi Hr
                                 |s i t v Hi Hr|s Hn|s rs Hrs].
  - destruct (handler_shape _ _ _ Hh) as [Hq|[-> Hf]]; [by apply exec_quiet | by apply Inv_summarize].
  - apply exec_quiet; [|done]. unfold onAuthStateChange, setD. solve_quiet.
  - assert (Inv (with_threads s (<[i := answer t v]> (threads s)))) as H'.
    { apply (Inv_answer s i t); [done..|]. destruct t. apply thread_ok_reply. }
    eapply Inv_same; [| |exact H']; reflexivity.
  - apply (Inv_answer s i (mkThread (Summarize text) None k)); [done..|]. apply thread_ok_reply.
  - apply (Inv_answer s i t); [done..|]. destruct t. apply thread_ok_reply.
  - by apply Inv_deliver.
  - by apply Inv_notify.
  - by apply (Inv_same s).
Qed.

Theorem reachable_Inv (pol : Policy) (db0 : DB) (s : Sys) : reachable pol db0 s -> Inv s.
Proof. induction 1; [apply Inv_boot | by eapply step_Inv]. Qed.

(** ** Consequences *)

(** The page's list agrees with the backend: it holds the rows the policy
    lets the user read, most recently updated first, and is not loading. *)
Definition list_in_sync (pol : Policy) (s : Sys) : Prop :=
  notes (hook (app s)) = select_notes pol (db s) /\ isLoading (hook (app s)) = false.

(** C4. In every reachable state the number of summarisation requests in
    flight (sent and not yet answered, or answered and not yet handled) is
    one while the editor shows "Summarizing..." and zero otherwise: the
    button's [disabled] guard keeps a second request from being sent. *)
Theorem summarize_in_flight (pol : Policy) (db0 : DB) (s : Sys) :
  reachable pol db0 s ->
  n_summarize (threads s) = if isSummarizing (editor (app s)) then 1 else 0.
Proof. intros H. apply (reachable_Inv pol db0 s H). Qed.

Lemma deliver_fetch (s : Sys) (i : nat) (rep : option (Resp SelectNotes))
    (k : Resp SelectNotes -> Prog App unit) (v : Resp SelectNotes) :
  Inv s -> threads s !! i = Some (mkThread SelectNotes rep k) ->
  k v = lift (fetched v).
Proof. intros HI Hi. apply (thread_ok_lookup s i _ HI Hi). Qed.

(** A fetch answered and handled back to back leaves the backend as it
    was and the list equal to its rows. *)
Lemma fetch_round (pol : Policy) (db0 : DB) (s s' : Sys) (i : nat)
    (k : Resp SelectNotes -> Prog App unit) :
  reachable pol db0 s ->
  threads s !! i = Some (mkThread SelectNotes None k) ->
  exec_trace pol [AServe i; ADeliver i] s = Some s' ->
  db s' = db s /\ list_in_sync pol s'.
Proof.
  intros Hr Hi Ht. pose proof (reachable_Inv _ _ _ Hr) as HI.
  simpl in Ht. rewrite Hi in Ht. simpl in Ht.
  rewrite list_lookup_insert_eq in Ht by (eapply lookup_lt_Some; eauto).
  simpl in Ht. injection Ht as <-.
  rewrite (deliver_fetch s i None k _ HI Hi). split; [reflexivity | split; reflexivity].
Qed.

(** C3. When a fetch of the notes list is answered and its answer handled
    with nothing in between, the list the page holds is exactly the
    backend's: the rows the policy lets the user read, most recently
    updated first, and the page is no longer loading. *)
Theorem fetch_sync_point (pol : Policy) (db0 : DB) (s s' : Sys) (i : nat)
    (k : Resp SelectNotes -> Prog App unit) :
  reachable pol db0 s ->
  threads s !! i = Some (mkThread SelectNotes None k) ->
  exec_trace pol [AServe i; ADeliver i] s = Some s' ->
  list_in_sync pol s'.
Proof. intros Hr Hi Ht. apply (fetch_round pol db0 s s' i k Hr Hi Ht). Qed.

Lemma select_notes_ids (pol : Policy) (d : DB) (i : string) :
  i ∉ map id (rows d) -> i ∉ map id (select_notes pol d).
Proof.
  intros Hn Hin. apply Hn. apply list_elem_of_fmap in Hin as (n & -> & Hin).
  apply list_elem_of_fmap. exists n. split; [done|].
  unfold select_notes in Hin. rewrite (order_desc_perm updated_at _) in Hin.
  apply list_elem_of_In, filter_In in Hin as [Hin _]. by apply list_elem_of_In.
Qed.

(** A delete request in flight, served, then a fetch handled right away. *)
Lemma served_delete_then_fetch (pol : Policy) (db0 : DB) (s s' : Sys) (d f : nat) (i : string)
    (kd : Resp (DeleteNote i) -> Prog App unit) (kf : Resp SelectNotes -> Prog App unit) :
  reachable pol db0 s ->
  threads s !! d = Some (mkThread (DeleteNote i) None kd) ->
  threads s !! f = Some (mkThread SelectNotes None kf) ->
  (forall n, n ∈ rows (db s) -> id n = i -> can_write pol (session (db s)) n = true) ->
  exec_trace pol [AServe d; AServe f; ADeliver f] s = Some s' ->
  i ∉ map id (notes (hook (app s'))).
Proof.
  intros Hr Hd Hf Hw Ht. cbn [exec_trace] in Ht.
  destruct (exec_action pol (AServe d) s) as [s1|] eqn:E1; [|discriminate].
  assert (Hr1 : reachable pol db0 s1) by (econstructor; [exact Hr | by eapply exec_action_step]).
  destruct (delete_removes pol (batches s) (db s) i Hw) as (db' & Hs & Hgone).
  simpl in E1. rewrite Hd in E1. simpl in E1. simpl in Hs. injection Hs as <-. injection E1 as <-.
  destruct (fetch_round pol db0 _ s' f kf Hr1 ltac:(simpl; rewrite list_lookup_insert_ne; [done|]; intros ->; congruence) Ht)
    as [Hdb [Hl _]].
  rewrite Hl, Hdb. by apply select_notes_ids.
Qed.

(** ** Witnesses *)

Definition summarizing_run : list Action := loaded ++ [AUi (ClickNote "n1"); AUi ClickSummarize].

Lemma summarize_in_flight_witness :
  reachable owner_policy db0 (after summarizing_run) /\
  n_summarize (threads (after summarizing_run)) = 1.
Proof.
  assert (reachable owner_policy db0 (after summarizing_run)) as Hr
    by (apply after_reachable; vm_compute; reflexivity).
  split; [exact Hr|]. rewrite (summarize_in_flight _ _ _ Hr). vm_compute. reflexivity.
Defined.

Lemma fetch_sync_point_witness : list_in_sync owner_policy (after [AServe 0; ADeliver 0]).
Proof.
  apply (fetch_sync_point owner_policy db0 (boot db0) (after [AServe 0; ADeliver 0]) 0
           (fun x => lift (fetched x))).
  - constructor.
  - reflexivity.
  - vm_compute. reflexivity.
Defined.

(** The trash button of a card starts [handleDeleteNote] on the current
    render. *)
Lemma handler_delete (a : App) (i : string) (p : Prog App unit) :
  handler a (ClickDelete i) = Some p -> p = handleDeleteNote (dash a) i.
Proof. unfold handler. destruct (dLoading (dash a)); [done|]. cbn. by case_match; intros [= <-]. Qed.

(** [handleDeleteNote] sends [DeleteNote i] at once. *)
Lemma exec_handleDeleteNote (d0 : DashState) (i : string) (s : Sys) :
  exists k, threads (exec (handleDeleteNote d0 i) s) = threads s ++ [mkThread (DeleteNote i) None k].
Proof. by eexists. Qed.

(** C14. Deleting from the list, then a fetch: when the user clicks the
    trash button of note [i], the backend serves the delete this sends
    (the session may write the rows with id [i]) and then a fetch that is
    handled right away, the list the page shows no longer contains [i]
    (spec, section 8). *)
Theorem delete_then_fetch (pol : Policy) (db0 : DB) (s s' : Sys) (f : nat) (i : string)
    (kf : Resp SelectNotes -> Prog App unit) :
  reachable pol db0 s ->
  threads s !! f = Some (mkThread SelectNotes None kf) ->
  (forall n, n ∈ rows (db s) -> id n = i -> can_write pol (session (db s)) n = true) ->
  exec_trace pol [AUi (ClickDelete i); AServe (List.length (threads s)); AServe f; ADeliver f] s = Some s' ->
  i ∉ map id (notes (hook (app s'))).
Proof.
  intros Hr Hf Hw Ht. cbn [exec_trace] in Ht.
  destruct (exec_action pol (AUi (ClickDelete i)) s) as [s1|] eqn:E1; [|discriminate].
  assert (Hr1 : reachable pol db0 s1) by (econstructor; [exact Hr | by eapply exec_action_step]).
  cbn [exec_action] in E1. destruct (handler (app s) (ClickDelete i)) as [p|] eqn:Hh; [|discriminate].
  apply handler_delete in Hh as ->. injection E1 as <-.
  destruct (exec_handleDeleteNote (dash (app s)) i s) as [kd Hk].
  eapply (served_delete_then_fetch pol db0 _ s' (List.length (threads s)) f i kd kf Hr1).
  - rewrite Hk. by rewrite list_lookup_middle.
  - rewrite Hk. by apply lookup_app_l_Some.
  - exact Hw.
  - exact Ht.
Qed.

(** Loaded, another device adds a note and the notification's fetch is
    sent; the user then deletes "n1". *)
Definition delete_setup : list Action :=
  loaded ++ [AExternal (rows db0 ++ [row "n3" "Biology" "cells" 11%Z]); ANotify].

Lemma delete_then_fetch_witness :
  "n1" ∉ map id (notes (hook (app (after (delete_setup ++ [AUi (ClickDelete "n1"); AServe 1; AServe 0; ADeliver 0]))))).
Proof.
  eapply (delete_then_fetch owner_policy db0 (after delete_setup) _ 0 "n1").
  - reach.
  - vm_compute. reflexivity.
  - intros n Hn Hid. apply list_elem_of_In in Hn. vm_compute in Hn.
    decompose [or] Hn; subst; vm_compute in Hid |- *; first [reflexivity | discriminate | contradiction].
  - vm_compute. reflexivity.
Defined.

End Invariants.
