(* ===== verification/Scenarios.v ===== *)
(** * Runs of the application on a concrete backend

    Traces of [System.exec_action] from the boot of [Fixtures.db0].  Each
    theorem here is one run showing a behaviour of the code, the evidence
    of a finding of PROJECT.json: a run computes, so [Fixtures.reach]
    makes its last state reachable.  The general statements these runs
    are instances of are proved in [Races] and [Dashboard]. *)
From S2P Require Import Prelude JsLib Note Remote Backend NotesList NotesHook NoteEditor Dashboard System Fixtures Invariants.
From Stdlib Require Import ZArith.
Import Note Remote Backend NotesList NotesHook NoteEditor Dashboard System Fixtures Invariants.

Module Scenarios.

(** ** Replies handled out of order *)

(** Another device adds a row while the first fetch's answer is still on
    its way; the notification's fetch is answered and handled first, then
    the older answer arrives. *)
Definition race : list Action :=
  [AServe 0; AServe 1; ADeliver 1;
   AExternal (rows db0 ++ [row "n3" "Biology" "cells" 11%Z]);
   ANotify; AServe 1; ADeliver 1; ADeliver 0].

(** Nothing orders the answers of overlapping fetches: the run [race]
    ends with no request in flight and no notification pending, yet the
    list shows an older state of the table than the backend holds. *)
Theorem stale_fetch_wins :
  reachable owner_policy db0 (after race) /\ threads (after race) = [] /\
  notifs (after race) = 0 /\ ~ list_in_sync owner_policy (after race).
Proof.
  split; [reach|]. vm_compute. split; [reflexivity|]. split; [reflexivity|].
  intros [H _]. discriminate H.
Qed.

(** ** Deleting a note *)

(** The user opens n1, deletes it, and opens n2 before the delete returns. *)
Definition delete_then_select : list Action :=
  loaded ++ [AUi (ClickNote "n1"); AUi (ClickDelete "n1"); AUi (ClickNote "n2")].

Definition delete_returns : list Action := [AServe 0; ADeliver 0].

(** [handleDeleteNote] compares the id with the [selectedNoteId] of the
    render it was created in: when the user selects another note while the
    delete is in flight, its completion clears that other selection. *)
Theorem stale_delete_deselects :
  reachable owner_policy db0 (after delete_then_select) /\
  selectedNoteId (dash (app (after delete_then_select))) = Some "n2" /\
  exec_trace owner_policy delete_returns (after delete_then_select) =
    Some (after (delete_then_select ++ delete_returns)) /\
  selectedNoteId (dash (app (after (delete_then_select ++ delete_returns)))) = None /\
  "n2" ∈ ids (rows (db (after (delete_then_select ++ delete_returns)))).
Proof.
  split; [reach|]. vm_compute. split; [reflexivity|]. split; [reflexivity|].
  split; [reflexivity|]. set_solver.
Qed.

Definition failed_delete : list Action :=
  loaded ++ [AUi (ClickNote "n1"); AUi (ClickDelete "n1"); AFail 0 "network error"; ADeliver 0].

(** The selection is cleared even when the delete fails: the note
    stays in the backend and in the list, an error toast is shown, and the
    editor is closed. *)
Theorem failed_delete_deselects :
  reachable owner_policy db0 (after failed_delete) /\
  selectedNoteId (dash (app (after failed_delete))) = None /\
  "n1" ∈ ids (rows (db (after failed_delete))) /\
  "n1" ∈ ids (notes (hook (app (after failed_delete)))) /\
  outs (after failed_delete) = [Toast "Error deleting note" "network error" true].
Proof.
  split; [reach|]. vm_compute. split; [reflexivity|]. split; [set_solver|].
  split; [set_solver | reflexivity].
Qed.

(** ** The summary and the draft *)

Definition switch_before_summary : list Action :=
  loaded ++ [AUi (ClickNote "n1"); AUi ClickSummarize; AUi (ClickNote "n2");
             AFunction 0 (Ok (Some "About forces.")); ADeliver 0].

(** The summary of one note is shown on another: the user asks for a
    summary of note n1, switches to n2 before the answer, and n1's summary
    appears in n2's editor. *)
Theorem summary_shown_on_other_note :
  reachable owner_policy db0 (after switch_before_summary) /\
  selectedNoteId (dash (app (after switch_before_summary))) = Some "n2" /\
  content_d (editor (app (after switch_before_summary))) = "atoms" /\
  summary (editor (app (after switch_before_summary))) = "About forces.".
Proof. split; [reach|]. vm_compute. auto. Qed.

Definition summarized_n1 : list Action :=
  loaded ++ [AUi (ClickNote "n1"); AUi ClickSummarize;
             AFunction 0 (Ok (Some "About forces.")); ADeliver 0].

Definition favorite_round_trip : list Action :=
  [AUi ClickFavorite; AServe 0; ADeliver 0; ANotify; AServe 0; ADeliver 0].

(** The editor re-seeds on every new note object, not only when the
    selected note changes: toggling the favourite star of the open note
    makes the backend notify, the re-fetch hands the editor a new object of
    the same note, and the summary on screen is cleared. *)
Theorem refetch_clears_summary :
  reachable owner_policy db0 (after summarized_n1) /\
  summary (editor (app (after summarized_n1))) = "About forces." /\
  exec_trace owner_policy favorite_round_trip (after summarized_n1) =
    Some (after (summarized_n1 ++ favorite_round_trip)) /\
  selectedNoteId (dash (app (after (summarized_n1 ++ favorite_round_trip)))) = Some "n1" /\
  summary (editor (app (after (summarized_n1 ++ favorite_round_trip)))) = EmptyString.
Proof. split; [reach|]. vm_compute. auto. Qed.

Definition typing_n1 : list Action :=
  loaded ++ [AUi (ClickNote "n1"); AUi (ContentInput "forces and energy")].

Definition other_device_edit : list Action :=
  [AExternal [row "n1" "Physics" "forces" 1%Z; row "n2" "Chemistry" "atoms and ions" 12%Z];
   ANotify; AServe 0; ADeliver 0].

(** Text typed in the open note and not yet saved (no blur) is
    discarded when another device changes a different note: the re-fetch
    re-seeds the draft from the backend. *)
Theorem refetch_discards_draft :
  reachable owner_policy db0 (after typing_n1) /\
  content_d (editor (app (after typing_n1))) = "forces and energy" /\
  exec_trace owner_policy other_device_edit (after typing_n1) =
    Some (after (typing_n1 ++ other_device_edit)) /\
  selectedNoteId (dash (app (after (typing_n1 ++ other_device_edit)))) = Some "n1" /\
  content_d (editor (app (after (typing_n1 ++ other_device_edit)))) = "forces".
Proof. split; [reach|]. vm_compute. auto. Qed.

(** ** Two saves of one note *)

(** Alice types "a" in n1 and leaves the field (a save), types "ab" and
    clicks Save (a second save) while the first is in flight. *)
Definition saved_twice : list Action :=
  loaded ++ [AUi (ClickNote "n1"); AUi (ContentInput "a"); AUi ContentBlur;
             AUi (ContentInput "ab"); AUi ClickSave].

(** The backend serves the second save first; both replies are handled and
    both notifications re-fetch. *)
Definition saves_reordered : list Action :=
  [AServe 1; AServe 0; ADeliver 1; ADeliver 0;
   ANotify; AServe 0; ADeliver 0; ANotify; AServe 0; ADeliver 0].

Definition stored_content (s : Sys) (i : string) : option string :=
  option_map content (List.find (fun n => String.eqb (id n) i) (rows (db s))).

(** Nothing orders the saves of one note: neither the Save button nor
    the blur handler waits for a save in flight, and the backend may serve
    the two updates in either order.  In the run [saves_reordered] the
    older draft is written last: once everything has settled the backend
    holds "a", and the re-fetch has re-seeded the editor with it, while
    the last text Alice typed and saved was "ab". *)
Theorem stale_save_wins :
  reachable owner_policy db0 (after saved_twice) /\
  content_d (editor (app (after saved_twice))) = "ab" /\
  map t_req (threads (after saved_twice)) =
    [UpdateNote "n1" (save_patch (editor (app (after (loaded ++ [AUi (ClickNote "n1"); AUi (ContentInput "a")])))));
     UpdateNote "n1" (save_patch (editor (app (after saved_twice))))] /\
  exec_trace owner_policy saves_reordered (after saved_twice) = Some (after (saved_twice ++ saves_reordered)) /\
  threads (after (saved_twice ++ saves_reordered)) = [] /\ notifs (after (saved_twice ++ saves_reordered)) = 0 /\
  stored_content (after (saved_twice ++ saves_reordered)) "n1" = Some "a" /\
  content_d (editor (app (after (saved_twice ++ saves_reordered)))) = "a".
Proof. split; [reach|]. vm_compute. auto 10. Qed.

(** ** Creating the first note *)

Definition db_empty : DB := mkDB [] [] (Some alice) 10%Z 0%N.

Definition create_run : list Action :=
  loaded ++ [AUi ClickCreate; AServe 0; ADeliver 0; AServe 0; ADeliver 0].

Definition refetch : list Action := [ANotify; AServe 0; ADeliver 0].

(** A user with no notes sees "No notes yet. Create your first note!";
    the floating button creates a row titled "Untitled Note" with empty
    content and no tags and selects it, but the editor keeps its
    placeholder until the change notification's re-fetch brings the row
    in; the editor then shows the title "Untitled Note" and an empty
    content, with the Summarize button disabled. *)
Theorem create_first_note :
  body (lst (app (after_in db_empty loaded))) (notes (hook (app (after_in db_empty loaded))))
    None false = EmptyMessage "No notes yet. Create your first note!" /\
  reachable owner_policy db_empty (after_in db_empty create_run) /\
  selectedNoteId (dash (app (after_in db_empty create_run))) = Some "note-0" /\
  rows (db (after_in db_empty create_run)) = [new_row db_empty "alice" "Untitled Note" "" []] /\
  NoteEditor.render (selectedNote (app (after_in db_empty create_run)))
    (editor (app (after_in db_empty create_run))) = Placeholder /\
  exec_trace owner_policy refetch (after_in db_empty create_run) =
    Some (after_in db_empty (create_run ++ refetch)) /\
  NoteEditor.render (selectedNote (app (after_in db_empty (create_run ++ refetch))))
    (editor (app (after_in db_empty (create_run ++ refetch)))) =
    Editing "Untitled Note" false [] "" "Summarize" false None.
Proof.
  split; [vm_compute; reflexivity|]. split; [reach|]. vm_compute. auto 6.
Qed.

(** ** A failed first fetch *)

Definition failed_first_fetch : list Action :=
  [AFail 0 "timeout"; AServe 1; ADeliver 1; ADeliver 0].

(** When the first fetch fails, an error toast is shown and the list
    then tells a user who has notes "No notes yet. Create your first
    note!": the hook's list stays the initial empty array. *)
Theorem failed_fetch_says_no_notes :
  reachable owner_policy db0 (after failed_first_fetch) /\
  rows (db (after failed_first_fetch)) <> [] /\
  outs (after failed_first_fetch) = [Toast "Error loading notes" "timeout" true] /\
  body (lst (app (after failed_first_fetch))) (notes (hook (app (after failed_first_fetch))))
    (selectedNoteId (dash (app (after failed_first_fetch))))
    (isLoading (hook (app (after failed_first_fetch)))) =
    EmptyMessage "No notes yet. Create your first note!".
Proof. split; [reach|]. vm_compute. split; [discriminate|]. auto. Qed.


(** ** Deleting a note the session may read but not write *)

(** Bob's public note, readable by Alice under [community_policy]. *)
Definition bob_public : Note :=
  mkNote "b1" "bob" "Cells" "mitosis" [] false true None 0%Z 3%Z 3%Z.

Definition db_community : DB := mkDB (rows db0 ++ [bob_public]) [] (Some alice) 10%Z 0%N.

Definition delete_foreign : list Action := loaded ++ [AUi (ClickDelete "b1"); AServe 0; ADeliver 0].

(** [deleteNote] takes the absence of an error as success: when the
    row policy lets the dashboard show a note the user may not delete (a
    public note of another user), the delete removes nothing, the backend
    reports no error and publishes no change, and the page says "Note
    deleted" while the note stays in the backend and in the list. *)
Theorem foreign_delete_run :
  reachable community_policy db_community (after_pol community_policy db_community delete_foreign) /\
  outs (after_pol community_policy db_community delete_foreign) =
    [Toast "Note deleted" "Your note has been removed" false] /\
  "b1" ∈ ids (rows (db (after_pol community_policy db_community delete_foreign))) /\
  "b1" ∈ ids (notes (hook (app (after_pol community_policy db_community delete_foreign)))) /\
  notifs (after_pol community_policy db_community delete_foreign) = 0.
Proof. split; [reach|]. vm_compute. split; [reflexivity|]. split; [set_solver|]. split; [set_solver | reflexivity]. Qed.

End Scenarios.
