(* ===== verification/SummaryMachine.v ===== *)
(** * The summarisation machine of the spec, refined by the application

    The spec (section 4.3) describes summarisation as a sub-machine
    [Idle -> Summarizing -> Idle] of the editor, independent of saving.
    The phase of a state of [System] is read off the editor's
    [isSummarizing] flag.  Every step of the application either keeps the
    phase or is a transition of the spec's machine, and each transition
    has the cause the spec names: [Idle -> Summarizing] only by the
    summarise handler, [Summarizing -> Idle] only by handling the reply of
    the summarisation function. *)
From S2P Require Import Prelude JsLib Note Remote Backend NotesHook NoteEditor Dashboard System Fixtures Invariants.
Import Note Remote Backend NotesHook NoteEditor Dashboard System Fixtures Invariants.

Module SummaryMachine.

Inductive Phase := Idle | Summarizing.

(** The abstraction of a state to the spec's machine. *)
Definition phase (s : Sys) : Phase := if isSummarizing (editor (app s)) then Summarizing else Idle.

(** The spec's transitions. *)
Inductive spec_step : Phase -> Phase -> Prop :=
| sp_start : spec_step Idle Summarizing
| sp_finish : spec_step Summarizing Idle.

(** What caused a transition of a step [s -> s']. *)
Definition started_by_handler (s s' : Sys) : Prop :=
  exists e, handler (app s) e = Some (handleSummarize (editor (app s))) /\
    s' = exec (handleSummarize (editor (app s))) s.

Definition finished_by_reply (s s' : Sys) : Prop :=
  exists i text k v, threads s !! i = Some (mkThread (Summarize text) (Some v) k) /\
    s' = exec (k v) (with_threads s (delete i (threads s))).

(** A quiet program run on a state whose page is that of [s] keeps the
    phase of [s]. *)
Lemma exec_quiet_phase (p : Prog App unit) (s1 s : Sys) :
  Quiet p -> app s1 = app s -> phase (exec p s1) = phase s.
Proof.
  intros Hp Ha. unfold phase, exec. cbn [app]. rewrite commit_flag.
  pose proof (proj1 (run_confined _ _ p (mkRun (app s1) (outs s1) []) Hp)) as Hf.
  unfold summarizing in Hf. by rewrite Hf, Ha.
Qed.

Lemma phase_same_app (s s' : Sys) : app s' = app s -> phase s' = phase s.
Proof. unfold phase. by intros ->. Qed.

(** Handling a reply of the function ends the summarisation. *)
Lemma exec_summarized_phase (v : result (option string) ErrMsg) (s : Sys) :
  phase (exec (summarized v) s) = Idle.
Proof.
  unfold phase, exec. cbn [app]. rewrite commit_flag.
  by rewrite (proj1 (run_summarized v (mkRun (app s) (outs s) []))).
Qed.

(** A summarisation reply waiting to be handled means the flag is set. *)
Lemma summarize_thread_flag (s : Sys) (i : nat) (t : Thread) :
  Inv s -> threads s !! i = Some t -> is_summarize (t_req t) = true ->
  isSummarizing (editor (app s)) = true.
Proof.
  intros [_ Hc] Hi Hs. pose proof (n_summarize_delete _ _ _ Hi) as Hn. rewrite Hs in Hn.
  destruct (isSummarizing _); [done | lia].
Qed.

(** C31. The application refines the spec's summarisation machine: every
    step from a reachable state keeps the phase, or is [Idle ->
    Summarizing] caused by the summarise handler, or [Summarizing -> Idle]
    caused by handling the function's reply.  No other event (a fetch, a
    note switch, a save, a failure of another call) starts or ends a
    summarisation. *)
Theorem summary_machine (pol : Policy) (db0 : DB) (s s' : Sys) :
  reachable pol db0 s -> step pol s s' ->
  phase s' = phase s \/
  (spec_step (phase s) (phase s') /\ phase s = Idle /\ started_by_handler s s') \/
  (spec_step (phase s) (phase s') /\ phase s = Summarizing /\ finished_by_reply s s').
Proof.
  intros Hr Hst. pose proof (reachable_Inv _ _ _ Hr) as HI.
  destruct Hst as [s e p Hh|s|s i t v db' Hi Hr' Hs|s i text k v Hi|s i t msg Hi Hr'
                  |s i t v Hi Hr'|s Hn|s rs Hrs].
  - destruct (handler_shape _ _ _ Hh) as [Hq|[-> Hf]]; [left; by apply exec_quiet_phase|].
    unfold handleSummarize in *. destruct (negb (truthy _)) eqn:Hb.
    + left. apply exec_quiet_phase; [solve_quiet | done].
    + right; left. unfold phase. rewrite Hf. cbn [exec app]. rewrite commit_flag. simpl.
      split; [constructor|]. split; [done|]. exists e. unfold handleSummarize. rewrite Hb. by split.
  - left. apply exec_quiet_phase; [unfold onAuthStateChange, setD; solve_quiet | done].
  - left. by apply phase_same_app.
  - left. by apply phase_same_app.
  - left. by apply phase_same_app.
  - pose proof (thread_ok_lookup s i t HI Hi) as Hok.
    destruct t as [r rep k]. simpl in v, Hr', Hok |- *.
    destruct r; simpl in Hok;
      try (left; apply exec_quiet_phase; [apply Hok | done]).
    + left. rewrite Hok. apply exec_quiet_phase; [apply fetched_quiet | done].
    + right; right. rewrite Hok, exec_summarized_phase.
      assert (Hf : phase s = Summarizing).
      { unfold phase. by rewrite (summarize_thread_flag s i _ HI Hi). }
      rewrite Hf. split; [constructor|]. split; [done|].
      exists i, text, k, v. subst rep. split; [done|]. by rewrite Hok.
  - left. unfold phase, exec. cbn [app]. by rewrite commit_flag.
  - left. by apply phase_same_app.
Qed.

Lemma summary_machine_witness :
  let s := after (loaded ++ [AUi (ClickNote "n1")]) in
  let s' := after summarizing_run in
  phase s = Idle /\ phase s' = Summarizing /\
  (phase s' = phase s \/
   (spec_step (phase s) (phase s') /\ phase s = Idle /\ started_by_handler s s') \/
   (spec_step (phase s) (phase s') /\ phase s = Summarizing /\ finished_by_reply s s')).
Proof.
  cbn zeta. split; [vm_compute; reflexivity|]. split; [vm_compute; reflexivity|].
  apply (summary_machine owner_policy db0).
  - reach.
  - apply (exec_action_step owner_policy (AUi ClickSummarize)). vm_compute. reflexivity.
Defined.

End SummaryMachine.
