(* ===== verification/Writes.v ===== *)
(** * What the dashboard writes

    The spec (section 3) says a note's identifier and owner are immutable
    after creation, and that a user may publish notes.  The only writes
    the dashboard sends are [createNote]'s insert (with the table's
    defaults for the other columns) and [updateNote]'s patches, built by
    the editor from its draft: the title, the content, the tags and the
    favourite flag.  This file proves, by induction on [System.step], that
    every update in flight in a reachable state carries only those fields:
    the client never changes an id, an owner or a timestamp, and never
    sets [is_public], a slug or the view counter. *)
From S2P Require Import Prelude JsLib Note Remote Backend NotesHook NoteEditor Dashboard System Fixtures Invariants.
Import Note Remote Backend NotesHook NoteEditor Dashboard System Fixtures Invariants.

Module Writes.

Definition absent {A} (o : option A) : bool := match o with None => true | Some _ => false end.

(** A patch that only touches the fields the editor edits. *)
Definition editable_patch (p : NotePatch) : bool :=
  absent (p_id p) && absent (p_user_id p) && absent (p_is_public p) && absent (p_slug p) &&
  absent (p_view_count p) && absent (p_created_at p) && absent (p_updated_at p).

Definition write_ok (r : Req) : bool :=
  match r with UpdateNote _ p => editable_patch p | _ => true end.

(** A program whose updates are all editable patches. *)
Abbreviation Writes := (Confined write_ok (fun _ : App => tt)).

Definition thread_writes (t : Thread) : Prop :=
  write_ok (t_req t) = true /\ forall v, Writes (t_k t v).

Lemma spawn_writes (ps : list (Pending App)) :
  Forall (confined_pending write_ok (fun _ : App => tt)) ps -> Forall thread_writes (spawn ps).
Proof. induction 1 as [|[r k] ps Hq _ IH]; constructor; [exact Hq | exact IH]. Qed.

Lemma exec_writes (p : Prog App unit) (s : Sys) :
  Writes p -> Forall thread_writes (threads s) -> Forall thread_writes (threads (exec p s)).
Proof.
  intros Hp Hs. destruct (exec_confined _ _ p s Hp (fun _ => eq_refl)) as (_ & _ & _ & ps & -> & Hq).
  apply Forall_app. split; [done|]. by apply spawn_writes.
Qed.

Lemma handler_writes (a : App) (e : UiEvent) (p : Prog App unit) :
  handler a e = Some p -> Writes p.
Proof.
  unfold handler. destruct (dLoading (dash a)); [done|].
  destruct e; repeat (case_match || case_bool_decide); intros Hsome; try discriminate;
    injection Hsome as <-;
    unfold handleCreateNote, handleDeleteNote, handleSave, handleToggleFavorite, handleAddTag,
      handleRemoveTag, handleSummarize, summarized, handleSignOut, setD, setE;
    repeat (case_match || case_bool_decide); solve_page.
Qed.

Lemma answer_writes (s : Sys) (i : nat) (t t' : Thread) :
  Forall thread_writes (threads s) -> threads s !! i = Some t ->
  t_req t' = t_req t -> (thread_writes t -> thread_writes t') ->
  Forall thread_writes (<[i := t']> (threads s)).
Proof. intros Hs Hi _ Hok. apply Forall_insert; [done|]. apply Hok. by eapply Forall_lookup_1. Qed.

Lemma step_writes (pol : Policy) (s s' : Sys) :
  Forall thread_writes (threads s) -> step pol s s' -> Forall thread_writes (threads s').
Proof.
  intros Hs Hst. destruct Hst as [s e p Hh|s|s i t v db' Hi _ _|s i text k v Hi|s i t msg Hi _
                                 |s i t v Hi _|s _|s rs _].
  - apply exec_writes; [by eapply handler_writes | done].
  - apply exec_writes; [|done]. unfold onAuthStateChange, setD. solve_page.
  - eapply answer_writes; [done..|]. by destruct t.
  - eapply answer_writes; [done..|]. done.
  - eapply answer_writes; [done..|]. by destruct t.
  - apply exec_writes; [|by apply Forall_delete].
    destruct (Forall_lookup_1 _ _ _ _ Hs Hi) as [_ Hk]. apply Hk.
  - apply exec_writes; [|done]. unfold fetchNotes, fetched. solve_page.
  - done.
Qed.

Lemma reachable_writes (pol : Policy) (db0 : DB) (s : Sys) :
  reachable pol db0 s -> Forall thread_writes (threads s).
Proof.
  induction 1 as [|s s' _ IH Hst]; [|by eapply step_writes].
  apply exec_writes; [|constructor].
  unfold Dashboard.mount, NotesHook.mount, fetchNotes, fetched, checkSession, setD. solve_page.
Qed.

(** C32. Every update the dashboard has in flight, in any reachable state,
    touches only the title, the content, the tags and the favourite flag:
    the client never changes a note's id or owner (the spec's
    immutability), its timestamps, its slug or its view counter, and
    never sets [is_public], so nothing in the client publishes a note. *)
Theorem client_writes_editable (pol : Policy) (db0 : DB) (s : Sys) (i : nat) (t : Thread)
    (nid : string) (p : NotePatch) :
  reachable pol db0 s -> threads s !! i = Some t -> t_req t = UpdateNote nid p ->
  p_id p = None /\ p_user_id p = None /\ p_is_public p = None /\ p_slug p = None /\
  p_view_count p = None /\ p_created_at p = None /\ p_updated_at p = None.
Proof.
  intros Hr Hi Hreq. destruct (Forall_lookup_1 _ _ _ _ (reachable_writes _ _ _ Hr) Hi) as [Hw _].
  rewrite Hreq in Hw. simpl in Hw. unfold editable_patch in Hw.
  destruct (p_id p), (p_user_id p), (p_is_public p), (p_slug p), (p_view_count p),
    (p_created_at p), (p_updated_at p); try discriminate. tauto.
Qed.

(** Alice opens "n1", types in it and leaves the field: the save is in
    flight. *)
Definition saving_run : list Action :=
  loaded ++ [AUi (ClickNote "n1"); AUi (ContentInput "forces and motion"); AUi ContentBlur].

Lemma client_writes_editable_witness :
  p_is_public (save_patch (editor (app (after saving_run)))) = None.
Proof.
  destruct (threads (after saving_run) !! 0) as [t|] eqn:Ht; [|vm_compute in Ht; discriminate].
  assert (Hreq : t_req t = UpdateNote "n1" (save_patch (editor (app (after saving_run))))).
  { vm_compute in Ht. injection Ht as <-. vm_compute. reflexivity. }
  destruct (client_writes_editable owner_policy db0 (after saving_run) 0 t "n1" _ ltac:(reach) Ht Hreq)
    as (_ & _ & Hp & _).
  exact Hp.
Defined.

End Writes.
