(* ===== verification/Settle.v ===== *)
(** * Without new input the dashboard settles

    The hook re-fetches the whole list on every change notification, and a
    write the backend serves publishes one.  This file shows that the loop
    is finite: with no new user action, auth event or outside write, the
    backend answering (or failing) the requests in flight, the function
    answering the summaries, the page handling the replies and the hook
    handling the notifications always come to an end, in a number of steps
    bounded by a measure of the state, and some such run ends with nothing
    in flight and no notification pending.

    The measure counts, for each request in flight, the steps it still
    needs: its answer and the notification a write may publish (three more
    steps: the notification, the fetch's answer and its handling), its
    handling, and what its continuation may still send.  Only the rest of
    [createNote] after [getUser] sends again (the insert); every other
    continuation of the page sends nothing. *)
From S2P Require Import Prelude JsLib Note Remote Backend NotesHook NoteEditor Dashboard System Fixtures Invariants.
Import Note Remote Backend NotesHook NoteEditor Dashboard System Fixtures Invariants.

Module Settle.

Definition is_write (r : Req) : bool :=
  match r with InsertNote _ _ _ _ | UpdateNote _ _ | DeleteNote _ => true | _ => false end.

(** What a continuation waiting on [r] may still send. *)
Definition budget (r : Req) : nat := match r with GetUser => 5 | _ => 0 end.

(** The steps a request just sent still needs. *)
Definition fresh (r : Req) : nat := 2 + (if is_write r then 3 else 0) + budget r.

(** The requests a program sends before its first [await] on each forked
    path, weighed by [fresh]. *)
Fixpoint imm_cost {S} (p : Prog S unit) : nat :=
  match p with
  | Ret _ => 0
  | Set_ _ k | Emit _ k => imm_cost k
  | Await r _ => fresh r
  | Fork q k => imm_cost q + imm_cost k
  end.

(** Programs whose every continuation stays within its request's budget. *)
Inductive Good : Prog App unit -> Prop :=
| g_ret u : Good (Ret u)
| g_set f k : Good k -> Good (Set_ f k)
| g_emit o k : Good k -> Good (Emit o k)
| g_await r k :
    (forall v, Good (k v)) -> (forall v, imm_cost (k v) <= budget r) -> Good (Await r k)
| g_fork q k : Good q -> Good k -> Good (Fork q k).

Definition pending_good (q : Pending App) : Prop :=
  forall v, Good (p_k q v) /\ imm_cost (p_k q v) <= budget (p_req q).

Definition thread_good (t : Thread) : Prop :=
  forall v, Good (t_k t v) /\ imm_cost (t_k t v) <= budget (t_req t).

Definition thread_cost (t : Thread) : nat :=
  (match t_reply t with None => 1 + (if is_write (t_req t) then 3 else 0) | Some _ => 0 end)
  + 1 + budget (t_req t).

Definition measure (s : Sys) : nat := sum_list_with thread_cost (threads s) + 3 * notifs s.

(** The steps that need no new input. *)
Section Quiet.
Variable pol : Policy.

Inductive settle_step : Sys -> Sys -> Prop :=
| se_serve s i t v db' :
    threads s !! i = Some t -> t_reply t = None ->
    serve pol (batches s) (db s) (t_req t) = Some (v, db') ->
    settle_step s (mkSys db' (app s) (<[i := answer t v]> (threads s))
              (notifs s + if notes_changed (db s) db' then 1 else 0) (outs s) (S (batches s)))
| se_function s i text k v :
    threads s !! i = Some (mkThread (Summarize text) None k) ->
    settle_step s (with_threads s (<[i := mkThread (Summarize text) (Some v) k]> (threads s)))
| se_fail s i t msg :
    threads s !! i = Some t -> t_reply t = None ->
    settle_step s (with_threads s (<[i := answer t (fail_reply msg (t_req t))]> (threads s)))
| se_deliver s i t v :
    threads s !! i = Some t -> t_reply t = Some v ->
    settle_step s (exec (t_k t v) (with_threads s (delete i (threads s))))
| se_notify s :
    0 < notifs s ->
    settle_step s (exec (lift fetchNotes)
              (mkSys (db s) (app s) (threads s) (notifs s - 1) (outs s) (batches s))).

Inductive settle_steps : nat -> Sys -> Sys -> Prop :=
| ss_nil s : settle_steps 0 s s
| ss_cons n s s' s'' : settle_step s s' -> settle_steps n s' s'' -> settle_steps (S n) s s''.

Lemma settle_step_step (s s' : Sys) : settle_step s s' -> step pol s s'.
Proof.
  destruct 1; [by eapply st_serve | by eapply st_function | by eapply st_fail
              | by eapply st_deliver | by apply st_notify].
Qed.

End Quiet.

(** ** Running a good program *)

Lemma run_good (p : Prog App unit) (st : Run App) :
  Good p ->
  exists ps, r_pending (run p st) = r_pending st ++ ps /\
    sum_list_with (fun q => fresh (p_req q)) ps = imm_cost p /\ Forall pending_good ps.
Proof.
  intros Hg. revert st. induction Hg as [u|f k _ IH|o k _ IH|r k Hk _ Hc|q k _ IHq _ IHk]; intros st; simpl.
  - exists []. by rewrite app_nil_r.
  - apply (IH (mkRun (f (r_state st)) (r_outs st) (r_pending st))).
  - apply (IH (mkRun (r_state st) (r_outs st ++ [o]) (r_pending st))).
  - exists [mkPending r k]. simpl. split; [done|]. split; [unfold fresh; lia|]. constructor; [intros v; split; [apply Hk | apply Hc] | constructor].
  - destruct (IHq st) as (ps1 & H1 & C1 & G1). destruct (IHk (run q st)) as (ps2 & H2 & C2 & G2).
    exists (ps1 ++ ps2). rewrite H2, H1, app_assoc. split; [done|].
    rewrite sum_list_with_app, C1, C2. split; [done|]. by apply Forall_app.
Qed.

Lemma spawn_cost (ps : list (Pending App)) :
  sum_list_with thread_cost (spawn ps) = sum_list_with (fun q => fresh (p_req q)) ps.
Proof. induction ps as [|q ps IH]; simpl; [done|]. rewrite IH. unfold fresh. lia. Qed.

Lemma spawn_good (ps : list (Pending App)) : Forall pending_good ps -> Forall thread_good (spawn ps).
Proof. induction 1; constructor; done. Qed.

Lemma exec_good (p : Prog App unit) (s : Sys) :
  Good p -> Forall thread_good (threads s) ->
  measure (exec p s) = measure s + imm_cost p /\ Forall thread_good (threads (exec p s)).
Proof.
  intros Hp Hs. destruct (run_good p (mkRun (app s) (outs s) []) Hp) as (ps & Hps & Hc & Hg).
  simpl in Hps. unfold measure, exec. cbn [threads notifs]. rewrite Hps. simpl.
  rewrite sum_list_with_app, spawn_cost, Hc. split; [lia|].
  apply Forall_app. split; [done|]. by apply spawn_good.
Qed.

(** ** Every program of the page is good *)

Ltac solve_good :=
  repeat match goal with
  | |- Good (Ret _) => apply g_ret
  | |- Good (mret _) => apply g_ret
  | |- Good (fork _) => unfold fork
  | |- Good (emit _) => unfold emit
  | |- Good (set _) => unfold set
  | |- Good (onUpdateNote _ _) => unfold onUpdateNote, NotesHook.updateNote
  | |- Good (Set_ _ _) => apply g_set
  | |- Good (Emit _ _) => apply g_emit
  | |- Good (Await _ _) => apply g_await; intros ?
  | |- Good (Fork _ _) => apply g_fork
  | |- imm_cost _ <= _ => cbn; repeat case_match; cbn; lia
  | |- context [if truthy ?x then _ else _] => destruct (truthy x)
  | |- Good (match ?x with _ => _ end) => destruct x
  | |- Good (if ?b then _ else _) => destruct b
  | |- context [match ?x with _ => _ end] => is_var x; destruct x
  | |- Good _ => progress cbn
  end.

Lemma handler_good (a : App) (e : UiEvent) (p : Prog App unit) :
  handler a e = Some p -> Good p.
Proof.
  unfold handler. destruct (dLoading (dash a)); [done|].
  destruct e; repeat (case_match || case_bool_decide); intros Hsome; try discriminate;
    injection Hsome as <-;
    unfold handleCreateNote, NotesHook.createNote, handleDeleteNote, NotesHook.deleteNote, handleSave,
      handleToggleFavorite, handleAddTag, handleRemoveTag, handleSummarize, summarized, handleSignOut,
      setD, setE;
    repeat (case_match || case_bool_decide); solve_good.
Qed.

Lemma fetchNotes_good : Good (lift fetchNotes).
Proof. unfold fetchNotes, fetched. solve_good. Qed.

(** A notification costs its fetch: the request, its answer and its
    handling. *)
Lemma fetchNotes_cost : imm_cost (lift fetchNotes) = 2.
Proof. reflexivity. Qed.

Lemma answer_good (ts : list Thread) (i : nat) (t t' : Thread) :
  Forall thread_good ts -> ts !! i = Some t -> (thread_good t -> thread_good t') ->
  Forall thread_good (<[i := t']> ts).
Proof. intros Hs Hi Hok. apply Forall_insert; [done|]. apply Hok. by eapply Forall_lookup_1. Qed.

Lemma step_good (pol : Policy) (s s' : Sys) :
  Forall thread_good (threads s) -> step pol s s' -> Forall thread_good (threads s').
Proof.
  intros Hs Hst. destruct Hst as [s e p Hh|s|s i t v db' Hi _ _|s i text k v Hi|s i t msg Hi _
                                 |s i t v Hi _|s _|s rs _].
  - apply exec_good; [by eapply handler_good | done].
  - apply exec_good; [|done]. unfold onAuthStateChange, setD. solve_good.
  - eapply answer_good; [done..|]. by destruct t.
  - eapply answer_good; [done..|]. done.
  - eapply answer_good; [done..|]. by destruct t.
  - apply exec_good; [|by apply Forall_delete]. apply (Forall_lookup_1 _ _ _ _ Hs Hi).
  - apply exec_good; [apply fetchNotes_good | done].
  - done.
Qed.

Lemma reachable_good (pol : Policy) (db0 : DB) (s : Sys) :
  reachable pol db0 s -> Forall thread_good (threads s).
Proof.
  induction 1 as [|s s' _ IH Hst]; [|by eapply step_good].
  apply exec_good; [|constructor].
  unfold Dashboard.mount, NotesHook.mount, fetchNotes, fetched, checkSession, setD. solve_good.
Qed.

(** ** The measure decreases *)

Lemma sum_insert (ts : list Thread) (i : nat) (t t' : Thread) :
  ts !! i = Some t ->
  sum_list_with thread_cost (<[i := t']> ts) + thread_cost t =
  sum_list_with thread_cost ts + thread_cost t'.
Proof.
  revert i; induction ts as [|t0 ts IH]; intros [|i] Hi; try done; simpl in *.
  - injection Hi as ->. lia.
  - specialize (IH i Hi). lia.
Qed.

Lemma sum_delete (ts : list Thread) (i : nat) (t : Thread) :
  ts !! i = Some t ->
  sum_list_with thread_cost (delete i ts) + thread_cost t = sum_list_with thread_cost ts.
Proof.
  revert i; induction ts as [|t0 ts IH]; intros [|i] Hi; try done; simpl in *.
  - injection Hi as ->. lia.
  - specialize (IH i Hi). lia.
Qed.

(** Only a write changes the [notes] table. *)
Lemma serve_notes_changed (pol : Policy) (b : nat) (d d' : DB) (r : Req) (v : Resp r) :
  serve pol b d r = Some (v, d') -> notes_changed d d' = true -> is_write r = true.
Proof.
  unfold notes_changed. destruct r; simpl; try done;
    intros [= _ <-]; rewrite bool_decide_eq_true; done.
Qed.

Lemma cost_in_flight (t : Thread) :
  t_reply t = None -> thread_cost t = 2 + (if is_write (t_req t) then 3 else 0) + budget (t_req t).
Proof. unfold thread_cost. intros ->. lia. Qed.

Lemma cost_replied (t : Thread) (v : Resp (t_req t)) :
  t_reply t = Some v -> thread_cost t = 1 + budget (t_req t).
Proof. unfold thread_cost. by intros ->. Qed.

Lemma cost_answer (t : Thread) (v : Resp (t_req t)) : thread_cost (answer t v) = 1 + budget (t_req t).
Proof. done. Qed.

Lemma settle_decreases (pol : Policy) (s s' : Sys) :
  Forall thread_good (threads s) -> settle_step pol s s' -> measure s' < measure s.
Proof.
  intros Hs Hst. unfold measure.
  destruct Hst as [s i t v db' Hi Hr Hsv|s i text k v Hi|s i t msg Hi Hr|s i t v Hi Hr|s Hn].
  - cbn [threads notifs]. pose proof (sum_insert _ _ t (answer t v) Hi) as H.
    rewrite cost_answer, (cost_in_flight t Hr) in H.
    destruct (notes_changed (db s) db') eqn:Hc.
    + rewrite (serve_notes_changed pol _ _ _ _ _ Hsv Hc) in H. lia.
    + destruct (is_write (t_req t)); lia.
  - cbn [threads notifs with_threads].
    pose proof (sum_insert _ _ _ (mkThread (Summarize text) (Some v) k) Hi) as H.
    rewrite (cost_replied (mkThread (Summarize text) (Some v) k) v eq_refl),
      (cost_in_flight (mkThread (Summarize text) None k) eq_refl) in H.
    cbn [budget is_write t_req] in H. lia.
  - cbn [threads notifs with_threads].
    pose proof (sum_insert _ _ t (answer t (fail_reply msg (t_req t))) Hi) as H.
    rewrite cost_answer, (cost_in_flight t Hr) in H. destruct (is_write (t_req t)); lia.
  - destruct (Forall_lookup_1 _ _ _ _ Hs Hi v) as [Hg Hc].
    destruct (exec_good (t_k t v) (with_threads s (delete i (threads s))) Hg (Forall_delete _ _ _ Hs))
      as [He _].
    unfold measure in He. rewrite He. cbn [threads notifs with_threads].
    pose proof (sum_delete _ _ _ Hi) as H. rewrite (cost_replied t v Hr) in H. lia.
  - destruct (exec_good (lift fetchNotes) (mkSys (db s) (app s) (threads s) (notifs s - 1) (outs s) (batches s))
                fetchNotes_good Hs) as [He _].
    unfold measure in He. rewrite He, fetchNotes_cost. cbn [threads notifs]. lia.
Qed.

Lemma settle_good (pol : Policy) (s s' : Sys) :
  Forall thread_good (threads s) -> settle_step pol s s' -> Forall thread_good (threads s').
Proof. intros Hs Hst. by eapply step_good, settle_step_step. Qed.

Lemma settle_steps_bound (pol : Policy) (n : nat) (s s' : Sys) :
  Forall thread_good (threads s) -> settle_steps pol n s s' -> n <= measure s.
Proof.
  intros Hs Hss. induction Hss as [s|n s s1 s2 Hst _ IH]; [lia|].
  pose proof (settle_decreases pol s s1 Hs Hst). specialize (IH (settle_good pol s s1 Hs Hst)). lia.
Qed.

(** Some step needs no new input while anything is in flight or pending. *)
Lemma settle_progress (pol : Policy) (s : Sys) :
  threads s <> [] \/ 0 < notifs s -> exists s', settle_step pol s s'.
Proof.
  intros [Ht|Hn]; [|eexists; by apply se_notify].
  destruct (threads s) as [|t ts] eqn:E; [done|].
  assert (Hi : threads s !! 0 = Some t) by by rewrite E.
  destruct (t_reply t) as [v|] eqn:Hr.
  - eexists. by eapply se_deliver.
  - eexists. by eapply (se_fail pol s 0 t EmptyString).
Qed.

Lemma settle_drain (pol : Policy) (n : nat) (s : Sys) :
  Forall thread_good (threads s) -> measure s <= n ->
  exists m s', settle_steps pol m s s' /\ threads s' = [] /\ notifs s' = 0.
Proof.
  revert s. induction n as [|n IH]; intros s Hs Hm.
  - exists 0, s. split; [constructor|]. unfold measure in Hm.
    destruct (threads s) as [|t ts]; [split; [done | lia]|].
    assert (1 <= thread_cost t) by (unfold thread_cost; case_match; lia).
    pose proof (sum_list_with_in t thread_cost (t :: ts) ltac:(set_solver)). lia.
  - destruct (decide (threads s = [] /\ notifs s = 0)) as [[H1 H2]|Hne].
    + exists 0, s. split; [constructor | done].
    + destruct (settle_progress pol s) as [s1 Hst].
      { destruct (decide (threads s = [])) as [He|]; [|by left].
        right. assert (notifs s <> 0) by (intros Hz; by apply Hne). lia. }
      pose proof (settle_decreases pol s s1 Hs Hst) as Hd.
      destruct (IH s1 (settle_good pol s s1 Hs Hst) ltac:(lia)) as (m & s' & Hss & Ht & Hn).
      exists (S m), s'. split; [econstructor; [exact Hst | exact Hss] | done].
Qed.

(** C33. Without new input the dashboard settles: from any reachable state,
    every run of steps that need no user action, auth event or outside
    write (the backend answering or failing requests, the function
    answering, the page handling replies, the hook handling change
    notifications) is no longer than [measure s], and some such run ends
    with no request in flight and no notification pending.  Re-fetching on
    every notification cannot loop. *)
Theorem dashboard_settles (pol : Policy) (db0 : DB) (s : Sys) :
  reachable pol db0 s ->
  (forall n s', settle_steps pol n s s' -> n <= measure s) /\
  exists n s', settle_steps pol n s s' /\ threads s' = [] /\ notifs s' = 0.
Proof.
  intros Hr. pose proof (reachable_good pol db0 s Hr) as Hg.
  split; [intros n s' Hss; by eapply settle_steps_bound | by eapply settle_drain].
Qed.

Lemma dashboard_settles_witness :
  exists n s', settle_steps owner_policy n (after (loaded ++ [AUi ClickCreate])) s' /\ threads s' = [] /\ notifs s' = 0.
Proof.
  refine (proj2 (dashboard_settles owner_policy db0 (after (loaded ++ [AUi ClickCreate])) _)). reach.
Defined.

End Settle.
