(* ===== verification/Consistency.v ===== *)
(** * When the hook's list is consistent with the backend

    The spec (section 4.1) says re-fetching on every change notification
    "guarantees eventual consistency with the remote store after every
    change".  [Scenarios.stale_fetch_wins] shows that it does not when the
    answers of overlapping fetches arrive out of order.  This file shows
    what does hold: if every reply is handled as soon as it is served (a
    round [AServe i; ADeliver i]), no call fails, and the user stays signed
    in, then whenever nothing is in flight and no notification is pending,
    the list is the backend's readable rows in the backend's order.

    The invariant [Cons]: the list is in sync, or a notification is
    pending, or a fetch is in flight.  Only [fetched] writes the hook's
    state, and every other waiting continuation leaves it alone
    ([HookFree], an instance of [Confined]). *)
From S2P Require Import Prelude JsLib Note Remote Backend NotesHook NoteEditor Dashboard System Fixtures Invariants.
Import Note Remote Backend NotesHook NoteEditor Dashboard System Fixtures Invariants.

Module Consistency.

Definition is_select (r : Req) : bool := match r with SelectNotes => true | _ => false end.
Definition is_signout (r : Req) : bool := match r with SignOut => true | _ => false end.

(** Requests other than a fetch of the notes and a sign-out. *)
Definition plain_req (r : Req) : bool := negb (is_select r) && negb (is_signout r).

(** Programs that leave the hook's state alone and send plain requests. *)
Abbreviation HookFree := (Confined plain_req (fun a : App => hook a)).

Definition thread_hf (t : Thread) : Prop :=
  is_select (t_req t) = true \/ (plain_req (t_req t) = true /\ forall v, HookFree (t_k t v)).

Definition fetch_pending (s : Sys) : Prop :=
  exists rep k, mkThread SelectNotes rep k ∈ threads s.

Definition Cons (pol : Policy) (s : Sys) : Prop :=
  list_in_sync pol s \/ 0 < notifs s \/ fetch_pending s.

(** ** Runs in which every reply is handled as soon as it arrives *)
Section Atomic.
Variable pol : Policy.

(** User actions other than signing out, auth events, notifications and
    writes by another device are single steps. *)
Definition single (a : Action) : bool :=
  match a with
  | AUi ClickSignOut => false
  | AUi _ | AAuth | ANotify | AExternal _ => true
  | _ => false
  end.

Inductive astep (s s' : Sys) : Prop :=
| a_single a : single a = true -> exec_action pol a s = Some s' -> astep s s'
| a_round i : exec_trace pol [AServe i; ADeliver i] s = Some s' -> astep s s'
| a_function i v : exec_trace pol [AFunction i v; ADeliver i] s = Some s' -> astep s s'.

Inductive areachable (db0 : DB) : Sys -> Prop :=
| ar_boot : areachable db0 (boot db0)
| ar_step s s' : areachable db0 s -> astep s s' -> areachable db0 s'.

(** An executable test: the trace is made of single steps and of rounds
    [AServe i; ADeliver i] and [AFunction i v; ADeliver i]. *)
Fixpoint atomic_trace (acts : list Action) : bool :=
  match acts with
  | [] => true
  | AServe i :: ADeliver j :: rest => Nat.eqb i j && atomic_trace rest
  | AFunction i _ :: ADeliver j :: rest => Nat.eqb i j && atomic_trace rest
  | a :: rest => single a && atomic_trace rest
  end.

Lemma astep_trace (s s' : Sys) : astep s s' -> exists acts, exec_trace pol acts s = Some s'.
Proof.
  destruct 1 as [a _ H|i H|i v H]; [exists [a]; simpl; by rewrite H | by eexists | by eexists].
Qed.

Lemma areachable_reachable (db0 : DB) (s : Sys) : areachable db0 s -> reachable pol db0 s.
Proof.
  induction 1 as [|s s' _ IH Hst]; [constructor|].
  destruct (astep_trace s s' Hst) as [acts H]. by eapply exec_trace_reachable.
Qed.

Lemma exec_trace_cons2 (a b : Action) (rest : list Action) (s s' : Sys) :
  exec_trace pol (a :: b :: rest) s = Some s' ->
  exists s1, exec_trace pol [a; b] s = Some s1 /\ exec_trace pol rest s1 = Some s'.
Proof.
  simpl. destruct (exec_action pol a s) as [s0|]; [|done].
  destruct (exec_action pol b s0) as [s1|]; [|done]. intros H. by exists s1.
Qed.

Lemma exec_trace_cons1 (a : Action) (rest : list Action) (s s' : Sys) :
  exec_trace pol (a :: rest) s = Some s' ->
  exists s1, exec_action pol a s = Some s1 /\ exec_trace pol rest s1 = Some s'.
Proof. simpl. destruct (exec_action pol a s) as [s1|]; [|done]. intros H. by exists s1. Qed.

Lemma atomic_trace_areachable (db0 : DB) (acts : list Action) (s s' : Sys) :
  areachable db0 s -> atomic_trace acts = true -> exec_trace pol acts s = Some s' -> areachable db0 s'.
Proof.
  revert s. induction acts as [acts IH] using (induction_ltof1 _ (@List.length _)).
  intros s Hr Ha Hx. destruct acts as [|a rest]; [by injection Hx as <-|].
  assert (Hone : single a = true -> atomic_trace rest = true -> areachable db0 s').
  { intros Hs Hrest. destruct (exec_trace_cons1 _ _ _ _ Hx) as (s1 & H1 & H2).
    apply (IH rest) with s1; [unfold ltof; simpl; lia | econstructor; [done | by eapply a_single] | done..]. }
  destruct a as [e| |i|i v|i msg|i| |rs]; try (apply andb_true_iff in Ha as [? ?]; by apply Hone);
    destruct rest as [|[] rest']; cbn in Ha; try discriminate; try (apply andb_true_iff in Ha as [? ?]; by apply Hone);
    apply andb_true_iff in Ha as [->%Nat.eqb_eq Hrest];
    destruct (exec_trace_cons2 _ _ _ _ _ Hx) as (s1 & H1 & H2);
    (apply (IH rest') with s1; [unfold ltof; simpl; lia | econstructor; [done|] | done..]);
    [by eapply a_round | by eapply a_function].
Qed.

End Atomic.

(** ** Helpers *)

Lemma select_notes_same (pol : Policy) (d d' : DB) :
  rows d' = rows d -> session d' = session d -> select_notes pol d' = select_notes pol d.
Proof. unfold select_notes. by intros -> ->. Qed.

Lemma serve_session (pol : Policy) (b : nat) (d d' : DB) (r : Req) (v : Resp r) :
  is_signout r = false -> serve pol b d r = Some (v, d') -> session d' = session d.
Proof. destruct r; simpl; try done; try (intros _ [= _ <-]; done); by repeat case_match; intros _ [= _ <-]. Qed.

Lemma serve_select (pol : Policy) (b : nat) (d d' : DB) (v : Resp SelectNotes) :
  serve pol b d SelectNotes = Some (v, d') -> d' = d.
Proof. by intros [= _ <-]. Qed.

Lemma delete_insert_same {A} (l : list A) (i : nat) (x : A) : delete i (<[i := x]> l) = delete i l.
Proof. revert i; induction l as [|y l IH]; intros [|i]; simpl; [done..|by rewrite IH]. Qed.

Lemma elem_of_delete_other {A} (l : list A) (i : nat) (x y : A) :
  l !! i = Some y -> x ∈ l -> x <> y -> x ∈ delete i l.
Proof.
  intros Hi Hx Hne. apply list_elem_of_lookup in Hx as [j Hj].
  destruct (decide (j < i)).
  - apply list_elem_of_lookup. exists j. by rewrite list_lookup_delete_lt.
  - destruct (decide (j = i)) as [->|]; [congruence|].
    apply list_elem_of_lookup. exists (j - 1). rewrite list_lookup_delete_ge by lia.
    by replace (S (j - 1)) with j by lia.
Qed.

(** A round of a thread: the backend serves it, the rest of the handler runs. *)
Lemma round_eq (pol : Policy) (s s' : Sys) (i : nat) :
  exec_trace pol [AServe i; ADeliver i] s = Some s' ->
  exists t v d', threads s !! i = Some t /\ t_reply t = None /\
    serve pol (batches s) (db s) (t_req t) = Some (v, d') /\
    s' = exec (t_k t v) (mkSys d' (app s) (delete i (threads s))
                          (notifs s + if notes_changed (db s) d' then 1 else 0) (outs s) (S (batches s))).
Proof.
  simpl. destruct (threads s !! i) as [t|] eqn:Hi; [|done].
  destruct (t_reply t) eqn:Hr; [done|].
  destruct (serve pol (batches s) (db s) (t_req t)) as [[v d']|] eqn:Hs; [|done]. simpl.
  rewrite list_lookup_insert_eq by (eapply lookup_lt_Some; eauto). simpl.
  intros [= <-]. exists t, v, d'. repeat split; try done. unfold with_threads. simpl.
  by rewrite delete_insert_same.
Qed.

(** A summary answered by the function and handled at once. *)
Lemma function_round_eq (pol : Policy) (s s' : Sys) (i : nat) v :
  exec_trace pol [AFunction i v; ADeliver i] s = Some s' ->
  exists text k, threads s !! i = Some (mkThread (Summarize text) None k) /\
    s' = exec (k v) (with_threads s (delete i (threads s))).
Proof.
  simpl. destruct (threads s !! i) as [[r rep k]|] eqn:Hi; [|done].
  destruct r; simpl; try done. destruct rep; [done|]. simpl.
  rewrite list_lookup_insert_eq by (eapply lookup_lt_Some; eauto). simpl.
  intros [= <-]. exists text, k. split; [done|]. unfold with_threads. simpl. by rewrite delete_insert_same.
Qed.

(** ** Running programs that leave the hook alone *)

Lemma spawn_hf (ps : list (Pending App)) :
  Forall (confined_pending plain_req (fun a : App => hook a)) ps -> Forall thread_hf (spawn ps).
Proof. induction 1 as [|[r k] ps Hq _ IH]; constructor; [right; exact Hq | exact IH]. Qed.

Lemma exec_hf (pol : Policy) (p : Prog App unit) (s : Sys) :
  HookFree p -> Forall thread_hf (threads s) -> Cons pol s ->
  Forall thread_hf (threads (exec p s)) /\ Cons pol (exec p s).
Proof.
  intros Hp Hs Hc. destruct (exec_confined _ _ p s Hp (fun _ => eq_refl)) as (Hh & Hd & Hn & ps & Ht & Hq).
  rewrite Ht. split; [apply Forall_app; split; [done | by apply spawn_hf]|].
  destruct Hc as [[Hl Hi]|[Hc|(rep & k & Hk)]].
  - left. unfold list_in_sync. by rewrite Hh, Hd.
  - right; left. by rewrite Hn.
  - right; right. exists rep, k. rewrite Ht. apply elem_of_app. by left.
Qed.

Lemma handler_hf (a : App) (e : UiEvent) (p : Prog App unit) :
  e <> ClickSignOut -> handler a e = Some p -> HookFree p.
Proof.
  intros Hne. unfold handler. destruct (dLoading (dash a)); [done|].
  destruct e; try congruence; repeat (case_match || case_bool_decide); intros Hsome; try discriminate;
    injection Hsome as <-;
    unfold handleCreateNote, handleDeleteNote, handleSave, handleToggleFavorite, handleAddTag,
      handleRemoveTag, handleSummarize, summarized, setD, setE;
    repeat (case_match || case_bool_decide); solve_page.
Qed.

(** ** The invariant *)

Lemma Cons_boot (pol : Policy) (db0 : DB) :
  Forall thread_hf (threads (boot db0)) /\ Cons pol (boot db0).
Proof.
  split.
  - cbn. constructor; [by left|]. constructor; [|constructor].
    right. split; [done|]. intros v. cbn. unfold setD. solve_page.
  - right; right. do 2 eexists. cbn. by left.
Qed.

Lemma single_Cons (pol : Policy) (a : Action) (s s' : Sys) :
  Forall thread_hf (threads s) -> Cons pol s -> single a = true -> exec_action pol a s = Some s' ->
  Forall thread_hf (threads s') /\ Cons pol s'.
Proof.
  intros Hs Hc Ha Hx. destruct a as [e| | | | | | |rs]; cbn [single] in Ha; unfold exec_action in Hx; cbv beta iota in Hx; try done.
  - destruct (handler (app s) e) as [p|] eqn:Hh; [|done]. injection Hx as <-.
    apply exec_hf; [|done..]. eapply handler_hf; [|exact Hh]. by intros ->.
  - injection Hx as <-. apply exec_hf; [|done..]. unfold onAuthStateChange, setD. solve_page.
  - case_bool_decide as Hn; [|done]. injection Hx as <-. simpl.
    split; [apply Forall_app; split; [done | constructor; [by left | constructor]]|].
    right; right. do 2 eexists. apply elem_of_app. right. by left.
  - case_bool_decide; [done|]. injection Hx as <-. split; [done|]. right; left. simpl. lia.
Qed.

Lemma round_Cons (pol : Policy) (db0 : DB) (i : nat) (s s' : Sys) :
  reachable pol db0 s -> Forall thread_hf (threads s) -> Cons pol s ->
  exec_trace pol [AServe i; ADeliver i] s = Some s' ->
  Forall thread_hf (threads s') /\ Cons pol s'.
Proof.
  intros Hr Hs Hc Hx. pose proof Hx as Hx'.
  destruct (round_eq pol s s' i Hx) as (t & v & d' & Hi & Hrep & Hsv & ->).
  pose proof (Forall_lookup_1 _ _ _ _ Hs Hi) as [Hsel|[Hok Hk]].
  - (* a fetch: the list is now in sync *)
    destruct t as [r rep k]. destruct r; try discriminate. simpl in *. subst rep.
    destruct (fetch_round pol db0 s _ i k Hr Hi Hx') as [_ Hsync].
    pose proof (serve_select _ _ _ _ _ Hsv) as ->.
    rewrite (deliver_fetch s i None k v (reachable_Inv _ _ _ Hr) Hi).
    split; [destruct v; simpl; rewrite app_nil_r; by apply Forall_delete|].
    left. rewrite (deliver_fetch s i None k v (reachable_Inv _ _ _ Hr) Hi) in Hsync. exact Hsync.
  - (* another request: the hook is untouched *)
    assert (Hsess : session d' = session (db s)).
    { eapply serve_session; [|exact Hsv]. unfold plain_req in Hok. by apply andb_true_iff in Hok as [_ ?%negb_true_iff]. }
    apply exec_hf; [apply Hk | by apply Forall_delete|].
    destruct (notes_changed (db s) d') eqn:Hch; [right; left; simpl; lia|].
    destruct Hc as [[Hl Hld]|[Hn|(rep & k & Hin)]].
    + left. split; [|done]. simpl. rewrite Hl. symmetry. apply select_notes_same; [|done].
      unfold notes_changed in Hch. apply bool_decide_eq_false in Hch. destruct (decide (rows d' = rows (db s))); [done|].
      exfalso. apply Hch. intros Heq. by apply n.
    + right; left. simpl. lia.
    + right; right. exists rep, k. simpl. eapply elem_of_delete_other; [exact Hi | exact Hin|].
      intros <-. unfold plain_req in Hok. simpl in Hok. discriminate.
Qed.

Lemma function_Cons (pol : Policy) (i : nat) v (s s' : Sys) :
  Forall thread_hf (threads s) -> Cons pol s ->
  exec_trace pol [AFunction i v; ADeliver i] s = Some s' ->
  Forall thread_hf (threads s') /\ Cons pol s'.
Proof.
  intros Hs Hc Hx. destruct (function_round_eq pol s s' i v Hx) as (text & k & Hi & ->).
  destruct (Forall_lookup_1 _ _ _ _ Hs Hi) as [Hsel|[_ Hk]]; [done|].
  apply exec_hf; [apply Hk | by apply Forall_delete|].
  destruct Hc as [Hl|[Hn|(rep & k' & Hin)]]; [by left | by right; left|].
  right; right. exists rep, k'. eapply elem_of_delete_other; [exact Hi | exact Hin|].
  intros Heq. apply (f_equal t_req) in Heq. discriminate.
Qed.

Lemma areachable_Cons (pol : Policy) (db0 : DB) (s : Sys) :
  areachable pol db0 s -> Forall thread_hf (threads s) /\ Cons pol s.
Proof.
  induction 1 as [|s s' Hr [Hs Hc] Hst]; [apply Cons_boot|].
  destruct Hst as [a Ha Hx|i Hx|i v Hx].
  - by eapply single_Cons.
  - eapply round_Cons; [by eapply areachable_reachable | done..].
  - by eapply function_Cons.
Qed.

(** C30. The spec's eventual consistency, where it holds: in every state
    reached from the boot by runs in which every reply is handled as soon
    as the backend serves it (or, for a summary, as soon as the function
    answers), no call fails and the user does not sign out, once nothing is
    in flight and no notification is pending the list is exactly the
    backend's rows the session may read, newest first, and loading is
    over.  [Scenarios.stale_fetch_wins] shows that without the first
    condition it fails. *)
Theorem quiescent_in_sync (pol : Policy) (db0 : DB) (s : Sys) :
  areachable pol db0 s -> threads s = [] -> notifs s = 0 -> list_in_sync pol s.
Proof.
  intros Hr Ht Hn. destruct (proj2 (areachable_Cons pol db0 s Hr)) as [Hl|[Hl|(rep & k & Hin)]];
    [done | lia |]. rewrite Ht in Hin. by apply not_elem_of_nil in Hin.
Qed.

(** Alice's notes are loaded one round at a time; she opens n1, types and
    leaves the field; the save is served and handled, its notification
    re-fetches. *)
Definition atomic_edit : list Action :=
  [AServe 0; ADeliver 0; AServe 0; ADeliver 0;
   AUi (ClickNote "n1"); AUi (ContentInput "forces and motion"); AUi ContentBlur;
   AServe 0; ADeliver 0; ANotify; AServe 0; ADeliver 0].

Lemma quiescent_in_sync_witness :
  threads (after atomic_edit) = [] /\ notifs (after atomic_edit) = 0 /\
  list_in_sync owner_policy (after atomic_edit).
Proof.
  split; [vm_compute; reflexivity|]. split; [vm_compute; reflexivity|].
  apply (quiescent_in_sync owner_policy db0); [|vm_compute; reflexivity..].
  apply (atomic_trace_areachable owner_policy db0 atomic_edit (boot db0)); [constructor | reflexivity |].
  vm_compute. reflexivity.
Defined.

End Consistency.
