(* ===== verification/PublicPage.v ===== *)
(** * The public notes page

    src/src/pages/PublicNotes.tsx: the community page, which fetches the
    notes flagged public (newest first) on mount, filters them by the
    search text with the dashboard list's test, and renders loading, an
    empty message or one card per note.  The state, the fetch and its
    continuation, the filter, the render and the page's events. *)
From S2P Require Import Prelude JsLib Note Remote Backend NotesList System Fixtures.
From Stdlib Require Import ZArith.
Import Note Remote Backend NotesList System Fixtures.

Module PublicNotes.

Record PublicState := mkPublic {
  pnotes : list Note;
  pquery : string;
  ploading : bool
}.

(** [useState<Note[]>([])], [useState("")], [useState(true)] (lines 14-16). *)
Definition initial : PublicState := mkPublic [] EmptyString true.

Definition setPNotes (ns : list Note) (s : PublicState) : PublicState :=
  mkPublic ns (pquery s) (ploading s).
Definition setPQuery (q : string) (s : PublicState) : PublicState :=
  mkPublic (pnotes s) q (ploading s).
Definition setPLoading (v : bool) (s : PublicState) : PublicState :=
  mkPublic (pnotes s) (pquery s) v.

(** [fetchPublicNotes] (lines 23-38); the [catch] only logs. *)
Definition public_fetched (r : result Fetched ErrMsg) : Prog PublicState unit :=
  (match r with
   | Ok f => set (setPNotes (match rows_data f with Some d => d | None => [] end))
   | Err _ => mret tt
   end);;
  set (setPLoading false).

Definition fetchPublicNotes : Prog PublicState unit :=
  r ← await SelectPublicNotes;
  public_fetched r.

(** [filteredNotes] (lines 40-45): the dashboard's text test, no tag. *)
Definition publicFiltered (s : PublicState) : list Note :=
  List.filter (fun n =>
      Js.includes (Js.toLowerCase (title n)) (Js.toLowerCase (pquery s))
      || Js.includes (Js.toLowerCase (content n)) (Js.toLowerCase (pquery s)))
    (pnotes s).

Record PublicCard := mkPublicCard {
  pc_title : string;
  pc_views : Z;
  pc_date : Timestamp;
  pc_excerpt : string;
  pc_tags : list string
}.

Definition public_card (n : Note) : PublicCard :=
  mkPublicCard (if truthy (title n) then title n else "Untitled Note") (view_count n)
    (created_at n) (if truthy (content n) then content n else "Empty note") (firstn 3 (tags n)).

Inductive PublicBody :=
| PLoadingBody
| PEmpty (msg : string)
| PCards (cs : list PublicCard).

(** Lines 78-131. *)
Definition public_body (s : PublicState) : PublicBody :=
  if ploading s then PLoadingBody
  else match publicFiltered s with
       | [] => PEmpty (if truthy (pquery s) then "No notes found" else "No public notes yet")
       | fs => PCards (map public_card fs)
       end.

(** The page (lines 47-137): its title and subtitle, the Home button, the
    search box (placeholder and value) and the body. *)
Record PublicView := mkPublicView {
  pv_title : string;
  pv_subtitle : string;
  pv_home : string;
  pv_placeholder : string;
  pv_search : string;
  pv_body : PublicBody
}.

Definition public_view (s : PublicState) : PublicView :=
  mkPublicView "Public Notes" "Discover notes shared by the community" "Home"
    "Search public notes..." (pquery s) (public_body s).

(** The mount effect (lines 19-21): [fetchPublicNotes()] is not awaited. *)
Definition public_mount : Prog PublicState unit := fork fetchPublicNotes.

(** The page's events: the Home button (lines 58-64) and the search
    input's [onChange] (lines 67-76); both are rendered whether or not the
    list is loading. *)
Inductive PublicUi := PHome | PSearch (v : string).

Definition public_handler (e : PublicUi) : Prog PublicState unit :=
  match e with
  | PHome => emit (Navigate "/")
  | PSearch v => set (setPQuery v)
  end.

(** ** Properties *)

(** C28. A failed fetch of the public notes is not shown to the user: the
    [catch] only logs, so the page ends loading with no notification and
    the list unchanged; on a first load it says "No public notes yet" (or
    "No notes found" once a search is typed), as if nobody had shared a
    note. *)
Theorem public_fetch_failure (e : ErrMsg) (s : PublicState) (os : list Out) (ps : list (Pending PublicState)) :
  run (public_fetched (Err e)) (mkRun s os ps) = mkRun (setPLoading false s) os ps /\
  (pnotes s = [] ->
   public_body (setPLoading false s) =
   PEmpty (if truthy (pquery s) then "No notes found" else "No public notes yet")).
Proof. split; [reflexivity|]. intros Hn. unfold public_body, publicFiltered. simpl. by rewrite Hn. Qed.


(** C24. The community page applies the spec's free-text filter (the
    same as the dashboard's, section 4.4): a public note is listed exactly
    when its title or its content contains the search text ignoring case,
    in the fetched order; hence the page's list is the dashboard's
    [filteredNotes] with no tag selected. *)
Theorem publicFiltered_dashboard_filter (s : PublicState) :
  (forall n, In n (publicFiltered s) <->
     In n (pnotes s) /\ (Js.ci_contains (title n) (pquery s) \/ Js.ci_contains (content n) (pquery s))) /\
  publicFiltered s = filteredNotes (mkListState (pquery s) None) (pnotes s).
Proof.
  split.
  - intros n. unfold publicFiltered. rewrite In_filter_bool, orb_true_iff, !Js.includes_lower_spec. done.
  - unfold publicFiltered, filteredNotes. apply filter_bool_ext'. intros n.
    simpl. by rewrite andb_true_r.
Qed.

(** The viewer owns the row. *)
Definition owns_viewer (u : option User) (n : Note) : Prop :=
  match u with Some u => user_id n = uid u | None => False end.

(** C25. The dashboard ([select("*")] with no owner filter) and the
    community page ([eq("is_public", true)]) read through the same
    row-level policy.  If the policy makes the dashboard show only the
    user's own notes, as the spec requires, the community page can only
    list the viewer's own public notes, never another user's. *)
Theorem owner_only_dashboard_hides_community (pol : Policy) :
  (forall (db : DB) (n : Note), In n (select_notes pol db) -> owns_viewer (session db) n) ->
  forall (db : DB) (b : nat) (st : Run PublicState) (n : Note),
    In n (pnotes (r_state (run (public_fetched (Ok (mkFetched (Some (select_public pol db)) b))) st))) ->
    owns_viewer (session db) n.
Proof.
  intros Hdash db b st n Hn. simpl in Hn.
  unfold select_public in Hn. rewrite (order_desc_perm _ _) in Hn.
  apply In_filter_bool in Hn as [_ Hr]. apply andb_true_iff in Hr as [Hr _].
  specialize (Hdash (mkDB [n] [] (session db) 0%Z 0%N) n). simpl in Hdash.
  apply Hdash. unfold select_notes. simpl. rewrite Hr. simpl. by left.
Qed.

Lemma owner_policy_dashboard (db : DB) (n : Note) :
  In n (select_notes owner_policy db) -> owns_viewer (session db) n.
Proof.
  unfold select_notes. rewrite (order_desc_perm _ _). intros Hn.
  apply In_filter_bool in Hn as [_ Hr]. simpl in Hr. unfold owns in Hr.
  destruct (session db); [|done]. apply String.eqb_eq in Hr. simpl. by rewrite Hr.
Qed.

Definition shared_row : Note :=
  mkNote "n4" "alice" "Optics" "lenses" [] false true None 3%Z 4%Z 4%Z.

Definition db_shared : DB := mkDB (rows db0 ++ [shared_row]) [] (Some alice) 10%Z 0%N.

Lemma owner_only_dashboard_hides_community_witness : owns_viewer (session db_shared) shared_row.
Proof.
  apply (owner_only_dashboard_hides_community owner_policy owner_policy_dashboard db_shared 1
           (mkRun initial [] [])).
  vm_compute. tauto.
Defined.


Lemma public_fetch_failure_witness :
  public_body (setPLoading false (setPQuery "optics" initial)) = PEmpty "No notes found".
Proof. exact (proj2 (public_fetch_failure "timeout" (setPQuery "optics" initial) [] []) eq_refl). Defined.

End PublicNotes.
