(* ===== verification/ProfilePage.v ===== *)
(** * The profile page

    src/src/pages/Profile.tsx: the page loads the signed-in user and their
    profile on mount ([fetchProfile], split at its two [await]s), saves
    the full name ([handleSaveProfile], with [saved] after the [await]),
    and draws the avatar's initials.  The page running against the backend
    is [ProfileFlow]. *)
From S2P Require Import Prelude JsLib Note Remote Backend Fixtures.
Import Note Remote Backend Fixtures.

Module ProfilePage.

Record ProfileState := mkProfileState {
  puser : option User;
  profile : option Profile;
  fullName : string;
  isLoadingP : bool;
  isSaving : bool
}.

(** Lines 14-18. *)
Definition initial : ProfileState := mkProfileState None None EmptyString true false.

Definition setPUser (u : option User) (s : ProfileState) : ProfileState :=
  mkProfileState u (profile s) (fullName s) (isLoadingP s) (isSaving s).
Definition setProfile (p : option Profile) (s : ProfileState) : ProfileState :=
  mkProfileState (puser s) p (fullName s) (isLoadingP s) (isSaving s).
Definition setFullName (v : string) (s : ProfileState) : ProfileState :=
  mkProfileState (puser s) (profile s) v (isLoadingP s) (isSaving s).
Definition setIsLoadingP (v : bool) (s : ProfileState) : ProfileState :=
  mkProfileState (puser s) (profile s) (fullName s) v (isSaving s).
Definition setIsSaving (v : bool) (s : ProfileState) : ProfileState :=
  mkProfileState (puser s) (profile s) (fullName s) (isLoadingP s) v.

(** [fetchProfile] (lines 23-43): without a user the page navigates away
    and stays loading.  [user_fetched] is the part after the first
    [await] (lines 25-36), [profile_loaded] the part after the second
    (lines 38-42). *)
Definition profile_loaded (pd : option Profile) : Prog ProfileState unit :=
  (match pd with
   | Some pr =>
       set (setProfile (Some pr));;
       set (setFullName (match full_name pr with Some nm => if truthy nm then nm else EmptyString
                                                 | None => EmptyString end))
   | None => mret tt
   end);;
  set (setIsLoadingP false).

Definition user_fetched (u : option User) : Prog ProfileState unit :=
  match u with
  | None => emit (Navigate "/auth")
  | Some user =>
      set (setPUser (Some user));;
      pd ← await (SelectProfile (uid user));
      profile_loaded pd
  end.

Definition fetchProfile : Prog ProfileState unit :=
  u ← await GetUser;
  user_fetched u.

(** [handleSaveProfile] (lines 48-73). *)
Definition saved (r : result unit ErrMsg) : Prog ProfileState unit :=
  (match r with
   | Ok _ => emit (Toast "Profile updated" "Your profile has been saved successfully" false)
   | Err e => emit (Toast "Error saving profile" e true)
   end);;
  set (setIsSaving false).

Definition handleSaveProfile (s0 : ProfileState) : Prog ProfileState unit :=
  match puser s0 with
  | None => mret tt
  | Some u =>
      set (setIsSaving true);;
      r ← await (UpdateProfile (uid u) (fullName s0));
      saved r
  end.

(** The avatar's initials (lines 83-85):
    [fullName ? fullName.split(" ").map(n => n[0]).join("").toUpperCase()
              : user?.email?.[0].toUpperCase() || "U"].
    [None] is the [TypeError] thrown by [undefined.toUpperCase()] when the
    e-mail is the empty string. *)
Definition initials (s : ProfileState) : option string :=
  if truthy (fullName s) then
    Some (Js.toUpperCase (Js.join_units (map Js.at0 (Js.split_space (fullName s)))))
  else
    match puser s with
    | None => Some "U"
    | Some u =>
        match email u with
        | None => Some "U"
        | Some e =>
            match Js.at0 e with
            | None => None
            | Some c => let r := Js.toUpperCase (String c EmptyString) in
                        Some (if truthy r then r else "U")
            end
        end
    end.

(** The render (lines 75-160): "Loading profile..." while loading;
    otherwise the avatar's initials (computing them may throw, see
    [initials]: then there is no render, [None]), the disabled e-mail field
    ([user?.email || ""]), the name input and the save button with its
    label and its [disabled] flag. *)
Inductive ProfileView :=
| ProfileLoading (msg : string)
| ProfileForm (initials : string) (email : string) (name : string) (save_label : string)
    (save_disabled : bool).

Definition profile_view (s : ProfileState) : option ProfileView :=
  if isLoadingP s then Some (ProfileLoading "Loading profile...")
  else
    match initials s with
    | None => None
    | Some ini =>
        Some (ProfileForm ini
                (match puser s with
                 | Some u => match email u with Some e => if truthy e then e else EmptyString | None => EmptyString end
                 | None => EmptyString
                 end)
                (fullName s) (if isSaving s then "Saving..." else "Save Profile") (isSaving s))
    end.

(** ** Properties of the initials *)

Fixpoint all_blank (s : string) : bool :=
  match s with
  | EmptyString => true
  | String c s' => Ascii.eqb c " " && all_blank s'
  end.

Lemma split_space_blank (s : string) :
  all_blank s = true -> Forall (fun p => p = EmptyString) (Js.split_space s).
Proof.
  induction s as [|c s IH]; simpl; [by repeat constructor|].
  intros [Hc Hs]%andb_true_iff. rewrite Hc. constructor; [done | by apply IH].
Qed.

Lemma join_units_empty (ps : list string) :
  Forall (fun p => p = EmptyString) ps -> Js.join_units (map Js.at0 ps) = EmptyString.
Proof. induction 1 as [|p ps -> _ IH]; [done | exact IH]. Qed.

(** C26. The avatar throws while rendering exactly when the full name is
    empty and the signed-in user's e-mail is the empty string:
    [user?.email?.[0]] is then [undefined] and [.toUpperCase()] is called
    on it. *)
Theorem initials_throws_iff (s : ProfileState) :
  initials s = None <->
  fullName s = EmptyString /\ exists u, puser s = Some u /\ email u = Some EmptyString.
Proof.
  unfold initials. destruct (fullName s) as [|c nm]; simpl.
  - destruct (puser s) as [u|]; simpl.
    + destruct (email u) as [[|c e]|] eqn:He; simpl.
      * split; [intros _; split; [done | by exists u] | done].
      * split; [done | intros [_ [u' [[= <-] He']]]; congruence].
      * split; [done | intros [_ [u' [[= <-] He']]]; congruence].
    + split; [done | by intros [_ [u' [? _]]]].
  - split; [done | by intros [? _]].
Qed.

(** C27. A full name made only of spaces is truthy, so the initials come
    from its pieces, which are all empty: the avatar shows nothing. *)
Theorem initials_blank_name (s : ProfileState) :
  truthy (fullName s) = true -> all_blank (fullName s) = true -> initials s = Some EmptyString.
Proof.
  intros Ht Hb. unfold initials. rewrite Ht.
  by rewrite (join_units_empty _ (split_space_blank _ Hb)).
Qed.

(** C29. The avatar's initials have one letter per non-empty word of the
    full name (two for a word starting with "ß", which upper-cases to
    "SS"), and nothing caps them: a name of [k] words gives between [k]
    and [2k] code units in the 80-pixel avatar. *)
Theorem initials_length (s : ProfileState) :
  truthy (fullName s) = true ->
  let k := List.length (List.filter truthy (Js.split_space (fullName s))) in
  exists r, initials s = Some r /\ k <= String.length r <= 2 * k.
Proof.
  intros Ht. unfold initials. rewrite Ht. eexists. split; [reflexivity|].
  rewrite <- Js.join_at0_length. apply Js.toUpperCase_length.
Qed.

Lemma initials_length_witness :
  initials (mkProfileState (Some alice) None "Anna Maria de la Cruz" false false) = Some "AMDLC".
Proof.
  destruct (initials_length (mkProfileState (Some alice) None "Anna Maria de la Cruz" false false) eq_refl)
    as (r & Hr & _).
  rewrite Hr. vm_compute in Hr. congruence.
Defined.

Lemma initials_blank_name_witness :
  initials (mkProfileState (Some alice) None "  " false false) = Some EmptyString.
Proof. exact (initials_blank_name (mkProfileState (Some alice) None "  " false false) eq_refl eq_refl). Defined.

End ProfilePage.
