(* ===== verification/Header.v ===== *)
(** * The dashboard header

    src/src/components/dashboard/DashboardHeader.tsx: the brand, and four
    buttons: the public notes page, the profile page, the theme toggle and
    sign-out (the page's [onSignOut]). *)
From S2P Require Import Prelude Remote.
Import Remote.

Module Header.

(** The header's buttons (lines 35-67 of DashboardHeader.tsx). *)
Inductive HeaderButton := HPublic | HProfile | HTheme | HSignOut.

(** [setTheme(theme === "dark" ? "light" : "dark")]: any theme but "dark"
    (also "system" or none) becomes "dark". *)
Definition toggleTheme (theme : option string) : string :=
  match theme with
  | Some t => if String.eqb t "dark" then "light" else "dark"
  | None => "dark"
  end.

(** What a click does: a navigation, a new theme, or the page's
    [onSignOut]. *)
Inductive HeaderEffect := HNav (path : string) | HSetTheme (t : string) | HCallSignOut.

Definition click (theme : option string) (b : HeaderButton) : HeaderEffect :=
  match b with
  | HPublic => HNav "/public-notes"
  | HProfile => HNav "/profile"
  | HTheme => HSetTheme (toggleTheme theme)
  | HSignOut => HCallSignOut
  end.


(** The rendered header (lines 16-76): the brand and its subtitle, the
    theme button's icon ([Sun] while the theme is "dark", lines 58-62),
    the buttons in order, and the sign-out label.  The [user] prop is not
    rendered. *)
Inductive ThemeIcon := Sun | Moon.

Record HeaderView := mkHeaderView {
  h_brand : string;
  h_subtitle : string;
  h_buttons : list HeaderButton;
  h_theme_icon : ThemeIcon;
  h_signout_label : string
}.

Definition header_view (theme : option string) : HeaderView :=
  mkHeaderView "StudySync" "Your Smart Notebook" [HPublic; HProfile; HTheme; HSignOut]
    (match theme with Some t => if String.eqb t "dark" then Sun else Moon | None => Moon end)
    "Sign Out".

(** The theme button shows the theme a click switches to: the sun
    exactly when the click sets "light", the moon exactly when it sets
    "dark", whatever the current theme (also "system" or none). *)
Theorem theme_icon_matches_click (theme : option string) :
  (h_theme_icon (header_view theme) = Sun <-> click theme HTheme = HSetTheme "light") /\
  (h_theme_icon (header_view theme) = Moon <-> click theme HTheme = HSetTheme "dark").
Proof.
  unfold header_view, click, toggleTheme. simpl.
  destruct theme as [t|]; [destruct (String.eqb t "dark")|]; split; split; congruence.
Qed.

End Header.
