(* ===== verification/Landing.v ===== *)
(** * The landing page

    src/src/pages/Landing.tsx: a page without state that renders the
    brand, a headline, a tagline, three feature cards and four buttons.
    Every button calls [navigate("/auth")]; the page never reads the
    session, so a signed-in visitor is sent to the authentication page as
    well. *)
From S2P Require Import Prelude Remote.
Import Remote.

Module Landing.

(** The buttons: "Sign In" and "Get Started" in the navigation bar
    (lines 21-29), "Start Free" and "Learn More" under the headline
    (lines 58-72). *)
Inductive LandingButton := SignIn | GetStarted | StartFree | LearnMore.

Definition label (b : LandingButton) : string :=
  match b with
  | SignIn => "Sign In"
  | GetStarted => "Get Started"
  | StartFree => "Start Free"
  | LearnMore => "Learn More"
  end.

(** Each [onClick] is [() => navigate("/auth")]. *)
Definition click (b : LandingButton) : Out :=
  match b with
  | SignIn | GetStarted | StartFree | LearnMore => Navigate "/auth"
  end.

Record Feature := mkFeature { f_title : string; f_text : string }.

Record LandingView := mkLandingView {
  brand : string;
  nav_buttons : list LandingButton;
  badge : string;
  headline : list string;          (** the lines of the [h1], split at its [br] *)
  tagline : string;
  cta_buttons : list LandingButton;
  features : list Feature
}.

(** The render (lines 8-109); JSX text is collapsed as React does: the line
    break inside the tagline is one space, [{" "}] is a space. *)
Definition view : LandingView :=
  mkLandingView "StudySync" [SignIn; GetStarted] "Powered by AI"
    ["Your Smart Notebook"; "Powered by AI"]
    "Take notes, organize your thoughts, and get AI-powered summaries. StudySync helps you learn smarter, not harder."
    [StartFree; LearnMore]
    [mkFeature "Smart Organization"
       "Tag, search, and organize your notes with ease. Never lose track of your ideas.";
     mkFeature "AI Summaries"
       "Get instant AI-powered summaries of your notes to save time and boost productivity.";
     mkFeature "Lightning Fast"
       "Quick note creation, instant search, and seamless syncing across all your devices."].

End Landing.
