(* ===== verification/ProfileFlow.v ===== *)
(** * The profile page running against the backend

    src/src/pages/Profile.tsx as a step relation.  The page's state is
    [ProfilePage.ProfileState]; its programs are [fetchProfile] (the
    mount effect, lines 22-46) and [handleSaveProfile] (lines 48-73); the
    rendered page (lines 75-157) offers the back button, the name input and
    the save button, disabled while [isSaving].  A reply is served by the
    backend of [Backend] or fails, in any order, and the rest of the
    awaiting handler runs at once; another tab or device may change the
    backend at any time.

    The theorems: the save button's [isSaving] flag counts the profile
    updates in flight (so at most one is), a pending save can always
    complete and re-enable the button, and a name saved is the name the
    page shows when it is loaded again. *)
From S2P Require Import Prelude JsLib Note Remote Backend Fixtures ProfilePage.
Import Note Remote Backend Fixtures ProfilePage.

Module ProfileFlow.

Inductive ProfileUi :=
| PBack                  (** "Back to Dashboard" (lines 90-97) *)
| PNameInput (v : string) (** the full-name input's [onChange] (line 140) *)
| PSave.                 (** "Save Profile" (lines 145-151) *)

(** The page renders its form once loaded (line 75) and when computing the
    initials does not throw (lines 83-85, see [initials]); a disabled
    button has no click. *)
Definition rendered (s : ProfileState) : bool :=
  negb (isLoadingP s) && bool_decide (initials s <> None).

Definition handler (s : ProfileState) (e : ProfileUi) : option (Prog ProfileState unit) :=
  if rendered s then
    match e with
    | PBack => Some (emit (Navigate "/dashboard"))
    | PNameInput v => Some (set (setFullName v))
    | PSave => if isSaving s then None else Some (handleSaveProfile s)
    end
  else None.

(** The backend, the page, the handler continuations waiting for a reply
    (in the order they were suspended) and the outputs shown. *)
Record PSys := mkPSys {
  pdb : DB;
  pst : ProfileState;
  pthreads : list (Pending ProfileState);
  pouts : list Out
}.

Definition pexec (p : Prog ProfileState unit) (s : PSys) : PSys :=
  let r := run p (mkRun (pst s) (pouts s) (pthreads s)) in
  mkPSys (pdb s) (r_state r) (r_pending r) (r_outs r).

(** Mounting the page on a backend. *)
Definition pboot (db : DB) : PSys := pexec fetchProfile (mkPSys db initial [] []).

(** Resuming the [i]-th waiting continuation with reply [v] on backend [db']. *)
Definition resume (s : PSys) (i : nat) (q : Pending ProfileState) (v : Resp (p_req q)) (db' : DB) : PSys :=
  pexec (p_k q v) (mkPSys db' (pst s) (delete i (pthreads s)) (pouts s)).

Section Step.
Variable pol : Policy.

Inductive pstep : PSys -> PSys -> Prop :=
| ps_ui s e p :
    handler (pst s) e = Some p -> pstep s (pexec p s)
| ps_serve s i q v db' :
    pthreads s !! i = Some q -> serve pol 0 (pdb s) (p_req q) = Some (v, db') ->
    pstep s (resume s i q v db')
| ps_fail s i q msg :
    pthreads s !! i = Some q -> pstep s (resume s i q (fail_reply msg (p_req q)) (pdb s))
| ps_external s db' :
    pstep s (mkPSys db' (pst s) (pthreads s) (pouts s)).

Inductive preachable (db0 : DB) : PSys -> Prop :=
| pr_boot : preachable db0 (pboot db0)
| pr_step s s' : preachable db0 s -> pstep s s' -> preachable db0 s'.

(** An executable step, for runs. *)
Inductive PAction :=
| PUi (e : ProfileUi)
| PServe (i : nat)
| PFail (i : nat) (msg : ErrMsg).

Definition pexec_action (a : PAction) (s : PSys) : option PSys :=
  match a with
  | PUi e => match handler (pst s) e with Some p => Some (pexec p s) | None => None end
  | PServe i =>
      match pthreads s !! i with
      | Some q =>
          match serve pol 0 (pdb s) (p_req q) with
          | Some (v, db') => Some (resume s i q v db')
          | None => None
          end
      | None => None
      end
  | PFail i msg =>
      match pthreads s !! i with
      | Some q => Some (resume s i q (fail_reply msg (p_req q)) (pdb s))
      | None => None
      end
  end.

Fixpoint ptrace (acts : list PAction) (s : PSys) : option PSys :=
  match acts with
  | [] => Some s
  | a :: acts' => match pexec_action a s with Some s' => ptrace acts' s' | None => None end
  end.

Lemma pexec_action_step (a : PAction) (s s' : PSys) :
  pexec_action a s = Some s' -> pstep s s'.
Proof.
  destruct a; simpl; intros H.
  - destruct (handler _ _) eqn:E; [|done]. injection H as <-. by eapply ps_ui.
  - destruct (pthreads s !! i) as [q|] eqn:Hq; [|done].
    destruct (serve _ _ _ _) as [[v db']|] eqn:Hs; [|done]. injection H as <-. by eapply ps_serve.
  - destruct (pthreads s !! i) as [q|] eqn:Hq; [|done]. injection H as <-. by eapply ps_fail.
Qed.

Lemma ptrace_reachable (db0 : DB) (acts : list PAction) (s s' : PSys) :
  preachable db0 s -> ptrace acts s = Some s' -> preachable db0 s'.
Proof.
  revert s; induction acts as [|a acts IH]; intros s Hs; simpl; [by intros [= <-]|].
  destruct (pexec_action a s) as [s1|] eqn:E; [|done].
  intros Ht. apply (IH s1); [|done]. econstructor; [done|]. by eapply pexec_action_step.
Qed.

End Step.

(** ** The save button's flag counts the saves in flight

    Every waiting continuation is either [saved], the rest of
    [handleSaveProfile] after its update request, or a program that never
    changes [isSaving] and never sends an update (the rest of
    [fetchProfile]). *)
Definition not_save (r : Req) : bool :=
  match r with UpdateProfile _ _ => false | _ => true end.

Abbreviation Steady := (Confined not_save isSaving).

Definition pthread_ok (q : Pending ProfileState) : Prop :=
  match q with
  | mkPending r k =>
      match r as r0 return (Resp r0 -> Prog ProfileState unit) -> Prop with
      | UpdateProfile _ _ => fun k => forall v, k v = saved v
      | _ => fun k => forall v, Steady (k v)
      end k
  end.

(** The profile updates in flight. *)
Definition n_saves (ts : list (Pending ProfileState)) : nat :=
  List.length (List.filter (fun q => negb (not_save (p_req q))) ts).

Record PInv (s : PSys) : Prop := {
  pinv_threads : Forall pthread_ok (pthreads s);
  pinv_count : n_saves (pthreads s) = if isSaving (pst s) then 1 else 0
}.

#[export] Instance n_saves_proper : Proper ((≡ₚ) ==> (=)) n_saves.
Proof. intros ts1 ts2 Hp. unfold n_saves. induction Hp; simpl; repeat case_match; simpl; lia. Qed.

Lemma n_saves_app (ts1 ts2 : list (Pending ProfileState)) :
  n_saves (ts1 ++ ts2) = n_saves ts1 + n_saves ts2.
Proof. unfold n_saves. by rewrite List.filter_app, length_app. Qed.

Lemma n_saves_delete (ts : list (Pending ProfileState)) (i : nat) (q : Pending ProfileState) :
  ts !! i = Some q ->
  n_saves ts = n_saves (delete i ts) + (if not_save (p_req q) then 0 else 1).
Proof.
  intros Hq. rewrite (n_saves_proper _ _ (delete_Permutation ts i q Hq)). unfold n_saves. simpl.
  destruct (not_save _); simpl; lia.
Qed.

Lemma steady_pending (ps : list (Pending ProfileState)) :
  Forall (confined_pending not_save isSaving) ps -> Forall pthread_ok ps /\ n_saves ps = 0.
Proof.
  induction 1 as [|[r k] ps [Hr Hk] _ [IH1 IH2]]; [done|]. simpl in *.
  split; [constructor; [by destruct r|done]|].
  unfold n_saves in *. simpl. by rewrite Hr.
Qed.

Lemma pexec_steady (p : Prog ProfileState unit) (s : PSys) :
  Steady p -> PInv s -> PInv (pexec p s).
Proof.
  intros Hp [Ht Hc]. destruct (run_confined _ _ p (mkRun (pst s) (pouts s) (pthreads s)) Hp)
    as [Hf [ps [Hps Hq]]].
  simpl in Hf, Hps. destruct (steady_pending ps Hq) as [Hok Hn].
  unfold pexec. split; cbn [pthreads pst]; rewrite Hps.
  - by apply Forall_app.
  - by rewrite n_saves_app, Hn, Hf, Nat.add_0_r.
Qed.

Lemma saved_run (v : result unit ErrMsg) (st : Run ProfileState) :
  r_state (run (saved v) st) = setIsSaving false (r_state st) /\
  r_pending (run (saved v) st) = r_pending st.
Proof. by destruct v. Qed.

Lemma fetchProfile_steady : Steady fetchProfile.
Proof. unfold fetchProfile, user_fetched, profile_loaded. solve_confined. Qed.

Lemma resume_PInv (s : PSys) (i : nat) (q : Pending ProfileState) (v : Resp (p_req q)) (db' : DB) :
  PInv s -> pthreads s !! i = Some q -> PInv (resume s i q v db').
Proof.
  intros [Ht Hc] Hq. pose proof (Forall_lookup_1 _ _ _ _ Ht Hq) as Hok.
  pose proof (n_saves_delete _ _ _ Hq) as Hd.
  assert (Ht' : Forall pthread_ok (delete i (pthreads s))) by by apply Forall_delete.
  unfold resume. destruct q as [r k]. simpl in v, Hok, Hd |- *.
  destruct r; try (apply pexec_steady; [apply Hok | split; [done | simpl in Hd |- *; lia]]).
  rewrite Hok. destruct (saved_run v (mkRun (pst s) (pouts s) (delete i (pthreads s)))) as [H1 H2].
  unfold pexec. simpl in H1, H2 |- *. rewrite H1, H2.
  split; [done|]. simpl in Hd. destruct (isSaving (pst s)); simpl; lia.
Qed.

Lemma handler_PInv (s : PSys) (e : ProfileUi) (p : Prog ProfileState unit) :
  PInv s -> handler (pst s) e = Some p -> PInv (pexec p s).
Proof.
  intros Hi. unfold handler. destruct (rendered _); [|done].
  destruct e; [intros [= <-]; apply pexec_steady; [solve_confined|done] ..|].
  destruct (isSaving (pst s)) eqn:Hs; [done|]. intros [= <-].
  destruct Hi as [Ht Hc]. unfold handleSaveProfile. destruct (puser (pst s)) as [u|].
  - unfold pexec; simpl. split; simpl.
    + apply Forall_app. split; [done|]. repeat constructor.
    + rewrite n_saves_app, Hc, Hs. reflexivity.
  - by split.
Qed.

Lemma preachable_PInv (pol : Policy) (db0 : DB) (s : PSys) :
  preachable pol db0 s -> PInv s.
Proof.
  induction 1 as [|s s' _ IH Hst].
  - apply pexec_steady; [apply fetchProfile_steady | by split].
  - destruct Hst as [s e p He|s i q v db' Hq _|s i q msg Hq|s db'].
    + by eapply handler_PInv.
    + by apply resume_PInv.
    + by apply resume_PInv.
    + by destruct IH.
Qed.

(** C7. On the profile page the save button's flag counts the profile
    updates in flight: while [isSaving] exactly one is in flight, otherwise
    none.  In particular the disabled button keeps a second save from
    being sent. *)
Theorem save_in_flight (pol : Policy) (db0 : DB) (s : PSys) :
  preachable pol db0 s -> n_saves (pthreads s) = if isSaving (pst s) then 1 else 0.
Proof. intros H. apply (pinv_count _ (preachable_PInv pol db0 s H)). Qed.

(** ** A pending save completes *)

Lemma n_saves_pos (ts : list (Pending ProfileState)) :
  n_saves ts <> 0 -> exists i q, ts !! i = Some q /\ not_save (p_req q) = false.
Proof.
  unfold n_saves. destruct (List.filter _ ts) as [|q qs] eqn:Hf; [done|]. intros _.
  assert (Hin : In q (List.filter (fun q => negb (not_save (p_req q))) ts)) by (rewrite Hf; left; done).
  apply List.filter_In in Hin as [Hin Hq]. apply list_elem_of_In, list_elem_of_lookup_1 in Hin as [i Hi].
  exists i, q. split; [done|]. by destruct (not_save _).
Qed.

(** C8. A save in flight can always complete: while [isSaving] the
    backend can answer the update request, and whatever the reply
    (success, or any failure) the page then shows the button enabled
    again, with no save left in flight. *)
Theorem save_completes (pol : Policy) (db0 : DB) (s : PSys) :
  preachable pol db0 s -> isSaving (pst s) = true ->
  exists i q, pthreads s !! i = Some q /\ not_save (p_req q) = false /\
    (exists v db', serve pol 0 (pdb s) (p_req q) = Some (v, db')) /\
    forall v db', isSaving (pst (resume s i q v db')) = false /\
                  n_saves (pthreads (resume s i q v db')) = 0.
Proof.
  intros Hr Hs. destruct (preachable_PInv pol db0 s Hr) as [Ht Hc]. rewrite Hs in Hc.
  destruct (n_saves_pos (pthreads s)) as (i & [r k] & Hq & Hn); [lia|].
  pose proof (Forall_lookup_1 _ _ _ _ Ht Hq) as Hok. pose proof (n_saves_delete _ _ _ Hq) as Hd.
  exists i, (mkPending r k). split; [done|]. split; [done|].
  destruct r; try discriminate Hn. cbn in Hok, Hd |- *. split; [by eexists _, _|].
  intros v db'. unfold resume, pexec. cbn [pst pthreads p_k p_req]. rewrite Hok.
  destruct (saved_run v (mkRun (pst s) (pouts s) (delete i (pthreads s)))) as [H1 H2].
  cbn in H1, H2. rewrite H1, H2. split; [done | unfold n_saves in *; lia].
Qed.

(** ** Saving, then loading the page again *)

Lemma pexec_save (s : PSys) (u : User) :
  puser (pst s) = Some u ->
  pexec (handleSaveProfile (pst s)) s =
  mkPSys (pdb s) (setIsSaving true (pst s))
    (pthreads s ++ [mkPending (UpdateProfile (uid u) (fullName (pst s))) (fun r => saved r)])
    (pouts s).
Proof. intros Hu. unfold handleSaveProfile. by rewrite Hu. Qed.

Lemma find_updated (ps : list Profile) (i nm : string) :
  (exists pr, pr ∈ ps /\ prof_id pr = i) ->
  List.find (fun pr => String.eqb (prof_id pr) i)
    (map (fun pr => if String.eqb (prof_id pr) i then mkProfile i (Some nm) else pr) ps) =
  Some (mkProfile i (Some nm)).
Proof.
  induction ps as [|pr ps IH]; intros (p & Hp & Hi); [by apply elem_of_nil in Hp|]. simpl.
  destruct (String.eqb (prof_id pr) i) eqn:E; simpl; [by rewrite String.eqb_refl|].
  rewrite E. apply IH. apply elem_of_cons in Hp as [->|Hp]; [|by exists p].
  apply String.eqb_neq in E. congruence.
Qed.

(** C9. A name saved is the name the profile page shows when it is
    loaded again: from a rendered page whose user is the signed-in one and
    has a profile row, clicking "Save Profile" and the backend answering
    the update re-enables the button and shows "Profile updated"; a fresh
    profile page on the resulting backend, once the user and the profile
    are fetched, has stopped loading and shows the saved name in its
    input, whether or not that name is empty. *)
Theorem save_then_reload (pol : Policy) (s : PSys) (u : User) :
  rendered (pst s) = true -> isSaving (pst s) = false -> puser (pst s) = Some u ->
  session (pdb s) = Some u -> (exists pr, pr ∈ profiles (pdb s) /\ prof_id pr = uid u) ->
  exists s1 s2,
    ptrace pol [PUi PSave; PServe (List.length (pthreads s))] s = Some s1 /\
    isSaving (pst s1) = false /\ pthreads s1 = pthreads s /\
    last (pouts s1) = Some (Toast "Profile updated" "Your profile has been saved successfully" false) /\
    ptrace pol [PServe 0; PServe 0] (pboot (pdb s1)) = Some s2 /\
    isLoadingP (pst s2) = false /\ fullName (pst s2) = fullName (pst s).
Proof.
  intros Hrend Hsav Hu Hsess Hex.
  assert (Hh : handler (pst s) PSave = Some (handleSaveProfile (pst s)))
    by (unfold handler; by rewrite Hrend, Hsav).
  eexists _, _. cbn [ptrace]. unfold pexec_action at 1. rewrite Hh, (pexec_save s u Hu).
  unfold pexec_action. cbn [pthreads]. rewrite (list_lookup_middle (pthreads s) [] _ _ eq_refl).
  cbn [p_req serve pdb p_k]. unfold resume. cbn [pthreads]. rewrite delete_middle, app_nil_r.
  cbn. split; [reflexivity|]. split; [reflexivity|]. split; [reflexivity|].
  unfold pexec. simpl. rewrite last_snoc. split; [done|].
  rewrite Hsess. simpl. rewrite (find_updated _ _ _ Hex). simpl.
  split; [reflexivity|]. split; [done|]. apply truthy_or_empty.
Qed.

(** ** A loaded page has a user

    The waiting continuations are exactly the three the code creates: the
    rest of [fetchProfile] after [getUser] ([user_fetched]), after the
    profile query ([profile_loaded], suspended only once the user is set),
    and after the update ([saved]).  Only [profile_loaded] ends loading,
    and nothing clears the user. *)
Definition shape (q : Pending ProfileState) (s : ProfileState) : Prop :=
  match q with
  | mkPending r k =>
      match r as r0 return (Resp r0 -> Prog ProfileState unit) -> Prop with
      | GetUser => fun k => forall v, k v = user_fetched v
      | SelectProfile _ => fun k => (forall v, k v = profile_loaded v) /\ puser s <> None
      | UpdateProfile _ _ => fun k => forall v, k v = saved v
      | _ => fun _ => False
      end k
  end.

Record PWf (s : PSys) : Prop := {
  wf_loaded : isLoadingP (pst s) = false -> puser (pst s) <> None;
  wf_threads : Forall (fun q => shape q (pst s)) (pthreads s)
}.

Lemma shape_weaken (q : Pending ProfileState) (s s' : ProfileState) :
  (puser s <> None -> puser s' <> None) -> shape q s -> shape q s'.
Proof. destruct q as [r k]. destruct r; simpl; tauto. Qed.

Lemma wf_make (s0 : ProfileState) (ts new : list (Pending ProfileState)) (s' : PSys) :
  Forall (fun q => shape q s0) ts -> pthreads s' = ts ++ new ->
  (puser s0 <> None -> puser (pst s') <> None) ->
  (isLoadingP (pst s') = false -> puser (pst s') <> None) ->
  Forall (fun q => shape q (pst s')) new -> PWf s'.
Proof.
  intros Hts Hp Hu Hl Hn. split; [done|]. rewrite Hp. apply Forall_app. split; [|done].
  eapply Forall_impl; [exact Hts|]. intros q. by apply shape_weaken.
Qed.

Lemma handler_PWf (s : PSys) (e : ProfileUi) (p : Prog ProfileState unit) :
  PWf s -> handler (pst s) e = Some p -> PWf (pexec p s).
Proof.
  intros [Hl Ht]. unfold handler. destruct (rendered _); [|done].
  destruct e as [|v|]; [| |destruct (isSaving (pst s)) eqn:Hs]; intros; simplify_eq.
  - apply (wf_make (pst s) (pthreads s) []); simpl; rewrite ?app_nil_r; auto.
  - apply (wf_make (pst s) (pthreads s) []); simpl; rewrite ?app_nil_r; auto.
  - destruct (puser (pst s)) as [u|] eqn:Hu.
    + rewrite (pexec_save s u Hu).
      apply (wf_make (pst s) (pthreads s) [mkPending (UpdateProfile (uid u) (fullName (pst s))) (fun r => saved r)]);
        simpl; try done; [rewrite Hu; auto | constructor; [intros ?; reflexivity | constructor]].
    + unfold handleSaveProfile. rewrite Hu. unfold pexec. simpl. split; simpl; [rewrite Hu; exact Hl | done].
Qed.

Lemma resume_PWf (s : PSys) (i : nat) (q : Pending ProfileState) (v : Resp (p_req q)) (db' : DB) :
  PWf s -> pthreads s !! i = Some q -> PWf (resume s i q v db').
Proof.
  intros [Hl Ht] Hq. pose proof (Forall_lookup_1 _ _ _ _ Ht Hq) as Hsh.
  assert (Hd : Forall (fun q => shape q (pst s)) (delete i (pthreads s))) by by apply Forall_delete.
  unfold resume. destruct q as [r k]. simpl in v, Hsh |- *.
  destruct r; try done.
  - rewrite Hsh. destruct v as [u|]; unfold user_fetched.
    + apply (wf_make (pst s) (delete i (pthreads s)) [mkPending (SelectProfile (uid u)) (fun pd => profile_loaded pd)]);
        simpl; try done.
      constructor; [split; [done | simpl; congruence] | constructor].
    + apply (wf_make (pst s) (delete i (pthreads s)) []); simpl; rewrite ?app_nil_r; auto.
  - destruct Hsh as [Hk Hu]. rewrite Hk. unfold profile_loaded.
    apply (wf_make (pst s) (delete i (pthreads s)) []); simpl; rewrite ?app_nil_r; try done;
      destruct v; simpl; auto.
  - rewrite Hsh. destruct (saved_run v (mkRun (pst s) (pouts s) (delete i (pthreads s)))) as [H1 H2].
    apply (wf_make (pst s) (delete i (pthreads s)) []); unfold pexec; simpl in *;
      rewrite ?H1, ?H2, ?app_nil_r; auto.
Qed.

Lemma preachable_PWf (pol : Policy) (db0 : DB) (s : PSys) :
  preachable pol db0 s -> PWf s.
Proof.
  induction 1 as [|s s' _ IH Hst].
  - split; [done|]. by repeat constructor.
  - destruct Hst as [s e p He|s i q v db' Hq _|s i q msg Hq|s db'].
    + by eapply handler_PWf.
    + by apply resume_PWf.
    + by apply resume_PWf.
    + by destruct IH.
Qed.

(** C13. Whenever the profile page has finished loading, a user is set:
    loading ends only in the continuation of the profile query, which is
    suspended after [setUser].  The form, and its Save button, are only
    shown once loaded, so the early return [if (!user) return] of
    [handleSaveProfile] never runs from a click. *)
Theorem loaded_has_user (pol : Policy) (db0 : DB) (s : PSys) :
  preachable pol db0 s -> isLoadingP (pst s) = false -> exists u, puser (pst s) = Some u.
Proof.
  intros Hr Hl. destruct (preachable_PWf pol db0 s Hr) as [Hw _].
  destruct (puser (pst s)) as [u|]; [by exists u | by destruct Hw].
Qed.

(** ** Without new input the page settles

    An answer resumes one waiting continuation with the backend's reply or
    a failure.  Every continuation of the page awaits at most one more
    request (the rest of [fetchProfile] after [getUser] awaits the profile;
    the others none), so each waiting continuation accounts for at most two
    answers. *)
Section Settle.
Variable pol : Policy.

Inductive answer : PSys -> PSys -> Prop :=
| an_serve s i q v db' :
    pthreads s !! i = Some q -> serve pol 0 (pdb s) (p_req q) = Some (v, db') ->
    answer s (resume s i q v db')
| an_fail s i q msg :
    pthreads s !! i = Some q -> answer s (resume s i q (fail_reply msg (p_req q)) (pdb s)).

(** [answers n s s']: [n] answers lead from [s] to [s']. *)
Inductive answers : nat -> PSys -> PSys -> Prop :=
| ans_nil s : answers 0 s s
| ans_cons n s s' s'' : answer s s' -> answers n s' s'' -> answers (S n) s s''.

Lemma answer_pstep (s s' : PSys) : answer s s' -> pstep pol s s'.
Proof. destruct 1; [by eapply ps_serve | by eapply ps_fail]. Qed.

Lemma answer_inv (s s' : PSys) :
  answer s s' -> exists i q v db', pthreads s !! i = Some q /\ s' = resume s i q v db'.
Proof. destruct 1; eauto 6. Qed.

End Settle.

(** At most [n] answers are left: the waiting continuations split into
    those that may await once more and those that may not. *)
Definition within (s : PSys) (n : nat) : Prop :=
  exists ts1 ts0, pthreads s ≡ₚ ts1 ++ ts0 /\ Forall (bounded_pending 1) ts1 /\
    Forall (bounded_pending 0) ts0 /\ 2 * List.length ts1 + List.length ts0 <= n.

Lemma resume_bounded (s : PSys) (i : nat) (q : Pending ProfileState) (v : Resp (p_req q)) (db' : DB) (k : nat) :
  bounded_pending k q ->
  exists ps, pthreads (resume s i q v db') = delete i (pthreads s) ++ ps /\ List.length ps <= k /\
    Forall (bounded_pending (Nat.pred k)) ps.
Proof. intros Hq. apply (run_bounded k (p_k q v) (mkRun (pst s) (pouts s) (delete i (pthreads s)))), Hq. Qed.

Lemma within_resume (s : PSys) (i : nat) (q : Pending ProfileState) (v : Resp (p_req q)) (db' : DB) (n : nat) :
  within s n -> pthreads s !! i = Some q -> n <> 0 /\ within (resume s i q v db') (Nat.pred n).
Proof.
  intros (ts1 & ts0 & Hp & H1 & H0 & Hn) Hq.
  assert (Hd : ts1 ++ ts0 ≡ₚ q :: delete i (pthreads s))
    by (rewrite <- Hp; apply (delete_Permutation _ _ _ Hq)).
  assert (Hin : q ∈ ts1 ++ ts0) by (rewrite <- Hp; by eapply list_elem_of_lookup_2).
  apply elem_of_app in Hin as [Hin|Hin]; apply elem_of_Permutation in Hin as [ts' Hts'].
  - rewrite Hts' in H1. apply Forall_cons in H1 as [Hq1 H1].
    destruct (resume_bounded s i q v db' 1 Hq1) as (ps & Hps & Hl & Hf).
    rewrite Hts' in Hd. simpl in Hd. apply Permutation_cons_inv in Hd.
    rewrite Hts' in Hn. simpl in Hn. split; [lia|].
    exists ts', (ts0 ++ ps). rewrite Hps, <- Hd, app_assoc. split; [done|].
    split; [done|]. split; [by apply Forall_app|]. rewrite length_app. lia.
  - rewrite Hts' in H0. apply Forall_cons in H0 as [Hq0 H0].
    destruct (resume_bounded s i q v db' 0 Hq0) as ([|p ps] & Hps & Hl & Hf); [|simpl in Hl; lia].
    rewrite Hts', <- Permutation_middle in Hd. apply Permutation_cons_inv in Hd.
    rewrite Hts' in Hn. simpl in Hn. split; [lia|].
    exists ts1, ts'. rewrite Hps, app_nil_r, <- Hd. split; [done|]. split; [done|]. split; [done | lia].
Qed.

Lemma answers_within (pol : Policy) (m n : nat) (s s' : PSys) :
  within s n -> answers pol m s s' -> m <= n.
Proof.
  intros Hw Ha. revert n Hw. induction Ha as [s|m s s1 s2 Ha _ IH]; intros n Hw; [lia|].
  apply answer_inv in Ha as (i & q & v & db' & Hq & ->).
  destruct (within_resume s i q v db' n Hw Hq) as [Hn Hw']. specialize (IH _ Hw'). lia.
Qed.

Lemma within_drain (pol : Policy) (n : nat) (s : PSys) :
  within s n -> exists m s', answers pol m s s' /\ pthreads s' = [].
Proof.
  revert s. induction n as [|n IH]; intros s Hw.
  - destruct (pthreads s) as [|q ts] eqn:E; [by exists 0, s; split; [constructor|]|].
    by destruct (within_resume s 0 q (fail_reply EmptyString (p_req q)) (pdb s) 0 Hw ltac:(by rewrite E)).
  - destruct (pthreads s) as [|q ts] eqn:E; [by exists 0, s; split; [constructor|]|].
    assert (Hq : pthreads s !! 0 = Some q) by by rewrite E.
    destruct (within_resume s 0 q (fail_reply EmptyString (p_req q)) (pdb s) (S n) Hw Hq) as [_ Hw'].
    destruct (IH _ Hw') as (m & s' & Ha & He). exists (S m), s'. split; [|done].
    econstructor; [by eapply an_fail | exact Ha].
Qed.

Lemma fetchProfile_bounded : Bounded 2 fetchProfile.
Proof. unfold fetchProfile, user_fetched, profile_loaded. solve_bounded. Qed.

Lemma handler_bounded (s : ProfileState) (e : ProfileUi) (p : Prog ProfileState unit) :
  handler s e = Some p -> Bounded 1 p.
Proof.
  unfold handler. destruct (rendered s); [|done].
  destruct e; [| |destruct (isSaving s)]; intros; simplify_eq; unfold handleSaveProfile, saved; solve_bounded.
Qed.

Lemma pexec_bounded (p : Prog ProfileState unit) (s : PSys) (k : nat) :
  Bounded k p -> k <= 2 -> Forall (bounded_pending 1) (pthreads s) ->
  Forall (bounded_pending 1) (pthreads (pexec p s)).
Proof.
  intros Hp Hk Hs. destruct (run_bounded k p (mkRun (pst s) (pouts s) (pthreads s)) Hp) as (ps & Hps & _ & Hf).
  unfold pexec. simpl. rewrite Hps. apply Forall_app. split; [done|].
  eapply Forall_impl; [exact Hf|]. intros q Hq v. eapply Bounded_weaken; [apply Hq | lia].
Qed.

Lemma preachable_bounded (pol : Policy) (db0 : DB) (s : PSys) :
  preachable pol db0 s -> Forall (bounded_pending 1) (pthreads s).
Proof.
  induction 1 as [|s s' _ IH Hst].
  - eapply pexec_bounded; [apply fetchProfile_bounded | lia | constructor].
  - destruct Hst as [s e p He|s i q v db' Hq _|s i q msg Hq|s db']; [| | |done].
    + eapply pexec_bounded; [by eapply handler_bounded | lia | done].
    + eapply pexec_bounded; [apply (Forall_lookup_1 _ _ _ _ IH Hq) | lia | by apply Forall_delete].
    + eapply pexec_bounded; [apply (Forall_lookup_1 _ _ _ _ IH Hq) | lia | by apply Forall_delete].
Qed.

(** C12. Without new input the profile page settles: from any reachable
    state, every run of answers (the backend serving the waiting requests
    or their calls failing, in any order) has at most twice as many steps
    as there are requests in flight, and some run ends with nothing in
    flight. *)
Theorem profile_settles (pol : Policy) (db0 : DB) (s : PSys) :
  preachable pol db0 s ->
  (forall m s', answers pol m s s' -> m <= 2 * List.length (pthreads s)) /\
  exists m s', answers pol m s s' /\ pthreads s' = [].
Proof.
  intros Hr. assert (Hw : within s (2 * List.length (pthreads s))).
  { exists (pthreads s), []. rewrite app_nil_r. split; [done|].
    split; [by eapply preachable_bounded|]. split; [constructor | simpl; lia]. }
  split; [intros m s' Ha; by eapply answers_within | by eapply within_drain].
Qed.

(** ** Witnesses

    Alice is signed in and has a profile row; the page is mounted, its two
    requests are answered, she types a new name, and (in [saving_run])
    clicks "Save Profile". *)
Definition db_profile : DB :=
  mkDB (rows db0) [mkProfile "alice" (Some "Alice")] (Some alice) 10%Z 0%N.

Definition pafter (acts : list PAction) : PSys :=
  match ptrace owner_policy acts (pboot db_profile) with Some s => s | None => pboot db_profile end.

Lemma pafter_reachable (acts : list PAction) :
  ptrace owner_policy acts (pboot db_profile) = Some (pafter acts) ->
  preachable owner_policy db_profile (pafter acts).
Proof. intros H. eapply ptrace_reachable; [constructor | exact H]. Qed.

Definition typed_run : list PAction := [PServe 0; PServe 0; PUi (PNameInput "Alice Liddell")].
Definition saving_run : list PAction := typed_run ++ [PUi PSave].

Lemma save_in_flight_witness :
  isSaving (pst (pafter saving_run)) = true /\
  n_saves (pthreads (pafter saving_run)) = if isSaving (pst (pafter saving_run)) then 1 else 0.
Proof.
  split; [vm_compute; reflexivity|].
  apply (save_in_flight owner_policy db_profile). apply pafter_reachable. vm_compute. reflexivity.
Defined.

Lemma save_completes_witness :
  exists i q, pthreads (pafter saving_run) !! i = Some q /\ not_save (p_req q) = false /\
    (exists v db', serve owner_policy 0 (pdb (pafter saving_run)) (p_req q) = Some (v, db')) /\
    forall v db', isSaving (pst (resume (pafter saving_run) i q v db')) = false /\
                  n_saves (pthreads (resume (pafter saving_run) i q v db')) = 0.
Proof.
  apply (save_completes owner_policy db_profile).
  - apply pafter_reachable. vm_compute. reflexivity.
  - vm_compute. reflexivity.
Defined.

Lemma save_then_reload_witness :
  exists s1 s2,
    ptrace owner_policy [PUi PSave; PServe (List.length (pthreads (pafter typed_run)))] (pafter typed_run) = Some s1 /\
    isSaving (pst s1) = false /\ pthreads s1 = pthreads (pafter typed_run) /\
    last (pouts s1) = Some (Toast "Profile updated" "Your profile has been saved successfully" false) /\
    ptrace owner_policy [PServe 0; PServe 0] (pboot (pdb s1)) = Some s2 /\
    isLoadingP (pst s2) = false /\ fullName (pst s2) = fullName (pst (pafter typed_run)).
Proof.
  apply (save_then_reload owner_policy (pafter typed_run) alice); try (vm_compute; reflexivity).
  exists (mkProfile "alice" (Some "Alice")). split; [vm_compute; left | reflexivity].
Defined.

Lemma profile_settles_witness :
  exists m s', answers owner_policy m (pafter saving_run) s' /\ pthreads s' = [].
Proof.
  refine (proj2 (profile_settles owner_policy db_profile (pafter saving_run) _)).
  apply pafter_reachable. vm_compute. reflexivity.
Defined.

Lemma loaded_has_user_witness :
  isLoadingP (pst (pafter typed_run)) = false /\ exists u, puser (pst (pafter typed_run)) = Some u.
Proof.
  assert (Hl : isLoadingP (pst (pafter typed_run)) = false) by (vm_compute; reflexivity).
  split; [exact Hl|]. apply (loaded_has_user owner_policy db_profile); [|exact Hl].
  apply pafter_reachable. vm_compute. reflexivity.
Defined.

End ProfileFlow.
