(* ===== verification/DashboardView.v ===== *)
(** * The dashboard's render and its floating action button

    src/src/components/dashboard/FloatingActionButton.tsx is a round button
    with a plus icon that forwards its [onClick] prop.  The render of
    src/src/pages/Dashboard.tsx (lines 64-95) is a spinner while the
    session check runs, then the header, the list, the editor and the
    floating action button, each given the page's state and callbacks.

    This file composes the children's views into the page's: the button
    is given [ClickCreate], the event whose program is [handleCreateNote]
    in [Dashboard.handler], and the header [ClickSignOut]. *)
From S2P Require Import Prelude JsLib Note Remote NotesList NotesHook NoteEditor Dashboard Header.
Import Note Remote NotesList NotesHook NoteEditor Dashboard Header.

Module FloatingActionButton.

Inductive FabIcon := Plus.

(** The rendered [Button]: its click, its size and its icon (the class
    names only place and style it). *)
Record Fab (E : Type) := mkFab { fab_onClick : E; fab_size : string; fab_icon : FabIcon }.
Arguments mkFab {E} fab_onClick fab_size fab_icon.
Arguments fab_onClick {E} _.
Arguments fab_size {E} _.
Arguments fab_icon {E} _.

Definition FloatingActionButton {E} (onClick : E) : Fab E := mkFab onClick "lg" Plus.

End FloatingActionButton.
Import FloatingActionButton.

Module DashboardView.

(** The page: the header with its [onSignOut], the list, the editor's
    view and the floating action button.  The list gets the notes and the
    loading flag of the hook's result [useNotes] (line 19). *)
Inductive DashView :=
| Spinner
| Page (header : HeaderView) (onSignOut : UiEvent) (list : ListView) (editor_view : EditorView)
    (fab : Fab UiEvent).

Definition view (theme : option string) (a : App) : DashView :=
  if dLoading (dash a) then Spinner
  else Page (header_view theme) ClickSignOut
         (list_view (lst a) (api_notes (useNotes (hook a))) (selectedNoteId (dash a))
            (api_isLoading (useNotes (hook a))))
         (render (selectedNote a) (editor a))
         (FloatingActionButton ClickCreate).

End DashboardView.
